(** * AgentDock: the agent spending governance engine

    A shallow embedding of the Cloud Functions of AgentDock
    (policyEngine.ts, approvalApi.ts, webhookHandler.ts) and of the part of
    the mobile client that writes approval responses (services/firebase.ts,
    screens/ApprovalScreen.tsx), followed by the properties of the policy
    evaluator, of the approval life cycle and of the ingestion pipeline.

    Modelling choices, all of them visible in the definitions below.
    - A JavaScript [number] holding an amount of SOL or lamports is a value
      of an abstract type [num] with the operations the code applies to it
      (class [JsNumber]).  No law is assumed of them, so every theorem holds
      for IEEE-754 doubles as well as for exact rationals; the instance used
      to run the code on concrete inputs is [Q].
    - An ISO-8601 timestamp string written by [toISOString] is the time it
      denotes, in milliseconds ([Z]); [iso_text] gives its characters, and
      the query of the ledger compares these characters, as Firestore
      compares strings.  [toISOString] throws a RangeError outside the
      range of [Date]; the calendar is that of [Date], with the years 0
      to 99 of [Date.UTC] standing for 1900 to 1999.
    - A string is a sequence of bytes.  The upper-casing of
      [String.prototype] is an operation of an interface (class
      [JsString]) of which nothing is assumed; the instance used to run
      the code changes the letters of ASCII.
    - A Firestore collection is a finite map from document ids to
      documents; a query returns its documents in the order of their
      ids, and a query with a range condition on a field in the order of
      that field, then of the ids.
    - An asynchronous function is a computation in the monad [M]: it reads
      and writes the [World] (database, clock, id generator) and returns or
      throws.  Each call that leaves the process (Firestore, FCM) consumes
      one [Outcome] of the world's schedule, which says whether the call
      fails; writes made before a throw stay in the world.  One request
      is served at one instant: every [new Date()] in it reads the same
      clock.
    - Calls started together and awaited with [Promise.allSettled] are
      tasks, each waiting for one call; the order in which their calls
      complete is an argument of the handler, and every order is
      considered.
    - The payload of the webhook is untyped JSON: an element of the array
      is an event or [null], and an array of an event may be missing. *)

From Stdlib Require Import ZArith QArith Qabs Qround String Ascii List Bool Lia.
From stdpp Require Import gmap strings list fin_maps pretty.


Local Open Scope Z_scope.

(** ** JavaScript values *)

(** The operations of [number] used by the functions: literals, [+], [/],
    [>], [<], template-literal conversion and [toFixed]. *)
Class JsNumber (num : Type) := {
  nlit : Q -> num;
  nadd : num -> num -> num;
  ndiv : num -> num -> num;
  ngt : num -> num -> bool;
  nlt : num -> num -> bool;
  nshow : num -> string;
  ntoFixed : num -> nat -> string;
}.

(** [s.toUpperCase()].  A string is its sequence of bytes, and the
    upper-casing of [String.prototype] follows the tables of Unicode: it is
    an operation of which nothing is assumed.  The instance used to run the
    code on concrete inputs changes the letters of ASCII. *)
Class JsString := {
  toUpperCase : string -> string;
}.

(** [x ?? d] *)
Definition nullish {A} (x : option A) (d : A) : A :=
  match x with Some v => v | None => d end.

(** Truthiness of a string, and of a possibly undefined string. *)
Definition truthy_string (s : string) : bool :=
  match s with EmptyString => false | String _ _ => true end.

Definition truthy (x : option string) : bool :=
  match x with Some s => truthy_string s | None => false end.

(** [a || b] on strings. *)
Definition or_else (a b : string) : string :=
  if truthy_string a then a else b.

(** *** Rational numbers as an instance *)

Module QNumber.

(** [n] written with at least [d + 1] digits and a point before the last
    [d] of them. *)
Definition pad_left (n : nat) (s : string) : string :=
  String.concat "" (repeat "0" (n - String.length s)) +:+ s.

Definition fixed_digits (n : Z) (d : nat) : string :=
  let s := pad_left (S d) (pretty (Z.abs n)) in
  let k := (String.length s - d)%nat in
  let int_part := substring 0 k s in
  let frac_part := substring k d s in
  (if (n <? 0)%Z then "-" else "") +:+
  match d with O => int_part | _ => int_part +:+ "." +:+ frac_part end.

(** [x.toFixed(d)]: the integer [n] with [n / 10^d] nearest to [x], the
    larger one on a tie. *)
Definition toFixed (x : Q) (d : nat) : string :=
  let scaled := Qmult (Qabs x) (inject_Z (10 ^ Z.of_nat d)) in
  let n := Qfloor (Qplus scaled (1 # 2)) in
  fixed_digits (match Qcompare x 0 with Lt => - n | _ => n end) d.

(** The least [k <= fuel] with [x * 10^k] an integer. *)
Fixpoint decimals (fuel : nat) (k : nat) (x : Q) : option nat :=
  let y := Qred (Qmult x (inject_Z (10 ^ Z.of_nat k))) in
  if Pos.eqb (Qden y) 1 then Some k
  else match fuel with
       | O => None
       | S fuel' => decimals fuel' (S k) x
       end.

(** [String(x)] for a rational with a finite decimal expansion; the other
    rationals are not values of a double and are shown as a fraction. *)
Definition show (x : Q) : string :=
  match decimals 30 0 x with
  | Some k => toFixed x k
  | None => pretty (Qnum (Qred x)) +:+ "/" +:+ pretty (Zpos (Qden (Qred x)))
  end.

Definition gt (a b : Q) : bool :=
  match Qcompare a b with Gt => true | _ => false end.
Definition lt (a b : Q) : bool :=
  match Qcompare a b with Lt => true | _ => false end.

#[global] Instance Q_JsNumber : JsNumber Q := {|
  nlit := fun q => q;
  nadd := Qplus;
  ndiv := Qdiv;
  ngt := gt;
  nlt := lt;
  nshow := show;
  ntoFixed := toFixed;
|}.

End QNumber.

(** ** Documents of the Firestore collections *)

Inductive AgentStatus := active | paused | offline.
Inductive TransactionType :=
  transfer | swap | stake | program_interaction | unknown.
Inductive TransactionStatus := success | failed.
Inductive ApprovalStatus := pending | approved | denied | expired.

#[export] Instance TransactionStatus_eq_dec : EqDecision TransactionStatus.
Proof. solve_decision. Defined.
#[export] Instance ApprovalStatus_eq_dec : EqDecision ApprovalStatus.
Proof. solve_decision. Defined.
#[export] Instance TransactionType_eq_dec : EqDecision TransactionType.
Proof. solve_decision. Defined.

Module AppUser.
Record t := mk {
  id : string;
  agentIds : list string;
  notificationsEnabled : bool;
  fcmToken : option string;
}.
End AppUser.

Module Agent.
Record t := mk {
  id : string;
  name : string;
  walletAddress : string;
  description : string;
  status : AgentStatus;
  apiKeyHash : string;
  createdAt : Z;
  lastSeenAt : Z;
  ownerId : string;
}.
End Agent.

Module SpendingPolicy.
Record t {num : Type} := mk {
  id : string;
  agentId : string;
  dailyLimitSol : num;
  perTxLimitSol : num;
  allowlistedPrograms : list string;
  requireApprovalAbove : num;
  isActive : bool;
  updatedAt : Z;
}.
Arguments t : clear implicits.
End SpendingPolicy.

(** A document of [transactions]; [agentId] is set when the event matched
    an agent, [solAmount] and [fee] may be missing in documents written by
    the client. *)
Module AgentTransaction.
Record t {num : Type} := mk {
  id : string;
  agentId : option string;
  signature : string;
  type : TransactionType;
  description : string;
  timestamp : Z;
  status : TransactionStatus;
  fee : option num;
  from : string;
  to : string;
  solAmount : option num;
  tokenAmount : option num;
  tokenSymbol : option string;
  receivedAt : Z;
}.
Arguments t : clear implicits.
End AgentTransaction.

Module ApprovalRequest.
Record t {num : Type} := mk {
  id : string;
  agentId : string;
  agentName : string;
  description : string;
  status : ApprovalStatus;
  createdAt : Z;
  expiresAt : Z;
  respondedAt : option Z;
  txType : string;
  estimatedSolCost : num;
  targetProgram : option string;
  targetAddress : option string;
  amount : option num;
  tokenSymbol : option string;
  policyEvaluation : string;
}.
Arguments t : clear implicits.

(** [{ ...a, status: s }] and [{ ...a, status: s, respondedAt: r }] *)
Definition with_status {num} (s : ApprovalStatus) (a : t num) : t num :=
  mk num (id a) (agentId a) (agentName a) (description a) s (createdAt a)
     (expiresAt a) (respondedAt a) (txType a) (estimatedSolCost a)
     (targetProgram a) (targetAddress a) (amount a) (tokenSymbol a)
     (policyEvaluation a).

Definition with_response {num} (s : ApprovalStatus) (r : Z) (a : t num)
  : t num :=
  mk num (id a) (agentId a) (agentName a) (description a) s (createdAt a)
     (expiresAt a) (Some r) (txType a) (estimatedSolCost a)
     (targetProgram a) (targetAddress a) (amount a) (tokenSymbol a)
     (policyEvaluation a).
End ApprovalRequest.

(** ** The database and the world *)

Record Db {num : Type} := mkDb {
  users : gmap string AppUser.t;
  agents : gmap string Agent.t;
  policies : gmap string (SpendingPolicy.t num);
  transactions : gmap string (AgentTransaction.t num);
  approvals : gmap string (ApprovalRequest.t num);
}.
Arguments Db : clear implicits.
Arguments mkDb {num}.

(** The fate of one call to Firestore or FCM. *)
Inductive Outcome := Succeeds | Fails (code : string).

(** A message handed to FCM. *)
Record PushMessage := mkPush {
  push_token : string;
  push_title : string;
  push_body : string;
  push_data : list (string * string);
}.

Record World {num : Type} := mkWorld {
  db : Db num;
  clock : Z;                    (* the time read by [new Date()] *)
  outcomes : list Outcome;      (* of the calls to come; none left: success *)
  random : nat -> string;       (* the random strings that will be drawn *)
  drawn : nat;
  sent : list PushMessage;      (* delivered by FCM, oldest first *)
}.
Arguments World : clear implicits.
Arguments mkWorld {num}.

(** A thrown value: its [code] (or the name of the error). *)
Inductive Res (A : Type) := Return (a : A) | Throw (code : string).
Arguments Return {A}.
Arguments Throw {A}.

Definition M (num A : Type) : Type := World num -> Res A * World num.

Section Monad.
Context {num : Type}.

Definition ret {A} (a : A) : M num A := fun w => (Return a, w).

Definition bind {A B} (m : M num A) (k : A -> M num B) : M num B :=
  fun w => match m w with
           | (Return a, w') => k a w'
           | (Throw e, w') => (Throw e, w')
           end.

Definition throw {A} (e : string) : M num A := fun w => (Throw e, w).

(** [try { m } catch (err) { h err }] *)
Definition try_catch {A} (m : M num A) (h : string -> M num A) : M num A :=
  fun w => match m w with
           | (Return a, w') => (Return a, w')
           | (Throw e, w') => h e w'
           end.

Definition get_db : M num (Db num) := fun w => (Return (db w), w).

Definition put_db (d : Db num) : M num unit :=
  fun w => (Return tt,
            mkWorld d (clock w) (outcomes w) (random w) (drawn w) (sent w)).

(** [new Date()]: the current time, always a valid date. *)
Definition new_Date : M num Z := fun w => (Return (clock w), w).

(** The next random string: the automatic id of [collection.doc()] (the
    store is not contacted) or the hex digits of [crypto.randomBytes]. *)
Definition draw_random : M num string :=
  fun w => (Return (random w (drawn w)),
            mkWorld (db w) (clock w) (outcomes w) (random w) (S (drawn w))
                    (sent w)).

(** One call that leaves the process. *)
Definition external_call : M num unit :=
  fun w => match outcomes w with
           | [] => (Return tt, w)
           | Succeeds :: rest =>
               (Return tt,
                mkWorld (db w) (clock w) rest (random w) (drawn w) (sent w))
           | Fails code :: rest =>
               (Throw code,
                mkWorld (db w) (clock w) rest (random w) (drawn w) (sent w))
           end.

(** [admin.messaging().send(msg)] *)
Definition messaging_send (msg : PushMessage) : M num unit :=
  bind external_call (fun _ w =>
    (Return tt,
     mkWorld (db w) (clock w) (outcomes w) (random w) (drawn w)
             (sent w ++ [msg]))).
End Monad.

Notation "x <- m ;; k" := (bind m (fun x => k))
  (at level 20, m at level 99, k at level 200, right associativity,
   format "'[v' x  <-  m  ;;  '/' k ']'").
Notation "m ;; k" := (bind m (fun _ => k))
  (at level 100, k at level 200, right associativity,
   format "'[v' m  ;;  '/' k ']'").

(** ** Dates *)

(** The range of [Date]: 8.64e15 milliseconds on either side of the epoch. *)
Definition max_time : Z := 8640000000000000.

Definition valid_time (t : Z) : bool :=
  (- max_time <=? t) && (t <=? max_time).

(** [d.toISOString()], as the time value of the string returned. *)
Definition toISOString {num} (t : Z) : M num Z :=
  if valid_time t then ret t else throw "RangeError".

Definition ms_per_day : Z := 86400000.

(** The date (year, month from 1, day of the month) of a day counted from
    1970-01-01, in the proleptic Gregorian calendar of [Date], and the day
    of a date. *)
Definition civil_from_days (z : Z) : Z * Z * Z :=
  let z := z + 719468 in
  let era := z / 146097 in
  let doe := z mod 146097 in
  let yoe := (doe - doe / 1460 + doe / 36524 - doe / 146096) / 365 in
  let doy := doe - (365 * yoe + yoe / 4 - yoe / 100) in
  let mp := (5 * doy + 2) / 153 in
  let d := doy - (153 * mp + 2) / 5 + 1 in
  let m := if mp <? 10 then mp + 3 else mp - 9 in
  let y := yoe + era * 400 + (if m <=? 2 then 1 else 0) in
  (y, m, d).

Definition days_from_civil (y m d : Z) : Z :=
  let y := if m <=? 2 then y - 1 else y in
  let era := y / 400 in
  let yoe := y mod 400 in
  let mp := if 2 <? m then m - 3 else m + 9 in
  let doy := (153 * mp + 2) / 5 + d - 1 in
  let doe := yoe * 365 + yoe / 4 - yoe / 100 + doy in
  era * 146097 + doe - 719468.

(** [d.getUTCFullYear()], [d.getUTCMonth()] (from 0) and [d.getUTCDate()]. *)
Definition getUTCFullYear (t : Z) : Z :=
  fst (fst (civil_from_days (t / ms_per_day))).

Definition getUTCMonth (t : Z) : Z :=
  snd (fst (civil_from_days (t / ms_per_day))) - 1.

Definition getUTCDate (t : Z) : Z :=
  snd (civil_from_days (t / ms_per_day)).

(** [Date.UTC(year, month, date)], for a month from 0 to 11 and a day of
    that month: a year from 0 to 99 stands for 1900 + year. *)
Definition Date_UTC (year month date : Z) : Z :=
  let year := if (0 <=? year) && (year <=? 99) then 1900 + year else year in
  days_from_civil year (month + 1) date * ms_per_day.

(** [new Date(Date.UTC(now.getUTCFullYear(), now.getUTCMonth(),
    now.getUTCDate()))] *)
Definition start_of_utc_day (now : Z) : Z :=
  Date_UTC (getUTCFullYear now) (getUTCMonth now) (getUTCDate now).

(** The characters of the string that [toISOString] returns for the time
    [t]: [YYYY-MM-DDTHH:mm:ss.sssZ], the year with four digits from 0000
    to 9999 and with a sign and six digits outside. *)
Definition digit (n : Z) : ascii := ascii_of_N (48 + Z.to_N n).

Fixpoint digits (width : nat) (n : Z) : string :=
  match width with
  | O => EmptyString
  | S k => digits k (n / 10) +:+ String (digit (n mod 10)) EmptyString
  end.

Definition iso_year (y : Z) : string :=
  if (0 <=? y) && (y <=? 9999) then digits 4 y
  else if y <? 0 then "-" +:+ digits 6 (- y)
  else "+" +:+ digits 6 y.

Definition iso_text (t : Z) : string :=
  let '(y, m, d) := civil_from_days (t / ms_per_day) in
  let ms := t mod ms_per_day in
  iso_year y +:+ "-" +:+ digits 2 m +:+ "-" +:+ digits 2 d +:+ "T" +:+
  digits 2 (ms / 3600000) +:+ ":" +:+ digits 2 (ms / 60000 mod 60) +:+
  ":" +:+ digits 2 (ms / 1000 mod 60) +:+ "." +:+ digits 3 (ms mod 1000) +:+
  "Z".

(** ** Firestore reads *)

(** The order of Firestore on strings, that of their bytes. *)
Definition string_le (a b : string) : bool := String.leb a b.

(** A stable sort. *)
Fixpoint insert_by {A} (le : A -> A -> bool) (x : A) (l : list A) : list A :=
  match l with
  | [] => [x]
  | y :: rest => if le x y then x :: l else y :: insert_by le x rest
  end.

Definition sort_by {A} (le : A -> A -> bool) (l : list A) : list A :=
  fold_right (insert_by le) [] l.

(** The documents of a collection as a query returns them, in the order of
    their ids, and [.where(...)] on them. *)
Definition docs {D} (c : gmap string D) : list (string * D) :=
  sort_by (fun a b => string_le (fst a) (fst b)) (map_to_list c).

Definition where_ {D} (f : D -> bool) (snap : list (string * D))
  : list (string * D) :=
  List.filter (fun d => f (snd d)) snap.

(** [.limit(n)] *)
Definition limit {D} (n : nat) (snap : list (string * D)) : list (string * D) :=
  firstn n snap.

(** The order of a query with a range condition on a string field: by that
    field, then by id. *)
Definition order_by {D} (field : D -> string) (snap : list (string * D))
  : list (string * D) :=
  sort_by (fun a b => string_le (field (snd a)) (field (snd b))) snap.

(** [a.includes(x)] *)
Definition includes (x : string) (a : list string) : bool :=
  existsb (String.eqb x) a.

(** ** policyEngine.ts *)

Record PolicyEvaluation := mkEval {
  autoApproved : bool;
  reason : string;
}.

Section PolicyEngine.
Context {num : Type} `{JsNumber num}.

(** The active policy of the agent, [None] for [null].  The object
    returned is [{ id: doc.id, ...doc.data() }]; the document carries its
    own [id] field, which the spread keeps. *)
Definition loadPolicy (agentId : string)
  : M num (option (SpendingPolicy.t num)) :=
  external_call ;;
  d <- get_db ;;
  let snap :=
    limit 1
      (where_ (fun p => Bool.eqb (SpendingPolicy.isActive p) true)
         (where_ (fun p => String.eqb (SpendingPolicy.agentId p) agentId)
            (docs (policies d)))) in
  match snap with
  | [] => ret None
  | doc :: _ => ret (Some (snd doc))
  end.

(** What one document adds to the total:
    [(data.solAmount ?? 0) + (data.fee ?? 0)]. *)
Definition spent_by (data : AgentTransaction.t num) : num :=
  nadd (nullish (AgentTransaction.solAmount data) (nlit 0))
       (nullish (AgentTransaction.fee data) (nlit 0)).

(** The [timestamp] of a stored record is the time of its ISO string; the
    query compares the strings. *)
Definition getDailySpending (agentId : string) : M num num :=
  now <- new_Date ;;
  let startOfDay := start_of_utc_day now in
  external_call ;;
  d <- get_db ;;
  let snap :=
    order_by (fun t => iso_text (AgentTransaction.timestamp t))
      (where_ (fun t => string_le (iso_text startOfDay)
                          (iso_text (AgentTransaction.timestamp t)))
         (where_ (fun t => bool_decide (AgentTransaction.status t = success))
            (where_ (fun t => bool_decide
                                (AgentTransaction.agentId t = Some agentId))
               (docs (transactions d))))) in
  ret (fold_left (fun total doc => nadd total (spent_by (snd doc)))
         snap (nlit 0)).

Definition no_policy_reason : string :=
  "No active spending policy found. Human approval required.".

Definition per_tx_reason (txAmount perTxLimit : num) : string :=
  "Transaction amount " +:+ nshow txAmount +:+
  " SOL exceeds per-tx limit of " +:+ nshow perTxLimit +:+ " SOL.".

Definition daily_reason (projected dailyLimit : num) : string :=
  "Daily spending would reach " +:+ ntoFixed projected 4 +:+
  " SOL, exceeding daily limit of " +:+ nshow dailyLimit +:+ " SOL.".

Definition allowlist_reason (programId : string) : string :=
  "Program " +:+ programId +:+ " is not in the allowlisted programs.".

Definition threshold_reason (txAmount threshold : num) : string :=
  "Transaction amount " +:+ nshow txAmount +:+
  " SOL exceeds approval threshold of " +:+ nshow threshold +:+ " SOL.".

Definition within_reason : string :=
  "Transaction within policy limits. Auto-approved.".

(** [programId && allowlist.length > 0 && !allowlist.includes(programId)] *)
Definition not_allowlisted (programId : option string)
    (allowlist : list string) : bool :=
  truthy programId &&
  (0 <? length allowlist)%nat &&
  negb (includes (nullish programId "") allowlist).

Definition evaluateTransaction (agentId : string) (txAmount : num)
    (programId : option string) : M num PolicyEvaluation :=
  policy <- loadPolicy agentId ;;
  match policy with
  | None => ret (mkEval false no_policy_reason)
  | Some policy =>
      if ngt txAmount (SpendingPolicy.perTxLimitSol policy) then
        ret (mkEval false
               (per_tx_reason txAmount (SpendingPolicy.perTxLimitSol policy)))
      else
        dailySpent <- getDailySpending agentId ;;
        if ngt (nadd dailySpent txAmount)
               (SpendingPolicy.dailyLimitSol policy) then
          ret (mkEval false
                 (daily_reason (nadd dailySpent txAmount)
                    (SpendingPolicy.dailyLimitSol policy)))
        else if not_allowlisted programId
                  (SpendingPolicy.allowlistedPrograms policy) then
          ret (mkEval false (allowlist_reason (nullish programId "")))
        else if ngt txAmount (SpendingPolicy.requireApprovalAbove policy) then
          ret (mkEval false
                 (threshold_reason txAmount
                    (SpendingPolicy.requireApprovalAbove policy)))
        else
          ret (mkEval true within_reason)
  end.
End PolicyEngine.

(** ** Firestore writes *)

Section Writes.
Context {num : Type}.

Definition set_users (m : gmap string AppUser.t) (d : Db num) : Db num :=
  mkDb m (agents d) (policies d) (transactions d) (approvals d).
Definition set_agents (m : gmap string Agent.t) (d : Db num) : Db num :=
  mkDb (users d) m (policies d) (transactions d) (approvals d).
Definition set_policies (m : gmap string (SpendingPolicy.t num)) (d : Db num)
  : Db num :=
  mkDb (users d) (agents d) m (transactions d) (approvals d).
Definition set_transactions (m : gmap string (AgentTransaction.t num))
    (d : Db num) : Db num :=
  mkDb (users d) (agents d) (policies d) m (approvals d).
Definition set_approvals (m : gmap string (ApprovalRequest.t num))
    (d : Db num) : Db num :=
  mkDb (users d) (agents d) (policies d) (transactions d) m.

(** [ref.set(data)] on [approvals]. *)
Definition set_approval (id : string) (data : ApprovalRequest.t num)
  : M num unit :=
  external_call ;;
  d <- get_db ;;
  put_db (set_approvals (<[id := data]> (approvals d)) d).

(** [ref.update(fields)] on [approvals]: fails when the document does not
    exist. *)
Definition update_approval (id : string)
    (f : ApprovalRequest.t num -> ApprovalRequest.t num) : M num unit :=
  external_call ;;
  d <- get_db ;;
  match approvals d !! id with
  | None => throw "not-found"
  | Some a => put_db (set_approvals (<[id := f a]> (approvals d)) d)
  end.

(** [ref.update(fields)] on [users]. *)
Definition update_user (id : string) (f : AppUser.t -> AppUser.t)
  : M num unit :=
  external_call ;;
  d <- get_db ;;
  match users d !! id with
  | None => throw "not-found"
  | Some u => put_db (set_users (<[id := f u]> (users d)) d)
  end.

(** The writes a [WriteBatch] can stage in these functions. *)
Inductive Write :=
| SetAgent (id : string) (data : Agent.t)
| SetPolicy (id : string) (data : SpendingPolicy.t num)
| SetTransaction (id : string) (data : AgentTransaction.t num)
| UpdateAgentLastSeen (id : string) (lastSeenAt : Z)
| UpdateUserAgentIdsUnion (id : string) (agentId : string).

(** [FieldValue.arrayUnion(x)] *)
Definition arrayUnion (x : string) (a : list string) : list string :=
  if includes x a then a else a ++ [x].

Definition touch_agent (lastSeenAt : Z) (a : Agent.t) : Agent.t :=
  Agent.mk (Agent.id a) (Agent.name a) (Agent.walletAddress a)
    (Agent.description a) (Agent.status a) (Agent.apiKeyHash a)
    (Agent.createdAt a) lastSeenAt (Agent.ownerId a).

Definition add_agent_id (agentId : string) (u : AppUser.t) : AppUser.t :=
  AppUser.mk (AppUser.id u) (arrayUnion agentId (AppUser.agentIds u))
    (AppUser.notificationsEnabled u) (AppUser.fcmToken u).

(** [{ fcmToken: FieldValue.delete() }] *)
Definition delete_fcmToken (u : AppUser.t) : AppUser.t :=
  AppUser.mk (AppUser.id u) (AppUser.agentIds u)
    (AppUser.notificationsEnabled u) None.

(** One staged write; [None] when an update finds no document. *)
Definition apply_write (d : Db num) (wr : Write) : option (Db num) :=
  match wr with
  | SetAgent id data => Some (set_agents (<[id := data]> (agents d)) d)
  | SetPolicy id data => Some (set_policies (<[id := data]> (policies d)) d)
  | SetTransaction id data =>
      Some (set_transactions (<[id := data]> (transactions d)) d)
  | UpdateAgentLastSeen id t =>
      match agents d !! id with
      | Some a => Some (set_agents (<[id := touch_agent t a]> (agents d)) d)
      | None => None
      end
  | UpdateUserAgentIdsUnion id agentId =>
      match users d !! id with
      | Some u =>
          Some (set_users (<[id := add_agent_id agentId u]> (users d)) d)
      | None => None
      end
  end.

Fixpoint apply_writes (d : Db num) (batch : list Write) : option (Db num) :=
  match batch with
  | [] => Some d
  | wr :: rest =>
      match apply_write d wr with
      | Some d' => apply_writes d' rest
      | None => None
      end
  end.

(** [batch.commit()]: all the staged writes, in order, or none of them. *)
Definition commit (batch : list Write) : M num unit :=
  external_call ;;
  d <- get_db ;;
  match apply_writes d batch with
  | Some d' => put_db d'
  | None => throw "not-found"
  end.
End Writes.
Arguments Write : clear implicits.

(** ** approvalApi.ts *)

Inductive Body :=
| ErrorBody (error : string)
| RegisteredBody (agentId apiKey message : string)
| ApprovalCreatedBody (approvalId : string) (status : ApprovalStatus)
    (autoApproved : bool) (reason : string)
    (* [respondedAt]: [None] when the key is absent, [Some None] for null *)
| ApprovalStatusBody (approvalId : string) (status : ApprovalStatus)
    (createdAt expiresAt : Z) (respondedAt : option (option Z))
| WebhookBody (success : bool) (processed : nat).

Record Response := mkResponse {
  http_status : Z;
  body : Body;
}.

Record RegisterBody := mkRegisterBody {
  reg_name : option string;
  reg_walletAddress : option string;
  reg_description : option string;
  reg_ownerId : option string;
}.

Record ApprovalRequestBody {num : Type} := mkApprovalRequestBody {
  req_description : option string;
  req_txType : option string;
  req_estimatedSolCost : option num;
  req_targetProgram : option string;
  req_targetAddress : option string;
  req_amount : option num;
  req_tokenSymbol : option string;
  req_expiresInMinutes : option Z;     (* a whole number of minutes *)
}.
Arguments ApprovalRequestBody : clear implicits.
Arguments mkApprovalRequestBody {num}.

(** [/^[1-9A-HJ-NP-Za-km-z]{32,44}$/.test(s)] *)
Definition in_range (lo hi : string) (c : ascii) : bool :=
  match lo, hi with
  | String l _, String h _ =>
      (nat_of_ascii l <=? nat_of_ascii c)%nat &&
      (nat_of_ascii c <=? nat_of_ascii h)%nat
  | _, _ => false
  end.

Definition is_base58 (c : ascii) : bool :=
  in_range "1" "9" c || in_range "A" "H" c || in_range "J" "N" c ||
  in_range "P" "Z" c || in_range "a" "k" c || in_range "m" "z" c.

Definition valid_wallet_address (s : string) : bool :=
  (32 <=? String.length s)%nat && (String.length s <=? 44)%nat &&
  forallb is_base58 (list_ascii_of_string s).

(** [x ? Some x : undefined] for the spread [...(x && { key: x })]. *)
Definition if_truthy (x : option string) : option string :=
  if truthy x then x else None.

Section ApprovalApi.
Context {num : Type} `{JsNumber num}.

(** [crypto.createHash("sha256").update(key).digest("hex")] *)
Variable hashApiKey : string -> string.

(** [crypto.randomBytes(32).toString("hex")] *)
Definition generateApiKey : M num string := draw_random.

Definition stale_token (code : string) : bool :=
  String.eqb code "messaging/registration-token-not-registered" ||
  String.eqb code "messaging/invalid-registration-token".

Definition sendPushToOwner (ownerId title body : string)
    (data : list (string * string)) : M num unit :=
  external_call ;;
  d <- get_db ;;
  match users d !! ownerId with
  | None => ret tt
  | Some user =>
      if negb (truthy (AppUser.fcmToken user)) ||
         negb (AppUser.notificationsEnabled user)
      then ret tt
      else
        try_catch
          (messaging_send
             (mkPush (nullish (AppUser.fcmToken user) "") title body data))
          (fun code =>
             (if stale_token code
              then update_user ownerId delete_fcmToken
              else ret tt) ;;
             ret tt)
  end.

Definition internal_error : Response :=
  mkResponse 500 (ErrorBody "Internal server error").

Definition registerAgent (body : RegisterBody) : M num Response :=
  try_catch
    (if negb (truthy (reg_name body)) ||
        negb (truthy (reg_walletAddress body)) ||
        negb (truthy (reg_ownerId body))
     then ret (mkResponse 400
                 (ErrorBody
                    "Missing required fields: name, walletAddress, ownerId"))
     else
       let name := nullish (reg_name body) "" in
       let walletAddress := nullish (reg_walletAddress body) "" in
       let ownerId := nullish (reg_ownerId body) "" in
       if negb (valid_wallet_address walletAddress)
       then ret (mkResponse 400
                   (ErrorBody "Invalid Solana wallet address format"))
       else
         external_call ;;
         d <- get_db ;;
         match users d !! ownerId with
         | None => ret (mkResponse 404 (ErrorBody "Owner user not found"))
         | Some _ =>
             apiKey <- generateApiKey ;;
             let apiKeyHash := hashApiKey apiKey in
             now <- new_Date ;;
             agentRef <- draw_random ;;
             let agentData :=
               Agent.mk agentRef name walletAddress
                 (nullish (reg_description body) "") active apiKeyHash
                 now now ownerId in
             policyRef <- draw_random ;;
             let defaultPolicy :=
               SpendingPolicy.mk num policyRef agentRef (nlit 1)
                 (nlit (5 # 10)) [] (nlit (1 # 10)) true now in
             commit [SetAgent agentRef agentData;
                     SetPolicy policyRef defaultPolicy;
                     UpdateUserAgentIdsUnion ownerId agentRef] ;;
             ret (mkResponse 201
                    (RegisteredBody agentRef apiKey
                       "Store this API key securely. It will not be shown again."))
         end)
    (fun _ => ret internal_error).

(** The handler of [POST /api/approvals/request], after
    [authenticateAgent] has put the caller's document in [res.locals]. *)
Definition requestApproval (agent : Agent.t)
    (body : ApprovalRequestBody num) : M num Response :=
  try_catch
    (match req_estimatedSolCost body with
     | Some estimatedSolCost =>
         if negb (truthy (req_description body)) ||
            negb (truthy (req_txType body))
         then ret (mkResponse 400
                     (ErrorBody
                        "Missing required fields: description, txType, estimatedSolCost"))
         else if nlt estimatedSolCost (nlit 0)
         then ret (mkResponse 400
                     (ErrorBody "estimatedSolCost must be non-negative"))
         else
           let description := nullish (req_description body) "" in
           evaluation <- evaluateTransaction (Agent.id agent)
                           estimatedSolCost (req_targetProgram body) ;;
           now <- new_Date ;;
           let expiresInMs :=
             nullish (req_expiresInMinutes body) 15 * 60 * 1000 in
           let expiresAt := now + expiresInMs in
           approvalRef <- draw_random ;;
           expiresAtIso <- toISOString expiresAt ;;
           let approvalData :=
             ApprovalRequest.mk num approvalRef (Agent.id agent)
               (Agent.name agent) description
               (if autoApproved evaluation then approved else pending)
               now expiresAtIso
               (if autoApproved evaluation then Some now else None)
               (nullish (req_txType body) "") estimatedSolCost
               (if_truthy (req_targetProgram body))
               (if_truthy (req_targetAddress body))
               (req_amount body)
               (if_truthy (req_tokenSymbol body))
               (reason evaluation) in
           set_approval approvalRef approvalData ;;
           (if negb (autoApproved evaluation)
            then sendPushToOwner (Agent.ownerId agent)
                   ("Approval Required: " +:+ Agent.name agent)
                   (description +:+ " (" +:+ nshow estimatedSolCost +:+
                    " SOL)")
                   [("approvalId", approvalRef);
                    ("agentId", Agent.id agent);
                    ("type", "approval_request")]
            else ret tt) ;;
           ret (mkResponse 201
                  (ApprovalCreatedBody approvalRef
                     (ApprovalRequest.status approvalData)
                     (autoApproved evaluation) (reason evaluation)))
     | None =>
         ret (mkResponse 400
                (ErrorBody
                   "Missing required fields: description, txType, estimatedSolCost"))
     end)
    (fun _ => ret internal_error).

(** The handler of [GET /api/approvals/:id/status] for the authenticated
    agent [agentId]. *)
Definition getApprovalStatus (agentId approvalId : string)
  : M num Response :=
  try_catch
    (external_call ;;
     d <- get_db ;;
     match approvals d !! approvalId with
     | None => ret (mkResponse 404 (ErrorBody "Approval request not found"))
     | Some data =>
         if negb (String.eqb (ApprovalRequest.agentId data) agentId)
         then ret (mkResponse 403
                     (ErrorBody "Not authorized to view this approval"))
         else
           now <- new_Date ;;
           if bool_decide (ApprovalRequest.status data = pending) &&
              (ApprovalRequest.expiresAt data <? now)
           then
             update_approval approvalId (ApprovalRequest.with_status expired) ;;
             ret (mkResponse 200
                    (ApprovalStatusBody approvalId expired
                       (ApprovalRequest.createdAt data)
                       (ApprovalRequest.expiresAt data) None))
           else
             ret (mkResponse 200
                    (ApprovalStatusBody approvalId
                       (ApprovalRequest.status data)
                       (ApprovalRequest.createdAt data)
                       (ApprovalRequest.expiresAt data)
                       (Some (ApprovalRequest.respondedAt data))))
     end)
    (fun _ => ret internal_error).
End ApprovalApi.

(** ** The mobile client: services/firebase.ts and ApprovalScreen.tsx *)

(** The argument type ['approved' | 'denied'] of [respondToApproval]. *)
Inductive HumanResponse := respond_approved | respond_denied.

Definition status_of_response (r : HumanResponse) : ApprovalStatus :=
  match r with respond_approved => approved | respond_denied => denied end.

Inductive Alert := alert_approved | alert_denied | alert_error.

Section Client.
Context {num : Type}.

Definition respondToApproval (approvalId : string) (status : HumanResponse)
  : M num unit :=
  now <- new_Date ;;
  update_approval approvalId
    (ApprovalRequest.with_response (status_of_response status) now).

(** [updateApproval] of the client's store, on its [pendingApprovals]. *)
Definition updateApproval (approvalId : string) (status : ApprovalStatus)
    (now : Z) (pendingApprovals : list (ApprovalRequest.t num))
  : list (ApprovalRequest.t num) :=
  map (fun a => if String.eqb (ApprovalRequest.id a) approvalId
                then ApprovalRequest.with_response status now a
                else a)
      pendingApprovals.

Definition respond_handler (status : HumanResponse) (shown : Alert)
    (pendingApprovals : list (ApprovalRequest.t num)) (approvalId : string)
  : M num (Alert * list (ApprovalRequest.t num)) :=
  try_catch
    (let isDemo := String.prefix "demo_" approvalId in
     (if negb isDemo then respondToApproval approvalId status else ret tt) ;;
     now <- new_Date ;;
     ret (shown,
          updateApproval approvalId (status_of_response status) now
            pendingApprovals))
    (fun _ => ret (alert_error, pendingApprovals)).

Definition handleApprove := respond_handler respond_approved alert_approved.
Definition handleDeny := respond_handler respond_denied alert_denied.
End Client.

(** ** webhookHandler.ts *)

(** The upper-casing of the letters of ASCII, which is that of
    [String.prototype.toUpperCase] on the strings of ASCII. *)
Module AsciiString.
Definition upper_ascii (c : ascii) : ascii :=
  if in_range "a" "z" c then ascii_of_nat (nat_of_ascii c - 32) else c.

Fixpoint upper (s : string) : string :=
  match s with
  | EmptyString => EmptyString
  | String c rest => String (upper_ascii c) (upper rest)
  end.

#[global] Instance Ascii_JsString : JsString := {|
  toUpperCase := upper;
|}.
End AsciiString.

Definition mapHeliusType `{JsString} (heliusType : string) : TransactionType :=
  let normalized := toUpperCase heliusType in
  if String.eqb normalized "TRANSFER" then transfer
  else if String.eqb normalized "TOKEN_TRANSFER" then transfer
  else if String.eqb normalized "SWAP" then swap
  else if String.eqb normalized "STAKE_SOL" then stake
  else if String.eqb normalized "STAKE_TOKEN" then stake
  else if String.eqb normalized "UNKNOWN" then unknown
  else program_interaction.

Module HeliusNativeTransfer.
Record t {num : Type} := mk {
  fromUserAccount : string;
  toUserAccount : string;
  amount : num;                       (* in lamports *)
}.
Arguments t : clear implicits.
End HeliusNativeTransfer.

Module HeliusTokenTransfer.
Record t {num : Type} := mk {
  fromUserAccount : string;
  toUserAccount : string;
  tokenAmount : num;
  mint : string;
}.
Arguments t : clear implicits.
End HeliusTokenTransfer.

(** An event of the payload.  The payload is untyped JSON: the two arrays
    may be missing ([None]), and reading their [length] then throws. *)
Module HeliusEnhancedTransaction.
Record t {num : Type} := mk {
  signature : string;
  description : string;
  type : string;
  fee : num;                          (* in lamports *)
  feePayer : string;
  timestamp : Z;                      (* unix seconds *)
  nativeTransfers : option (list (HeliusNativeTransfer.t num));
  tokenTransfers : option (list (HeliusTokenTransfer.t num));
  transactionError : option string;
}.
Arguments t : clear implicits.
End HeliusEnhancedTransaction.

(** A value of the [agentNotifications] map. *)
Record NotificationInfo := mkInfo {
  info_agentName : string;
  info_ownerId : string;
  info_txCount : nat;
}.

(** The state of one call of [sendPushToOwner] that runs beside others: the
    call it is waiting for, or [Settled] once its promise is fulfilled or
    rejected. *)
Inductive PushTask :=
| AwaitUser (ownerId title body : string) (data : list (string * string))
| AwaitSend (ownerId : string) (msg : PushMessage)
| AwaitUpdate (ownerId : string)
| Settled.

Section Webhook.
Context {num : Type} `{JsNumber num} `{JsString}.

Abbreviation Tx := (HeliusEnhancedTransaction.t num).

(** [x.length] of a possibly missing array. *)
Definition array_of {A} (x : option (list A)) : M num (list A) :=
  match x with
  | Some a => ret a
  | None => throw "TypeError"
  end.

(** [existing ? existing.txCount += 1 : map.set(agentId, info)] on a map
    that keeps insertion order. *)
Fixpoint tally (agentId : string) (info : NotificationInfo)
    (m : list (string * NotificationInfo)) : list (string * NotificationInfo) :=
  match m with
  | [] => [(agentId, info)]
  | (k, existing) :: rest =>
      if String.eqb k agentId
      then (k, mkInfo (info_agentName existing) (info_ownerId existing)
                 (info_txCount existing + 1)) :: rest
      else (k, existing) :: tally agentId info rest
  end.

(** The body of the [try] block for one event: the staged writes and the
    tallies after it.  [batch.update], the tally and [batch.set] come last
    and cannot throw, so a block that throws has staged nothing.  (The
    name of an agent document is a string here; the default of
    [agentData.name ?? "Unknown Agent"] is never taken.) *)
Definition process_transaction (tx : Tx)
    (batch : list (Write num)) (agentNotifications : list (string * NotificationInfo))
  : M num (list (Write num) * list (string * NotificationInfo)) :=
  let from := HeliusEnhancedTransaction.feePayer tx in
  nativeTransfers <- array_of (HeliusEnhancedTransaction.nativeTransfers tx) ;;
  let to_native :=
    match nativeTransfers with
    | primaryTransfer :: _ => HeliusNativeTransfer.toUserAccount primaryTransfer
    | [] => ""
    end in
  let solAmount :=
    match nativeTransfers with
    | primaryTransfer :: _ =>
        ndiv (HeliusNativeTransfer.amount primaryTransfer)
             (nlit (inject_Z 1000000000))
    | [] => nlit 0
    end in
  tokenTransfers <- array_of (HeliusEnhancedTransaction.tokenTransfers tx) ;;
  let to :=
    match tokenTransfers with
    | primaryTokenTx :: _ =>
        or_else to_native (HeliusTokenTransfer.toUserAccount primaryTokenTx)
    | [] => to_native
    end in
  let tokenAmount :=
    match tokenTransfers with
    | primaryTokenTx :: _ => Some (HeliusTokenTransfer.tokenAmount primaryTokenTx)
    | [] => None
    end in
  let tokenSymbol :=
    match tokenTransfers with
    | primaryTokenTx :: _ => Some (HeliusTokenTransfer.mint primaryTokenTx)
    | [] => None
    end in
  timestamp <- toISOString (HeliusEnhancedTransaction.timestamp tx * 1000) ;;
  now <- new_Date ;;
  let txDoc (id : string) (agentId : option string) :=
    AgentTransaction.mk num id agentId
      (HeliusEnhancedTransaction.signature tx)
      (mapHeliusType (HeliusEnhancedTransaction.type tx))
      (or_else (HeliusEnhancedTransaction.description tx)
         (HeliusEnhancedTransaction.type tx +:+ " transaction"))
      timestamp
      (if truthy (HeliusEnhancedTransaction.transactionError tx)
       then failed else success)
      (Some (ndiv (HeliusEnhancedTransaction.fee tx)
               (nlit (inject_Z 1000000000))))
      from to (Some solAmount) tokenAmount (if_truthy tokenSymbol) now in
  external_call ;;
  d <- get_db ;;
  let agentSnap :=
    limit 1 (where_ (fun a => includes (Agent.walletAddress a) [from; to])
               (docs (agents d))) in
  match agentSnap with
  | agentDoc :: _ =>
      let agentId := fst agentDoc in
      let agentData := snd agentDoc in
      let batch_seen := batch ++ [UpdateAgentLastSeen agentId now] in
      let tallied :=
        tally agentId
          (mkInfo (Agent.name agentData) (Agent.ownerId agentData) 1)
          agentNotifications in
      txRef <- draw_random ;;
      ret (batch_seen ++ [SetTransaction txRef (txDoc txRef (Some agentId))],
           tallied)
  | [] =>
      txRef <- draw_random ;;
      ret (batch ++ [SetTransaction txRef (txDoc txRef None)],
           agentNotifications)
  end.

(** [tx.feePayer] and [tx.signature] on an element of the payload: reading
    a property of [null] throws. *)
Definition property_of (element : option Tx) : M num Tx :=
  match element with
  | Some tx => ret tx
  | None => throw "TypeError"
  end.

(** The [for] loop over the elements of the payload, [None] for [null].
    An event whose block throws is logged with its signature and leaves
    the batch and the tallies as they were. *)
Fixpoint process_all (transactions : list (option Tx))
    (batch : list (Write num)) (agentNotifications : list (string * NotificationInfo))
  : M num (list (Write num) * list (string * NotificationInfo)) :=
  match transactions with
  | [] => ret (batch, agentNotifications)
  | element :: rest =>
      r <- try_catch
             (tx <- property_of element ;;
              process_transaction tx batch agentNotifications)
             (fun _ =>
                property_of element ;;
                ret (batch, agentNotifications)) ;;
      process_all rest (fst r) (snd r)
  end.

Definition notification_body (txCount : nat) : string :=
  if (txCount =? 1)%nat then "New transaction detected"
  else pretty txCount +:+ " new transactions detected".

(** The calls of [sendPushToOwner] made by the second loop, one per tallied
    agent in the order of the map: each runs to its first [await], the
    read of the owner's user document.  webhookHandler.ts has its own copy
    of [sendPushToOwner], the same function as that of approvalApi.ts. *)
Definition start_pushes (agentNotifications : list (string * NotificationInfo))
  : list PushTask :=
  map (fun entry =>
         AwaitUser (info_ownerId (snd entry))
           (info_agentName (snd entry) +:+ " Activity")
           (notification_body (info_txCount (snd entry)))
           [("agentId", fst entry)])
      agentNotifications.

(** One call of [sendPushToOwner] resumed when the call it is waiting for
    completes: it runs to its next [await] or to its end.  A rejection
    settles it. *)
Definition step_push (task : PushTask) : M num PushTask :=
  match task with
  | AwaitUser ownerId title body data =>
      try_catch
        (external_call ;;
         d <- get_db ;;
         match users d !! ownerId with
         | None => ret Settled
         | Some user =>
             if negb (truthy (AppUser.fcmToken user)) ||
                negb (AppUser.notificationsEnabled user)
             then ret Settled
             else ret (AwaitSend ownerId
                         (mkPush (nullish (AppUser.fcmToken user) "")
                            title body data))
         end)
        (fun _ => ret Settled)
  | AwaitSend ownerId msg =>
      try_catch
        (messaging_send msg ;; ret Settled)
        (fun code =>
           if stale_token code then ret (AwaitUpdate ownerId) else ret Settled)
  | AwaitUpdate ownerId =>
      try_catch
        (update_user ownerId delete_fcmToken ;; ret Settled)
        (fun _ => ret Settled)
  | Settled => ret Settled
  end.

(** The calls complete in the order [order] names them, by their place in
    the list of promises. *)
Fixpoint run_pushes (order : list nat) (tasks : list PushTask)
  : M num (list PushTask) :=
  match order with
  | [] => ret tasks
  | i :: rest =>
      match tasks !! i with
      | Some task =>
          task' <- step_push task ;;
          run_pushes rest (<[i := task']> tasks)
      | None => run_pushes rest tasks
      end
  end.

(** A call runs to its end in three steps at most: the order in which
    the calls still in flight complete when nothing else is said. *)
Definition settle_order (n : nat) : list nat :=
  flat_map (fun i => [i; i; i]) (seq 0 n).

(** [await Promise.allSettled(notificationPromises)]: the calls in flight
    complete in an order that the handler does not choose, first as
    [order] says and then one task after the other; every promise
    settles, and a rejected one is ignored. *)
Definition allSettled (order : list nat) (tasks : list PushTask) : M num unit :=
  run_pushes (order ++ settle_order (length tasks)) tasks ;;
  ret tt.

(** [payload] is [None] when the request body is not an array; [order] is
    the order in which the calls of the notifications complete. *)
Definition onHeliusWebhook (order : list nat) (method : string)
    (payload : option (list (option Tx))) : M num Response :=
  if negb (String.eqb method "POST")
  then ret (mkResponse 405 (ErrorBody "Method not allowed"))
  else
    match payload with
    | None => ret (mkResponse 400 (ErrorBody "Expected array of transactions"))
    | Some transactions =>
        r <- process_all transactions [] [] ;;
        commit (fst r) ;;
        allSettled order (start_pushes (snd r)) ;;
        ret (mkResponse 200 (WebhookBody true (length transactions)))
    end.
End Webhook.

(** * Specification

    The notions the properties are stated with. *)

(** ** Running a computation *)

(** The world after one external call, and the code with which that call
    fails, if it does. *)
Definition after_call {num} (w : World num) : World num :=
  mkWorld (db w) (clock w) (tl (outcomes w)) (random w) (drawn w) (sent w).

Definition call_fails {num} (w : World num) : option string :=
  match outcomes w with
  | Fails code :: _ => Some code
  | _ => None
  end.

(** The next [n] external calls succeed. *)
Fixpoint calls_succeed (n : nat) (l : list Outcome) : bool :=
  match n, l with
  | O, _ => true
  | S _, [] => true
  | S n', Succeeds :: rest => calls_succeed n' rest
  | S _, Fails _ :: _ => false
  end.

(** The same world at another time, with another schedule of failures. *)
Definition at_time {num} (now : Z) (schedule : list Outcome) (w : World num)
  : World num :=
  mkWorld (db w) now schedule (random w) (drawn w) (sent w).

(** Unfolds the monadic operators in the goal. *)
Ltac run_M :=
  unfold bind, ret, throw, try_catch, get_db, put_db, new_Date, draw_random;
  simpl.

(** ** The policy evaluator *)

(** The checks of the evaluator, in their fixed order. *)
Inductive Check := PerTxLimit | DailyLimit | Allowlist | ApprovalThreshold.

Definition checks_in_order : list Check :=
  [PerTxLimit; DailyLimit; Allowlist; ApprovalThreshold].

Section PolicySpec.
Context {num : Type} `{JsNumber num}.

(** The document [loadPolicy] returns from a database. *)
Definition active_policy (d : Db num) (agentId : string)
  : option (SpendingPolicy.t num) :=
  match
    limit 1
      (where_ (fun p => Bool.eqb (SpendingPolicy.isActive p) true)
         (where_ (fun p => String.eqb (SpendingPolicy.agentId p) agentId)
            (docs (policies d))))
  with
  | [] => None
  | doc :: _ => Some (snd doc)
  end.

(** The total [getDailySpending] computes from a database at time [now]. *)
Definition daily_spent (d : Db num) (now : Z) (agentId : string) : num :=
  fold_left (fun total doc => nadd total (spent_by (snd doc)))
    (order_by (fun t => iso_text (AgentTransaction.timestamp t))
       (where_ (fun t => string_le (iso_text (start_of_utc_day now))
                           (iso_text (AgentTransaction.timestamp t)))
          (where_ (fun t => bool_decide (AgentTransaction.status t = success))
             (where_ (fun t => bool_decide
                                 (AgentTransaction.agentId t = Some agentId))
                (docs (transactions d))))))
    (nlit 0).

(** The four checks, once the policy is loaded and the day's spending is
    known. *)
Definition verdict (policy : SpendingPolicy.t num) (dailySpent txAmount : num)
    (programId : option string) : PolicyEvaluation :=
  if ngt txAmount (SpendingPolicy.perTxLimitSol policy) then
    mkEval false
      (per_tx_reason txAmount (SpendingPolicy.perTxLimitSol policy))
  else if ngt (nadd dailySpent txAmount)
            (SpendingPolicy.dailyLimitSol policy) then
    mkEval false
      (daily_reason (nadd dailySpent txAmount)
         (SpendingPolicy.dailyLimitSol policy))
  else if not_allowlisted programId
            (SpendingPolicy.allowlistedPrograms policy) then
    mkEval false (allowlist_reason (nullish programId ""))
  else if ngt txAmount (SpendingPolicy.requireApprovalAbove policy) then
    mkEval false
      (threshold_reason txAmount (SpendingPolicy.requireApprovalAbove policy))
  else mkEval true within_reason.

(** No document of [policies] is an active policy of the agent. *)
Definition no_active_policy (d : Db num) (agentId : string) : Prop :=
  forall id p, policies d !! id = Some p ->
               SpendingPolicy.agentId p = agentId ->
               SpendingPolicy.isActive p = false.

(** [p] is the one active policy of the agent. *)
Definition the_active_policy (d : Db num) (agentId : string)
    (p : SpendingPolicy.t num) : Prop :=
  (exists id, policies d !! id = Some p) /\
  SpendingPolicy.agentId p = agentId /\
  SpendingPolicy.isActive p = true /\
  forall id' p', policies d !! id' = Some p' ->
                 SpendingPolicy.agentId p' = agentId ->
                 SpendingPolicy.isActive p' = true -> p' = p.

(** [a <= b] on amounts: [a > b] does not hold. *)
Definition nle (a b : num) : bool := negb (ngt a b).

(** The target condition in the words of the specification: the target
    program is absent, or the allowlist is empty, or it contains the
    target. *)
Definition target_permitted (programId : option string)
    (allowlist : list string) : bool :=
  match programId with
  | None => true
  | Some target =>
      match allowlist with
      | [] => true
      | _ :: _ => bool_decide (target ∈ allowlist)
      end
  end.

(** The same condition with the empty string counted as an absent
    target, as the code counts it. *)
Definition target_permitted_or_empty (programId : option string)
    (allowlist : list string) : bool :=
  match programId with
  | None => true
  | Some "" => true
  | Some target =>
      match allowlist with
      | [] => true
      | _ :: _ => bool_decide (target ∈ allowlist)
      end
  end.

(** The condition each check requires of a transaction. *)
Definition condition_holds (target_ok : option string -> list string -> bool)
    (policy : SpendingPolicy.t num) (dailySpent txAmount : num)
    (programId : option string) (c : Check) : bool :=
  match c with
  | PerTxLimit => nle txAmount (SpendingPolicy.perTxLimitSol policy)
  | DailyLimit =>
      nle (nadd dailySpent txAmount) (SpendingPolicy.dailyLimitSol policy)
  | Allowlist => target_ok programId (SpendingPolicy.allowlistedPrograms policy)
  | ApprovalThreshold =>
      nle txAmount (SpendingPolicy.requireApprovalAbove policy)
  end.

(** The first check, in the fixed order, whose condition is violated. *)
Definition first_violated (target_ok : option string -> list string -> bool)
    (policy : SpendingPolicy.t num) (dailySpent txAmount : num)
    (programId : option string) : option Check :=
  List.find
    (fun c => negb (condition_holds target_ok policy dailySpent txAmount
                      programId c))
    checks_in_order.

(** The reason string of each check. *)
Definition check_reason (policy : SpendingPolicy.t num)
    (dailySpent txAmount : num) (programId : option string) (c : Check)
  : string :=
  match c with
  | PerTxLimit =>
      per_tx_reason txAmount (SpendingPolicy.perTxLimitSol policy)
  | DailyLimit =>
      daily_reason (nadd dailySpent txAmount)
        (SpendingPolicy.dailyLimitSol policy)
  | Allowlist => allowlist_reason (nullish programId "")
  | ApprovalThreshold =>
      threshold_reason txAmount (SpendingPolicy.requireApprovalAbove policy)
  end.

(** What the specification expects of the evaluator for a loaded policy. *)
Definition expected_evaluation
    (target_ok : option string -> list string -> bool)
    (policy : SpendingPolicy.t num) (dailySpent txAmount : num)
    (programId : option string) : PolicyEvaluation :=
  match first_violated target_ok policy dailySpent txAmount programId with
  | None => mkEval true within_reason
  | Some c =>
      mkEval false (check_reason policy dailySpent txAmount programId c)
  end.

(** The start of the UTC day of [now]: the last multiple of a day that is
    not after it. *)
Definition utc_day_start (now : Z) : Z := now - now mod ms_per_day.

(** The records that count for the daily total of an agent at [now], in
    the words of the specification: the agent's, successful, and not
    older than the start of the current UTC day. *)
Definition counts_today (now : Z) (agentId : string)
    (t : AgentTransaction.t num) : Prop :=
  AgentTransaction.agentId t = Some agentId /\
  AgentTransaction.status t = success /\
  utc_day_start now <= AgentTransaction.timestamp t.

(** [amount + fee] of a record, a missing field counting for zero. *)
Definition amount_plus_fee (t : AgentTransaction.t num) : num :=
  nadd (match AgentTransaction.solAmount t with
        | Some amount => amount
        | None => nlit 0
        end)
       (match AgentTransaction.fee t with
        | Some fee => fee
        | None => nlit 0
        end).

(** The sum of [amount + fee] over a list of records, from zero. *)
Definition sum_amount_plus_fee
    (records : list (string * AgentTransaction.t num)) : num :=
  fold_left (fun total r => nadd total (amount_plus_fee (snd r))) records
    (nlit 0).
End PolicySpec.

(** ** The approval life cycle *)

(** The world with another database. *)
Definition with_db {num} (d : Db num) (w : World num) : World num :=
  mkWorld d (clock w) (outcomes w) (random w) (drawn w) (sent w).

(** The status a response of the status endpoint carries, if any. *)
Definition status_in (b : Body) : option ApprovalStatus :=
  match b with
  | ApprovalStatusBody _ status _ _ _ => Some status
  | _ => None
  end.

(** A status poll: who asks, for which request, when, and how the calls
    made while serving it fare. *)
Record StatusPoll := mkPoll {
  poll_agent : string;
  poll_approval : string;
  poll_time : Z;
  poll_schedule : list Outcome;
}.

Section LifecycleSpec.
Context {num : Type} `{JsNumber num}.

(** The world after serving one poll, and after a sequence of polls. *)
Definition after_poll (w : World num) (p : StatusPoll) : World num :=
  snd (getApprovalStatus (poll_agent p) (poll_approval p)
         (at_time (poll_time p) (poll_schedule p) w)).

Definition after_polls (w : World num) (ps : list StatusPoll) : World num :=
  fold_left after_poll ps w.

(** The stored status of a request, if the request exists. *)
Definition stored_status (w : World num) (approvalId : string)
  : option ApprovalStatus :=
  ApprovalRequest.status <$> approvals (db w) !! approvalId.

(** The collections other than [users] are the same in both worlds. *)
Definition same_but_users (w w' : World num) : Prop :=
  (approvals (db w') = approvals (db w)) /\
  (agents (db w') = agents (db w)) /\
  (policies (db w') = policies (db w)) /\
  (transactions (db w') = transactions (db w)).

End LifecycleSpec.

(** ** Ingestion *)

(** Two characters that are equal or the two cases of one letter. *)
Definition is_letter (c : ascii) : bool :=
  in_range "A" "Z" c || in_range "a" "z" c.

Definition same_letter (a b : ascii) : bool :=
  Ascii.eqb a b ||
  (is_letter a && is_letter b &&
   ((nat_of_ascii a + 32 =? nat_of_ascii b)%nat ||
    (nat_of_ascii b + 32 =? nat_of_ascii a)%nat)).

(** Two strings that match case-insensitively. *)
Fixpoint equal_ignoring_case (s t : string) : bool :=
  match s, t with
  | EmptyString, EmptyString => true
  | String a s', String b t' => same_letter a b && equal_ignoring_case s' t'
  | _, _ => false
  end.

(** The raw type is one of the given names of the indexer, in any case. *)
Definition is_one_of (names : list string) (raw : string) : bool :=
  existsb (equal_ignoring_case raw) names.

(** The names of the mapping table. *)
Definition indexer_names : list string :=
  ["TRANSFER"; "TOKEN_TRANSFER"; "SWAP"; "STAKE_SOL"; "STAKE_TOKEN"; "UNKNOWN"].

(** A string of ASCII characters. *)
Definition is_ascii (s : string) : bool :=
  forallb (fun c => (N_of_ascii c <? 128)%N) (list_ascii_of_string s).

(** A string without lower-case letters. *)
Definition no_lower_case (s : string) : bool :=
  forallb (fun c => negb (in_range "a" "z" c)) (list_ascii_of_string s).

Definition all_ascii : list ascii := map ascii_of_nat (seq 0 256).

Section IngestionSpec.
Context {num : Type} `{JsNumber num} `{JsString}.

(** The transaction records a batch of writes sets, in order. *)
Fixpoint records_of (batch : list (Write num))
  : list (string * AgentTransaction.t num) :=
  match batch with
  | [] => []
  | SetTransaction id record :: rest => (id, record) :: records_of rest
  | _ :: rest => records_of rest
  end.

(** The collection after setting the records, in order. *)
Definition insert_records (records : list (string * AgentTransaction.t num))
    (c : gmap string (AgentTransaction.t num))
  : gmap string (AgentTransaction.t num) :=
  fold_left (fun m r => <[fst r := snd r]> m) records c.

(** The first agent the query of the pipeline finds for the two addresses
    of a record, if any. *)
Definition matched_agent (d : Db num) (from to : string) : option string :=
  fst <$> head (limit 1
                  (where_ (fun a => includes (Agent.walletAddress a) [from; to])
                     (docs (agents d)))).

(** The world after drawing one random string. *)
Definition after_draw (w : World num) : World num :=
  mkWorld (db w) (clock w) (outcomes w) (random w) (S (drawn w)) (sent w).

(** The normalized record of an event, in the words of the specification:
    the fee payer and the recipient of the primary transfer as the pair of
    counter-parties, the lamports of the primary native transfer and of
    the fee converted to SOL, the semantic type of the raw type, the time
    of the event in milliseconds, failure when the event carries an error;
    [id] is the id of the document and [agentId] the matched agent. *)
Definition normalized_record (tx : HeliusEnhancedTransaction.t num)
    (nativeTransfers : list (HeliusNativeTransfer.t num))
    (tokenTransfers : list (HeliusTokenTransfer.t num))
    (now : Z) (id : string) (agentId : option string)
  : AgentTransaction.t num :=
  let lamports_to_sol x := ndiv x (nlit (inject_Z 1000000000)) in
  let native_to :=
    match head nativeTransfers with
    | Some primary => HeliusNativeTransfer.toUserAccount primary
    | None => ""
    end in
  {| AgentTransaction.id := id;
     AgentTransaction.agentId := agentId;
     AgentTransaction.signature := HeliusEnhancedTransaction.signature tx;
     AgentTransaction.type :=
       mapHeliusType (HeliusEnhancedTransaction.type tx);
     AgentTransaction.description :=
       if truthy_string (HeliusEnhancedTransaction.description tx)
       then HeliusEnhancedTransaction.description tx
       else HeliusEnhancedTransaction.type tx +:+ " transaction";
     AgentTransaction.timestamp :=
       HeliusEnhancedTransaction.timestamp tx * 1000;
     AgentTransaction.status :=
       match HeliusEnhancedTransaction.transactionError tx with
       | None | Some "" => success
       | Some _ => failed
       end;
     AgentTransaction.fee :=
       Some (lamports_to_sol (HeliusEnhancedTransaction.fee tx));
     AgentTransaction.from := HeliusEnhancedTransaction.feePayer tx;
     AgentTransaction.to :=
       match head tokenTransfers with
       | Some primary =>
           if truthy_string native_to then native_to
           else HeliusTokenTransfer.toUserAccount primary
       | None => native_to
       end;
     AgentTransaction.solAmount :=
       Some (match head nativeTransfers with
             | Some primary =>
                 lamports_to_sol (HeliusNativeTransfer.amount primary)
             | None => nlit 0
             end);
     AgentTransaction.tokenAmount :=
       HeliusTokenTransfer.tokenAmount <$> head tokenTransfers;
     AgentTransaction.tokenSymbol :=
       match head tokenTransfers with
       | Some primary =>
           if truthy_string (HeliusTokenTransfer.mint primary)
           then Some (HeliusTokenTransfer.mint primary) else None
       | None => None
       end;
     AgentTransaction.receivedAt := now |}.

(** The block of an event runs without error: both arrays are present,
    the time is a date, and the agent query succeeds. *)
Definition block_runs (tx : HeliusEnhancedTransaction.t num) (w : World num)
  : bool :=
  match HeliusEnhancedTransaction.nativeTransfers tx,
        HeliusEnhancedTransaction.tokenTransfers tx with
  | Some _, Some _ =>
      valid_time (HeliusEnhancedTransaction.timestamp tx * 1000) &&
      match call_fails w with None => true | Some _ => false end
  | _, _ => false
  end.

(** The record staged for an event met in world [w]: the normalized record
    under the next automatic id, stamped with the matched agent if there
    is one; none when the block throws. *)
Definition event_record (tx : HeliusEnhancedTransaction.t num) (w : World num)
  : option (string * AgentTransaction.t num) :=
  match HeliusEnhancedTransaction.nativeTransfers tx,
        HeliusEnhancedTransaction.tokenTransfers tx with
  | Some nativeTransfers, Some tokenTransfers =>
      if block_runs tx w then
        let id := random w (drawn w) in
        let record :=
          normalized_record tx nativeTransfers tokenTransfers (clock w) id in
        Some (id,
              record (matched_agent (db w)
                        (AgentTransaction.from (record None))
                        (AgentTransaction.to (record None))))
      else None
  | _, _ => None
  end.

(** The world after the block of an event: the agent query, if reached,
    has consumed one outcome of the schedule, and a block that ran has
    drawn one id. *)
Definition after_event (tx : HeliusEnhancedTransaction.t num) (w : World num)
  : World num :=
  match HeliusEnhancedTransaction.nativeTransfers tx,
        HeliusEnhancedTransaction.tokenTransfers tx with
  | Some _, Some _ =>
      if valid_time (HeliusEnhancedTransaction.timestamp tx * 1000) then
        match call_fails w with
        | None => after_draw (after_call w)
        | Some _ => after_call w
        end
      else w
  | _, _ => w
  end.

(** The records of a payload, event by event: the events are taken in
    order, each in the world the previous ones left, and an event whose
    block throws yields no record. *)
Fixpoint event_records (transactions : list (HeliusEnhancedTransaction.t num))
    (w : World num) : list (option (string * AgentTransaction.t num)) :=
  match transactions with
  | [] => []
  | tx :: rest => event_record tx w :: event_records rest (after_event tx w)
  end.

Fixpoint after_events (transactions : list (HeliusEnhancedTransaction.t num))
    (w : World num) : World num :=
  match transactions with
  | [] => w
  | tx :: rest => after_events rest (after_event tx w)
  end.

(** The events of a payload that come before its first [null] element,
    and whether it has one. *)
Fixpoint events_before_null
    (payload : list (option (HeliusEnhancedTransaction.t num)))
  : list (HeliusEnhancedTransaction.t num) :=
  match payload with
  | Some tx :: rest => tx :: events_before_null rest
  | _ => []
  end.

Definition has_null
    (payload : list (option (HeliusEnhancedTransaction.t num))) : bool :=
  existsb (fun element => match element with None => true | Some _ => false end)
    payload.

(** The writes of the pipeline: transaction records and last-seen
    refreshes of existing agents of [d]. *)
Definition ingestion_write (d : Db num) (wr : Write num) : Prop :=
  match wr with
  | SetTransaction _ _ => True
  | UpdateAgentLastSeen id _ => is_Some (agents d !! id)
  | _ => False
  end.
End IngestionSpec.

(** * Concrete worlds

    Inputs on which the functions are run, over the rationals. *)

Module Examples.

Definition ids (n : nat) : string := "doc" +:+ pretty n.

Definition owner : AppUser.t := AppUser.mk "user-1" ["agent-1"] true (Some "token-1").

Definition agent1 : Agent.t :=
  Agent.mk "agent-1" "Trading Bot" "7xKXtg2CW87d97TXJSDpbD5jBkheTqA83TZRuJosgAsU"
    "" active "hash-1" 0 0 "user-1".

(** The policy of the scenarios of the specification. *)
Definition policy1 (allowlist : list string) : SpendingPolicy.t Q :=
  SpendingPolicy.mk Q "policy-1" "agent-1" (1 # 1)%Q (5 # 10)%Q allowlist
    (1 # 10)%Q true 0.

(** A policy that is not active. *)
Definition policy_off : SpendingPolicy.t Q :=
  SpendingPolicy.mk Q "policy-0" "agent-1" (1 # 1)%Q (5 # 10)%Q []
    (1 # 10)%Q false 0.

Definition spend (id : string) (agentId : option string)
    (status : TransactionStatus) (timestamp : Z) (amount fee : Q)
  : AgentTransaction.t Q :=
  AgentTransaction.mk Q id agentId "sig" transfer "" timestamp status
    (Some fee) "from" "to" (Some amount) None None timestamp.

(** Noon of the second day of the epoch. *)
Definition noon : Z := 129600000.

(** A ledger with one record that counts today (0.75 + 0.05) and three
    that do not: yesterday's, a failed one, another agent's. *)
Definition ledger : gmap string (AgentTransaction.t Q) :=
  {[ "tx-1" := spend "tx-1" (Some "agent-1") success 100000000 (75 # 100) (5 # 100);
     "tx-2" := spend "tx-2" (Some "agent-1") success 80000000 (1 # 1) (0 # 1);
     "tx-3" := spend "tx-3" (Some "agent-1") failed 100000000 (1 # 1) (0 # 1);
     "tx-4" := spend "tx-4" (Some "agent-2") success 100000000 (1 # 1) (0 # 1) ]}.

Definition db_with (ps : gmap string (SpendingPolicy.t Q))
    (txs : gmap string (AgentTransaction.t Q))
    (aps : gmap string (ApprovalRequest.t Q)) : Db Q :=
  mkDb {[ "user-1" := owner ]} {[ "agent-1" := agent1 ]} ps txs aps.

Definition world (d : Db Q) (schedule : list Outcome) : World Q :=
  mkWorld d noon schedule ids 0 [].

(** No active policy: the only policy of the agent is switched off. *)
Definition world_no_policy : World Q :=
  world (db_with {[ "policy-0" := policy_off ]} ∅ ∅) [].

(** The scenario policy, no prior spending. *)
Definition world_fresh : World Q :=
  world (db_with {[ "policy-1" := policy1 [] ]} ∅ ∅) [].

(** The scenario policy with 0.8 SOL spent today. *)
Definition world_spent : World Q :=
  world (db_with {[ "policy-1" := policy1 [] ]} ledger ∅) [].

(** The scenario policy with a one-program allowlist. *)
Definition jupiter : string := "JUP6LkbZbjS1jKKwapdHNy74zcZ3tLUZoi5QNyVTaV4".

Definition world_allowlist : World Q :=
  world (db_with {[ "policy-1" := policy1 [jupiter] ]} ∅ ∅) [].

(** An approval request of the agent, created at the epoch with a TTL of
    one minute. *)
Definition approval1 (status : ApprovalStatus) (respondedAt : option Z)
  : ApprovalRequest.t Q :=
  ApprovalRequest.mk Q "approval-1" "agent-1" "Trading Bot"
    "Swap 2 SOL for USDC on Jupiter" status 0 60000 respondedAt "swap"
    (2 # 1)%Q (Some jupiter) None None None
    "Transaction amount 2 SOL exceeds per-tx limit of 0.5 SOL.".

Definition world_with_approval (status : ApprovalStatus)
    (respondedAt : option Z) : World Q :=
  world (db_with {[ "policy-1" := policy1 [] ]} ∅
           {[ "approval-1" := approval1 status respondedAt ]}) [].

(** The request of the README: a swap of 2 SOL on Jupiter. *)
Definition swap_request (cost : Q) (ttl : option Z) : ApprovalRequestBody Q :=
  mkApprovalRequestBody (Some "Swap 2 SOL for USDC on Jupiter") (Some "swap")
    (Some cost) (Some jupiter) None None None ttl.

(** The policy and the approval write succeed, the read of the owner's
    user document for the notification fails. *)
Definition world_notification_fails : World Q :=
  world (db_with {[ "policy-1" := policy1 [] ]} ∅ ∅)
    [Succeeds; Succeeds; Fails "unavailable"].

Definition registration : RegisterBody :=
  mkRegisterBody (Some "Yield Farmer")
    (Some "KAMiNo5aPe7R4wQPCGaKKhLpMibYMeZ3GhH48fCFgQH") None (Some "user-1").

(** A stand-in for SHA-256 in runs. *)
Definition hash (key : string) : string := "sha256:" +:+ key.

(** Three events: a swap paid by the agent's wallet, an event without its
    array of native transfers, and a mint by an unknown wallet. *)
Definition event (type feePayer : string)
    (nativeTransfers : option (list (HeliusNativeTransfer.t Q)))
  : HeliusEnhancedTransaction.t Q :=
  HeliusEnhancedTransaction.mk Q ("sig-" +:+ type) "" type (5000 # 1)%Q
    feePayer 129600 nativeTransfers (Some []) None.

Definition payload : list (HeliusEnhancedTransaction.t Q) :=
  [ event "SWAP" "7xKXtg2CW87d97TXJSDpbD5jBkheTqA83TZRuJosgAsU"
      (Some [HeliusNativeTransfer.mk Q
               "7xKXtg2CW87d97TXJSDpbD5jBkheTqA83TZRuJosgAsU" jupiter
               (2000000000 # 1)%Q]);
    event "TRANSFER" "7xKXtg2CW87d97TXJSDpbD5jBkheTqA83TZRuJosgAsU" None;
    event "NFT_MINT" "9WzDXwBbmkg8ZTbNMqUxvQRAyrZzDsGYdLVL9zYtAWWM" (Some []) ].

End Examples.

(** * More of the code

    The functions around those above: the authentication middleware and
    the policy endpoint of approvalApi.ts, the policy and user writes of
    services/firebase.ts with their callers in SettingsScreen.tsx, the
    lists of ApprovalScreen.tsx and the timer of ApprovalCard.tsx. *)

(** [s.slice(n)], for [0 <= n]. *)
Definition slice_from (n : nat) (s : string) : string :=
  substring n (String.length s - n) s.

Inductive SaveAlert := alert_saved | alert_save_failed.

Section MoreOfTheApi.
Context {num : Type} `{JsNumber num}.

(** [crypto.createHash("sha256").update(key).digest("hex")] *)
Variable hashApiKey : string -> string.

(** The middleware [authenticateAgent]: a response when the request is
    refused, and otherwise the [agentId] and [agent] it puts in
    [res.locals] before calling [next()].  It has no [try]: a failing
    query is thrown. *)
Definition authenticateAgent (authorization : option string)
  : M num (Response + string * Agent.t) :=
  match authorization with
  | Some authHeader =>
      if String.prefix "Bearer " authHeader then
        let apiKey := slice_from 7 authHeader in
        if negb (truthy_string apiKey)
        then ret (inl (mkResponse 401 (ErrorBody "Empty API key")))
        else
          let keyHash := hashApiKey apiKey in
          external_call ;;
          d <- get_db ;;
          let snap :=
            limit 1
              (where_ (fun a => String.eqb (Agent.apiKeyHash a) keyHash)
                 (docs (agents d))) in
          match snap with
          | [] => ret (inl (mkResponse 403 (ErrorBody "Invalid API key")))
          | agentDoc :: _ => ret (inr (fst agentDoc, snd agentDoc))
          end
      else ret (inl (mkResponse 401
                       (ErrorBody "Missing or invalid Authorization header")))
  | None => ret (inl (mkResponse 401
                        (ErrorBody "Missing or invalid Authorization header")))
  end.

(** A route [app.post(path, authenticateAgent, handler)]. *)
Definition authenticated (authorization : option string)
    (handler : string -> Agent.t -> M num Response) : M num Response :=
  auth <- authenticateAgent authorization ;;
  match auth with
  | inl refusal => ret refusal
  | inr locals => handler (fst locals) (snd locals)
  end.

(** [POST /api/approvals/request] and [GET /api/approvals/:id/status]. *)
Definition post_approvals_request (authorization : option string)
    (body : ApprovalRequestBody num) : M num Response :=
  authenticated authorization (fun _ agent => requestApproval agent body).

Definition get_approvals_status (authorization : option string)
    (approvalId : string) : M num Response :=
  authenticated authorization
    (fun agentId _ => getApprovalStatus agentId approvalId).

(** The answers of [GET /api/policies/:agentId]. *)
Inductive PolicyResponse :=
| PolicyJson (policy : SpendingPolicy.t num)            (* 200 *)
| PolicyRefused (http_status : Z) (error : string).

(** The handler of [GET /api/policies/:agentId] for the authenticated
    agent [callerAgentId]. *)
Definition getPolicyHandler (callerAgentId requestedAgentId : string)
  : M num PolicyResponse :=
  try_catch
    (if negb (String.eqb requestedAgentId callerAgentId)
     then ret (PolicyRefused 403 "Not authorized to view this policy")
     else
       external_call ;;
       d <- get_db ;;
       let snap :=
         limit 1
           (where_ (fun p => Bool.eqb (SpendingPolicy.isActive p) true)
              (where_ (fun p => String.eqb (SpendingPolicy.agentId p)
                                  requestedAgentId)
                 (docs (policies d)))) in
       match snap with
       | [] => ret (PolicyRefused 404 "No active policy found for this agent")
       | doc :: _ => ret (PolicyJson (snd doc))
       end)
    (fun _ => ret (PolicyRefused 500 "Internal server error")).
End MoreOfTheApi.
Arguments PolicyResponse : clear implicits.

Section MoreOfTheClient.
Context {num : Type}.

(** [{ ...policy, updatedAt: t }] *)
Definition policy_updated_at (t : Z) (p : SpendingPolicy.t num)
  : SpendingPolicy.t num :=
  SpendingPolicy.mk num (SpendingPolicy.id p) (SpendingPolicy.agentId p)
    (SpendingPolicy.dailyLimitSol p) (SpendingPolicy.perTxLimitSol p)
    (SpendingPolicy.allowlistedPrograms p)
    (SpendingPolicy.requireApprovalAbove p) (SpendingPolicy.isActive p) t.

(** services/firebase.ts: the policy of an agent is the document
    [policies/<agentId>]. *)
Definition getPolicy (agentId : string)
  : M num (option (SpendingPolicy.t num)) :=
  external_call ;;
  d <- get_db ;;
  ret (policies d !! agentId).

Definition setPolicy (policy : SpendingPolicy.t num) : M num unit :=
  now <- new_Date ;;
  external_call ;;
  d <- get_db ;;
  put_db (set_policies
            (<[SpendingPolicy.agentId policy := policy_updated_at now policy]>
               (policies d)) d).

(** [{ ...user, notificationsEnabled: value }] *)
Definition with_notifications (value : bool) (u : AppUser.t) : AppUser.t :=
  AppUser.mk (AppUser.id u) (AppUser.agentIds u) value (AppUser.fcmToken u).

(** [updateUserDoc(userId, { notificationsEnabled: value })] *)
Definition updateUserDoc_notifications (userId : string) (value : bool)
  : M num unit :=
  update_user userId (with_notifications value).

(** SettingsScreen.tsx, [handleToggleNotifications]: the user of the store
    after the toggle.  The remote update is not in a [try]. *)
Definition handleToggleNotifications (user : option AppUser.t) (value : bool)
  : M num (option AppUser.t) :=
  match user with
  | Some u =>
      (if negb (String.eqb (AppUser.id u) "demo_user")
       then updateUserDoc_notifications (AppUser.id u) value
       else ret tt) ;;
      ret (Some (with_notifications value u))
  | None => ret None
  end.

(** SettingsScreen.tsx, [handleSavePolicy]: the alert shown and the
    [policies] of the store after it. *)
Definition handleSavePolicy (policies : gmap string (SpendingPolicy.t num))
    (policy : SpendingPolicy.t num)
  : M num (SaveAlert * gmap string (SpendingPolicy.t num)) :=
  try_catch
    ((if negb (String.prefix "demo_" (SpendingPolicy.agentId policy))
      then setPolicy policy else ret tt) ;;
     ret (alert_saved, <[SpendingPolicy.agentId policy := policy]> policies))
    (fun _ => ret (alert_save_failed, policies)).

(** ApprovalScreen.tsx: the requests shown as cards, and those listed as
    resolved. *)
Definition displayApprovals (pendingApprovals : list (ApprovalRequest.t num))
  : list (ApprovalRequest.t num) :=
  List.filter (fun a => bool_decide (ApprovalRequest.status a = pending))
    pendingApprovals.

Definition resolvedApprovals (pendingApprovals : list (ApprovalRequest.t num))
  : list (ApprovalRequest.t num) :=
  List.filter (fun a => negb (bool_decide (ApprovalRequest.status a = pending)))
    pendingApprovals.

(** The store's [usePendingApprovalCount]. *)
Definition usePendingApprovalCount
    (pendingApprovals : list (ApprovalRequest.t num)) : nat :=
  length (List.filter
            (fun a => bool_decide (ApprovalRequest.status a = pending))
            pendingApprovals).
End MoreOfTheClient.

(** ApprovalCard.tsx, [updateTimer]: the text of the timer at [now]
    ([Date.now()]) for a request that expires at [expires]. *)
Definition updateTimer (now expires : Z) : string :=
  let diff := expires - now in
  if diff <=? 0 then "Expired"
  else
    let mins := diff / 60000 in
    let secs := (diff mod 60000) / 1000 in
    pretty mins +:+ "m " +:+ pretty secs +:+ "s".

(** [isExpired], which disables both buttons of the card. *)
Definition isExpired (timeLeft : string) : bool :=
  String.eqb timeLeft "Expired".

(** * More concrete worlds *)

Module MoreExamples.

(** The world after the registration of [Examples.registration]: the key
    returned is "doc0", the agent is "doc1" and its policy "doc2". *)
Definition world_registered : World Q :=
  snd (registerAgent Examples.hash Examples.registration Examples.world_fresh).

Definition registered_agent : Agent.t :=
  Agent.mk "doc1" "Yield Farmer" "KAMiNo5aPe7R4wQPCGaKKhLpMibYMeZ3GhH48fCFgQH"
    "" active "sha256:doc0" Examples.noon Examples.noon "user-1".

Definition registered_message : string :=
  "Store this API key securely. It will not be shown again.".

(** The default policy of that registration. *)
Definition default_policy : SpendingPolicy.t Q :=
  SpendingPolicy.mk Q "doc2" "doc1" (1 # 1)%Q (5 # 10)%Q [] (1 # 10)%Q true
    Examples.noon.

(** A policy the owner saves in the app for that agent, switched off. *)
Definition saved_policy : SpendingPolicy.t Q :=
  SpendingPolicy.mk Q "doc1" "doc1" (2 # 1)%Q (1 # 1)%Q [] (5 # 10)%Q false 0.

(** A stand-in for SHA-256 under which "key-1" is the key of
    [Examples.agent1]. *)
Definition hash1 (key : string) : string :=
  if String.eqb key "key-1" then "hash-1" else Examples.hash key.

(** The first event of [Examples.payload]. *)
Definition swap_event : HeliusEnhancedTransaction.t Q :=
  Examples.event "SWAP" "7xKXtg2CW87d97TXJSDpbD5jBkheTqA83TZRuJosgAsU"
    (Some [HeliusNativeTransfer.mk Q
             "7xKXtg2CW87d97TXJSDpbD5jBkheTqA83TZRuJosgAsU" Examples.jupiter
             (2000000000 # 1)%Q]).


(** A second agent of the same owner, and a world with both agents. *)
Definition agent2 : Agent.t :=
  Agent.mk "agent-2" "Yield Farmer" "KAMiNo5aPe7R4wQPCGaKKhLpMibYMeZ3GhH48fCFgQH"
    "" active "hash-2" 0 0 "user-1".

Definition world_two_agents (schedule : list Outcome) : World Q :=
  mkWorld
    (mkDb {[ "user-1" := Examples.owner ]}
       {[ "agent-1" := Examples.agent1; "agent-2" := agent2 ]} ∅ ∅ ∅)
    Examples.noon schedule Examples.ids 0 [].

(** One event of each agent. *)
Definition two_events : list (option (HeliusEnhancedTransaction.t Q)) :=
  [ Some swap_event;
    Some (Examples.event "TRANSFER"
            "KAMiNo5aPe7R4wQPCGaKKhLpMibYMeZ3GhH48fCFgQH" (Some [])) ].

Definition stale : Outcome :=
  Fails "messaging/registration-token-not-registered".

(** A second request of another agent, in the local list of the app. *)
Definition approval2 : ApprovalRequest.t Q :=
  ApprovalRequest.mk Q "approval-2" "agent-2" "Yield Farmer"
    "Stake 1 SOL" pending 0 60000 None "stake" (1 # 1)%Q None None None None
    "Transaction amount 1 SOL exceeds per-tx limit of 0.5 SOL.".

End MoreExamples.

(** * More of the specification's vocabulary *)

(** The world after FCM has delivered one more message. *)
Definition delivered {num} (msg : PushMessage) (w : World num) : World num :=
  mkWorld (db w) (clock w) (outcomes w) (random w) (drawn w) (sent w ++ [msg]).

Section CreationSpec.
Context {num : Type} `{JsNumber num}.

(** A request body that [POST /api/approvals/request] answers with 400. *)
Definition invalid_request (body : ApprovalRequestBody num) : bool :=
  match req_estimatedSolCost body with
  | None => true
  | Some cost =>
      negb (truthy (req_description body)) ||
      negb (truthy (req_txType body)) ||
      nlt cost (nlit 0)
  end.

(** The time at which a request made at [now] expires. *)
Definition approval_expiry (now : Z) (body : ApprovalRequestBody num) : Z :=
  now + nullish (req_expiresInMinutes body) 15 * 60 * 1000.

(** The message that asks the owner to review a request. *)
Definition approval_notification (agent : Agent.t)
    (body : ApprovalRequestBody num) (cost : num) (approvalId token : string)
  : PushMessage :=
  mkPush token ("Approval Required: " +:+ Agent.name agent)
    (nullish (req_description body) "" +:+ " (" +:+ nshow cost +:+ " SOL)")
    [("approvalId", approvalId); ("agentId", Agent.id agent);
     ("type", "approval_request")].

(** The owner can be reached: the user document has a token and has
    notifications switched on. *)
Definition reachable (d : Db num) (ownerId token : string) : Prop :=
  exists user,
    users d !! ownerId = Some user /\
    AppUser.fcmToken user = Some token /\
    token <> "" /\
    AppUser.notificationsEnabled user = true.
End CreationSpec.

Section CreationRecord.
Context {num : Type} `{JsNumber num}.

(** [approvalData] of [POST /api/approvals/request]. *)
Definition approval_record (agent : Agent.t) (body : ApprovalRequestBody num)
    (cost : num) (evaluation : PolicyEvaluation) (now : Z)
    (approvalRef : string) : ApprovalRequest.t num :=
  ApprovalRequest.mk num approvalRef (Agent.id agent) (Agent.name agent)
    (nullish (req_description body) "")
    (if autoApproved evaluation then approved else pending)
    now (approval_expiry now body)
    (if autoApproved evaluation then Some now else None)
    (nullish (req_txType body) "") cost
    (if_truthy (req_targetProgram body))
    (if_truthy (req_targetAddress body))
    (req_amount body)
    (if_truthy (req_tokenSymbol body))
    (reason evaluation).
End CreationRecord.

(** The last character of a string. *)
Fixpoint last_char (s : string) : option ascii :=
  match s with
  | EmptyString => None
  | String c EmptyString => Some c
  | String _ rest => last_char rest
  end.

Section IngestionSpecMore.
Context {num : Type} `{JsNumber num} `{JsString}.

(** User documents [after] are those [before], some without their token. *)
Definition tokens_dropped (before after : gmap string AppUser.t) : Prop :=
  forall id,
    after !! id = before !! id \/
    exists u, before !! id = Some u /\ after !! id = Some (delete_fcmToken u).

(** Agent documents [after] are those [before], some seen at [now]. *)
Definition agents_seen (now : Z) (before after : gmap string Agent.t) : Prop :=
  forall id,
    after !! id = before !! id \/
    exists a, before !! id = Some a /\ after !! id = Some (touch_agent now a).

(** The agents whose last-seen refresh a batch stages, in order. *)
Fixpoint refreshed (batch : list (Write num)) : list string :=
  match batch with
  | [] => []
  | UpdateAgentLastSeen id _ :: rest => id :: refreshed rest
  | _ :: rest => refreshed rest
  end.

(** The writes of the pipeline at time [now]: transaction records, and
    last-seen refreshes at [now] of agents of [d]. *)
Definition ingestion_write_at (d : Db num) (now : Z) (wr : Write num) : Prop :=
  match wr with
  | SetTransaction _ _ => True
  | UpdateAgentLastSeen id t => is_Some (agents d !! id) /\ t = now
  | _ => False
  end.

(** An entry of the notification map made from a stored agent, for at
    least one and at most [n] events. *)
Definition tallied_from (d : Db num) (n : nat)
    (t : string * NotificationInfo) : Prop :=
  exists agent,
    agents d !! fst t = Some agent /\
    info_agentName (snd t) = Agent.name agent /\
    info_ownerId (snd t) = Agent.ownerId agent /\
    (1 <= info_txCount (snd t) <= n)%nat.

(** The invariant of the loop over the events: what is staged and tallied
    after at most [n] events. *)
Definition loop_invariant (d : Db num) (now : Z) (n : nat)
    (batch : list (Write num)) (tallies : list (string * NotificationInfo))
  : Prop :=
  Forall (ingestion_write_at d now) batch /\
  List.NoDup (map fst tallies) /\
  Forall (tallied_from d n) tallies.
End IngestionSpecMore.

Section ActivitySpec.
Context {num : Type} `{JsNumber num} `{JsString}.

(** A message about the activity of a stored agent in a payload of [n]
    events, addressed to the stored token of the agent's owner. *)
Definition activity_message (d : Db num) (n : nat) (m : PushMessage) : Prop :=
  exists agentId agent owner count,
    push_data m = [("agentId", agentId)] /\
    agents d !! agentId = Some agent /\
    push_title m = Agent.name agent +:+ " Activity" /\
    push_body m = notification_body count /\
    (1 <= count <= n)%nat /\
    users d !! Agent.ownerId agent = Some owner /\
    AppUser.fcmToken owner = Some (push_token m) /\
    AppUser.notificationsEnabled owner = true.

(** The message of the notification of a tallied agent, addressed to the
    token that the user documents [users0] store for its owner. *)
Definition message_for (users0 : gmap string AppUser.t)
    (entry : string * NotificationInfo) (m : PushMessage) : Prop :=
  push_data m = [("agentId", fst entry)] /\
  push_title m = info_agentName (snd entry) +:+ " Activity" /\
  push_body m = notification_body (info_txCount (snd entry)) /\
  exists user,
    users0 !! info_ownerId (snd entry) = Some user /\
    AppUser.fcmToken user = Some (push_token m) /\
    AppUser.notificationsEnabled user = true.

(** A state of the call of [sendPushToOwner] made for a tallied agent. *)
Definition task_for (users0 : gmap string AppUser.t)
    (entry : string * NotificationInfo) (task : PushTask) : Prop :=
  match task with
  | AwaitUser ownerId title body data =>
      ownerId = info_ownerId (snd entry) /\
      title = info_agentName (snd entry) +:+ " Activity" /\
      body = notification_body (info_txCount (snd entry)) /\
      data = [("agentId", fst entry)]
  | AwaitSend _ msg => message_for users0 entry msg
  | AwaitUpdate _ => True
  | Settled => True
  end.

(** The invariant of the calls that run beside each other, started for
    the agents [tallies] in a world [w0]: user documents have at most
    lost their token, each call is in a state of the call made for its
    agent, and the messages sent so far are those of calls that have
    settled, one per call. *)
Definition pushes_invariant (w0 : World num)
    (tallies : list (string * NotificationInfo))
    (tasks : list PushTask) (w : World num) : Prop :=
  same_but_users w0 w /\
  tokens_dropped (users (db w0)) (users (db w)) /\
  Forall2 (task_for (users (db w0))) tallies tasks /\
  exists msgs,
    sent w = sent w0 ++ msgs /\
    List.NoDup (map push_data msgs) /\
    forall m, In m msgs ->
      exists i entry,
        tallies !! i = Some entry /\
        tasks !! i = Some Settled /\
        message_for (users (db w0)) entry m.
End ActivitySpec.

(** The base-58 alphabet of Solana addresses: the digits and letters
    without [0], [O], [I] and [l]. *)
Definition base58_alphabet : string :=
  "123456789ABCDEFGHJKLMNPQRSTUVWXYZabcdefghijkmnopqrstuvwxyz".

(** * Properties *)

Example show_decimal : QNumber.show (5 # 100) = "0.05".
Proof. vm_compute. reflexivity. Qed.

Example toFixed_sum : QNumber.toFixed (Qplus (8 # 10) (3 # 10)) 4 = "1.1000".
Proof. vm_compute. reflexivity. Qed.

(** ** Running a computation *)

Lemma world_eta {num} (w : World num) :
  mkWorld (db w) (clock w) (outcomes w) (random w) (drawn w) (sent w) = w.
Proof. destruct w; reflexivity. Qed.

Lemma external_call_run {num} (w : World num) :
  external_call w =
  (match call_fails w with Some code => Throw code | None => Return tt end,
   after_call w).
Proof.
  unfold external_call, call_fails, after_call.
  destruct (outcomes w) as [|[|code] rest] eqn:E; simpl; try reflexivity.
  rewrite <- E. now rewrite world_eta.
Qed.

Lemma calls_succeed_S {num} n (w : World num) :
  calls_succeed (S n) (outcomes w) = true ->
  call_fails w = None /\ calls_succeed n (outcomes (after_call w)) = true.
Proof.
  unfold call_fails, after_call; simpl.
  destruct (outcomes w) as [|[|code] rest]; simpl; intros Hs;
    try discriminate; split; try reflexivity; try assumption.
  now destruct n.
Qed.

(** ** Queries *)

Lemma insert_by_Permutation {A} (le : A -> A -> bool) (x : A) (l : list A) :
  Permutation (insert_by le x l) (x :: l).
Proof.
  induction l as [|y rest IH]; [reflexivity|]. cbn [insert_by].
  destruct (le x y); [reflexivity|].
  rewrite IH. apply perm_swap.
Qed.

(** Sorting keeps the elements. *)
Lemma sort_by_Permutation {A} (le : A -> A -> bool) (l : list A) :
  Permutation (sort_by le l) l.
Proof.
  induction l as [|x rest IH]; [reflexivity|].
  unfold sort_by in *. cbn [fold_right].
  rewrite insert_by_Permutation. now apply perm_skip.
Qed.

Lemma in_sort_by {A} (le : A -> A -> bool) (l : list A) x :
  In x (sort_by le l) <-> In x l.
Proof.
  split; apply Permutation_in;
    [|symmetry]; apply sort_by_Permutation.
Qed.

Lemma sort_by_NoDup {A} (le : A -> A -> bool) (l : list A) :
  List.NoDup l -> List.NoDup (sort_by le l).
Proof.
  apply Permutation_NoDup. symmetry. apply sort_by_Permutation.
Qed.

(** A query returns the documents in the order of their ids. *)
Example docs_in_id_order :
  map fst (docs ({[ "b" := 1%nat; "10" := 2%nat; "1" := 3%nat; "0" := 4%nat;
                    "B" := 5%nat ]} : gmap string nat))
  = ["0"; "1"; "10"; "B"; "b"].
Proof. vm_compute. reflexivity. Qed.

Section QueryFacts.
Context {D : Type}.

Lemma in_docs (c : gmap string D) id x :
  In (id, x) (docs c) <-> c !! id = Some x.
Proof.
  unfold docs. rewrite in_sort_by, <- list_elem_of_In.
  apply elem_of_map_to_list.
Qed.

Lemma in_order_by (field : D -> string) (snap : list (string * D)) x :
  In x (order_by field snap) <-> In x snap.
Proof. apply in_sort_by. Qed.

Lemma in_where (f : D -> bool) (snap : list (string * D)) x :
  In x (where_ f snap) <-> In x snap /\ f (snd x) = true.
Proof. unfold where_. apply filter_In. Qed.

Lemma where_nil (f : D -> bool) (snap : list (string * D)) :
  (forall x, In x snap -> f (snd x) = false) -> where_ f snap = [].
Proof.
  induction snap as [|x rest IH]; intros Hall; [reflexivity|].
  unfold where_ in *. simpl. rewrite (Hall x (or_introl eq_refl)).
  apply IH. intros y Hy. apply Hall. now right.
Qed.

Lemma docs_NoDup (c : gmap string D) : List.NoDup (docs c).
Proof.
  unfold docs. apply sort_by_NoDup, NoDup_ListNoDup, NoDup_map_to_list.
Qed.

Lemma where_NoDup (f : D -> bool) (snap : list (string * D)) :
  List.NoDup snap -> List.NoDup (where_ f snap).
Proof. unfold where_. apply List.NoDup_filter. Qed.
End QueryFacts.

Lemma includes_elem_of (x : string) (a : list string) :
  includes x a = bool_decide (x ∈ a).
Proof.
  unfold includes. induction a as [|y a IH].
  - symmetry. apply bool_decide_eq_false_2, not_elem_of_nil.
  - cbn [existsb]. rewrite IH. destruct (String.eqb x y) eqn:E; simpl.
    + apply String.eqb_eq in E as ->. symmetry.
      apply bool_decide_eq_true_2, list_elem_of_here.
    + apply String.eqb_neq in E.
      apply bool_decide_ext. rewrite elem_of_cons. tauto.
Qed.

(** ** The policy evaluator *)

Section PolicyEngineFacts.
Context {num : Type} `{JsNumber num}.

Lemma loadPolicy_run (w : World num) agentId :
  loadPolicy agentId w =
  (match call_fails w with
   | Some code => Throw code
   | None => Return (active_policy (db w) agentId)
   end, after_call w).
Proof.
  unfold loadPolicy, active_policy. unfold bind at 1.
  rewrite external_call_run.
  destruct (call_fails w); [reflexivity|].
  run_M.
  match goal with
  | |- context [match ?l with [] => _ | _ :: _ => _ end] => destruct l
  end; reflexivity.
Qed.

Lemma getDailySpending_run (w : World num) agentId :
  getDailySpending agentId w =
  (match call_fails w with
   | Some code => Throw code
   | None => Return (daily_spent (db w) (clock w) agentId)
   end, after_call w).
Proof.
  unfold getDailySpending, daily_spent. unfold bind at 1. unfold new_Date.
  unfold bind at 1. rewrite external_call_run.
  destruct (call_fails w); reflexivity.
Qed.

(** [evaluateTransaction] in one equation: the policy read, then (unless
    the per-transaction check has already decided) the ledger read. *)
Lemma evaluateTransaction_run (w : World num) agentId txAmount programId :
  evaluateTransaction agentId txAmount programId w =
  match call_fails w with
  | Some code => (Throw code, after_call w)
  | None =>
      match active_policy (db w) agentId with
      | None => (Return (mkEval false no_policy_reason), after_call w)
      | Some policy =>
          let spent := daily_spent (db w) (clock w) agentId in
          if ngt txAmount (SpendingPolicy.perTxLimitSol policy)
          then (Return (verdict policy spent txAmount programId),
                after_call w)
          else
            match call_fails (after_call w) with
            | Some code => (Throw code, after_call (after_call w))
            | None => (Return (verdict policy spent txAmount programId),
                       after_call (after_call w))
            end
      end
  end.
Proof.
  unfold evaluateTransaction. unfold bind at 1. rewrite loadPolicy_run.
  destruct (call_fails w); [reflexivity|].
  destruct (active_policy (db w) agentId) as [policy|]; [|reflexivity].
  unfold verdict.
  destruct (ngt txAmount (SpendingPolicy.perTxLimitSol policy)) eqn:E1;
    [reflexivity|].
  unfold bind at 1. rewrite getDailySpending_run.
  destruct (call_fails (after_call w)); [reflexivity|].
  simpl.
  repeat match goal with
         | |- context [if ?b then _ else _] => destruct b
         end; reflexivity.
Qed.

(** The evaluation of a loaded policy when both reads succeed. *)
Lemma evaluateTransaction_verdict (w : World num) agentId txAmount programId
    policy :
  active_policy (db w) agentId = Some policy ->
  calls_succeed 2 (outcomes w) = true ->
  fst (evaluateTransaction agentId txAmount programId w) =
  Return (verdict policy (daily_spent (db w) (clock w) agentId) txAmount
            programId).
Proof.
  intros Hp Hs. rewrite evaluateTransaction_run, Hp.
  apply calls_succeed_S in Hs as [-> Hs].
  apply calls_succeed_S in Hs as [-> _].
  simpl. now destruct (ngt _ _).
Qed.

Lemma in_policy_query (d : Db num) agentId x :
  In x (where_ (fun p => Bool.eqb (SpendingPolicy.isActive p) true)
          (where_ (fun p => String.eqb (SpendingPolicy.agentId p) agentId)
             (docs (policies d)))) <->
  policies d !! fst x = Some (snd x) /\
  SpendingPolicy.agentId (snd x) = agentId /\
  SpendingPolicy.isActive (snd x) = true.
Proof.
  rewrite !in_where. destruct x as [id p]; simpl.
  rewrite in_docs, String.eqb_eq, Bool.eqb_true_iff. tauto.
Qed.

Lemma active_policy_none (d : Db num) agentId :
  no_active_policy d agentId -> active_policy d agentId = None.
Proof.
  intros Hno. unfold active_policy.
  rewrite (where_nil _ (where_ _ _)); [reflexivity|].
  intros [id p] Hin. apply in_where in Hin as [Hin Hagent]. simpl in *.
  apply in_docs in Hin. apply String.eqb_eq in Hagent.
  now rewrite (Hno id p Hin Hagent).
Qed.

Lemma active_policy_some (d : Db num) agentId p :
  the_active_policy d agentId p -> active_policy d agentId = Some p.
Proof.
  intros ([id Hid] & Hagent & Hactive & Huniq). unfold active_policy.
  match goal with
  | |- context [limit 1 ?l] => destruct l as [|x rest] eqn:E
  end.
  - assert (Hin : In (id, p) []); [|destruct Hin].
    rewrite <- E. apply in_policy_query. auto.
  - simpl. f_equal.
    assert (Hx : In x (x :: rest)) by now left.
    rewrite <- E in Hx. apply in_policy_query in Hx as (Hx & Ha & Hb).
    exact (Huniq _ _ Hx Ha Hb).
Qed.

Lemma active_policy_exists (d : Db num) agentId id p :
  policies d !! id = Some p ->
  SpendingPolicy.agentId p = agentId ->
  SpendingPolicy.isActive p = true ->
  exists found, active_policy d agentId = Some found.
Proof.
  intros Hid Hagent Hactive. unfold active_policy.
  match goal with
  | |- context [limit 1 ?l] => destruct l as [|x rest] eqn:E
  end; simpl; [|eauto].
  assert (Hin : In (id, p) []); [|destruct Hin].
  rewrite <- E. apply in_policy_query. auto.
Qed.
End PolicyEngineFacts.

Section PolicyEngineTheorems.
Context {num : Type} `{JsNumber num}.

(** C1.  When the agent has no active spending policy,
    [evaluateTransaction] never auto-approves, whatever the amount and
    the target program: if the policy query succeeds it returns
    [autoApproved = false] with the fail-safe reason, if the query fails
    it throws, and so no run returns [autoApproved = true]. *)
Theorem evaluateTransaction_no_policy_fail_closed
    (w : World num) (agentId : string) (txAmount : num)
    (programId : option string) :
  no_active_policy (db w) agentId ->
  (call_fails w = None ->
   fst (evaluateTransaction agentId txAmount programId w) =
   Return (mkEval false no_policy_reason)) /\
  (forall code, call_fails w = Some code ->
   fst (evaluateTransaction agentId txAmount programId w) = Throw code) /\
  (forall r, fst (evaluateTransaction agentId txAmount programId w) = Return r ->
             autoApproved r = false).
Proof.
  intros Hno. rewrite evaluateTransaction_run.
  rewrite (active_policy_none _ _ Hno).
  destruct (call_fails w) as [code|]; simpl.
  - split; [discriminate|]. split; [now intros ? [= <-] | discriminate].
  - split; [reflexivity|]. split; [discriminate | now intros r [= <-]].
Qed.

Lemma not_allowlisted_spec (programId : option string) (allowlist : list string) :
  not_allowlisted programId allowlist =
  negb (target_permitted_or_empty programId allowlist).
Proof.
  unfold not_allowlisted, target_permitted_or_empty.
  destruct programId as [[|c target]|]; simpl; try reflexivity.
  destruct allowlist as [|y rest]; [reflexivity|].
  change (negb (includes (String c target) (y :: rest)) =
          negb (bool_decide (String c target ∈ y :: rest))).
  now rewrite includes_elem_of.
Qed.

Lemma verdict_expected (policy : SpendingPolicy.t num)
    (dailySpent txAmount : num) (programId : option string) :
  verdict policy dailySpent txAmount programId =
  expected_evaluation target_permitted_or_empty policy dailySpent txAmount
    programId.
Proof.
  unfold verdict, expected_evaluation, first_violated, checks_in_order.
  unfold condition_holds, nle. cbn [find check_reason].
  rewrite not_allowlisted_spec.
  destruct (ngt txAmount (SpendingPolicy.perTxLimitSol policy));
    [reflexivity|].
  destruct (ngt (nadd dailySpent txAmount) _); [reflexivity|].
  destruct (target_permitted_or_empty _ _); [|reflexivity].
  destruct (ngt txAmount _); reflexivity.
Qed.

Lemma first_violated_none
    (target_ok : option string -> list string -> bool)
    (policy : SpendingPolicy.t num) (dailySpent txAmount : num)
    (programId : option string) :
  first_violated target_ok policy dailySpent txAmount programId = None <->
  forall c, condition_holds target_ok policy dailySpent txAmount programId c
            = true.
Proof.
  unfold first_violated, checks_in_order. cbn [find].
  split.
  - intros Hf c.
    destruct (condition_holds _ _ _ _ _ PerTxLimit) eqn:E1; [|discriminate].
    destruct (condition_holds _ _ _ _ _ DailyLimit) eqn:E2; [|discriminate].
    destruct (condition_holds _ _ _ _ _ Allowlist) eqn:E3; [|discriminate].
    destruct (condition_holds _ _ _ _ _ ApprovalThreshold) eqn:E4;
      [|discriminate].
    now destruct c.
  - intros Hall.
    now rewrite (Hall PerTxLimit), (Hall DailyLimit), (Hall Allowlist),
      (Hall ApprovalThreshold).
Qed.

(** C2, as amended.  For the active policy of an agent and every amount,
    with both reads succeeding: [evaluateTransaction] returns
    [autoApproved = true] with the within-limits reason exactly when the
    amount is at most the per-transaction limit, the day's spending plus
    the amount is at most the daily limit, the target program is absent
    or the empty string or the allowlist is empty or contains it, and the
    amount is at most the approval threshold; otherwise it returns
    [autoApproved = false] with the reason of the first violated check
    in the order per-tx, daily, allowlist, threshold. *)
Theorem evaluateTransaction_first_violated_check
    (w : World num) (agentId : string) (policy : SpendingPolicy.t num)
    (txAmount : num) (programId : option string) :
  the_active_policy (db w) agentId policy ->
  calls_succeed 2 (outcomes w) = true ->
  let dailySpent := daily_spent (db w) (clock w) agentId in
  let holds :=
    condition_holds target_permitted_or_empty policy dailySpent txAmount
      programId in
  fst (evaluateTransaction agentId txAmount programId w) =
  Return (expected_evaluation target_permitted_or_empty policy dailySpent
            txAmount programId) /\
  ((forall c, holds c = true) ->
   fst (evaluateTransaction agentId txAmount programId w) =
   Return (mkEval true within_reason)) /\
  (forall c,
     first_violated target_permitted_or_empty policy dailySpent txAmount
       programId = Some c ->
     holds c = false /\
     fst (evaluateTransaction agentId txAmount programId w) =
     Return (mkEval false
               (check_reason policy dailySpent txAmount programId c))).
Proof.
  intros Hp Hs dailySpent holds.
  assert (Hrun : fst (evaluateTransaction agentId txAmount programId w) =
                 Return (expected_evaluation target_permitted_or_empty policy
                           dailySpent txAmount programId)).
  { rewrite (evaluateTransaction_verdict w _ _ _ policy);
      [now rewrite verdict_expected | now apply active_policy_some | exact Hs]. }
  split; [exact Hrun|]. split.
  - intros Hall. rewrite Hrun. unfold expected_evaluation.
    now rewrite (proj2 (first_violated_none _ _ _ _ _) Hall).
  - intros c Hc. split.
    + unfold first_violated in Hc. apply find_some in Hc as [_ Hc].
      now apply negb_true_iff in Hc.
    + rewrite Hrun. unfold expected_evaluation. now rewrite Hc.
Qed.

(** The reason of the daily check is not the reason of any other
    outcome: it alone starts with "Daily". *)
Lemma daily_reason_distinct (projected limit : num)
    (policy : SpendingPolicy.t num) (dailySpent txAmount : num)
    (programId : option string) :
  daily_reason projected limit <>
    check_reason policy dailySpent txAmount programId Allowlist /\
  daily_reason projected limit <>
    check_reason policy dailySpent txAmount programId ApprovalThreshold /\
  daily_reason projected limit <> within_reason.
Proof. repeat split; discriminate. Qed.

Lemma utc_day_start_spec (now : Z) :
  utc_day_start now <= now < utc_day_start now + ms_per_day /\
  utc_day_start now mod ms_per_day = 0.
Proof.
  unfold utc_day_start, ms_per_day.
  pose proof (Z.mod_pos_bound now 86400000 ltac:(lia)) as Hb.
  split; [lia|].
  rewrite Zminus_mod_idemp_r, Z.sub_diag. reflexivity.
Qed.

(** The query of [getDailySpending] where the order of the ISO strings is
    the order of the times they denote.  When [Date.UTC] gives the start
    of the day of [now], and each stored timestamp compares with it as
    its string does, the total returned is the sum of amount plus fee
    over exactly the stored records of the agent with status success and
    a timestamp not before the start of the current UTC day; and for an
    amount within the per-transaction limit the evaluator requires
    approval for the daily limit exactly when that total plus the
    proposed amount is strictly greater than the policy's daily limit. *)
Lemma daily_spending_sum_in_range (w : World num) (agentId : string) :
  call_fails w = None ->
  start_of_utc_day (clock w) = utc_day_start (clock w) ->
  (forall id t,
     transactions (db w) !! id = Some t ->
     string_le (iso_text (start_of_utc_day (clock w)))
       (iso_text (AgentTransaction.timestamp t))
     = (start_of_utc_day (clock w) <=? AgentTransaction.timestamp t)) ->
  exists counted : list (string * AgentTransaction.t num),
    List.NoDup counted /\
    (forall id t, In (id, t) counted <->
                  transactions (db w) !! id = Some t /\
                  counts_today (clock w) agentId t) /\
    fst (getDailySpending agentId w) = Return (sum_amount_plus_fee counted) /\
    forall policy txAmount programId,
      the_active_policy (db w) agentId policy ->
      calls_succeed 2 (outcomes w) = true ->
      ngt txAmount (SpendingPolicy.perTxLimitSol policy) = false ->
      let projected := nadd (sum_amount_plus_fee counted) txAmount in
      let limit := SpendingPolicy.dailyLimitSol policy in
      exists r,
        fst (evaluateTransaction agentId txAmount programId w) = Return r /\
        (ngt projected limit = true ->
         r = mkEval false (daily_reason projected limit)) /\
        (ngt projected limit = false ->
         reason r <> daily_reason projected limit).
Proof.
  intros Hcall Hstart Horder.
  exists (order_by (fun t => iso_text (AgentTransaction.timestamp t))
            (where_ (fun t => string_le (iso_text (start_of_utc_day (clock w)))
                                (iso_text (AgentTransaction.timestamp t)))
               (where_ (fun t => bool_decide (AgentTransaction.status t = success))
                  (where_ (fun t => bool_decide
                                      (AgentTransaction.agentId t = Some agentId))
                     (docs (transactions (db w))))))).
  split; [apply sort_by_NoDup; repeat apply where_NoDup; apply docs_NoDup|].
  split.
  { intros id t. rewrite in_order_by, !in_where, in_docs. cbn [snd].
    unfold counts_today. rewrite !bool_decide_eq_true, <- Hstart.
    split.
    - intros (((Hin & Hagent) & Hstatus) & Hle).
      rewrite (Horder id t Hin) in Hle. apply Z.leb_le in Hle. tauto.
    - intros (Hin & Hagent & Hstatus & Hle).
      rewrite (Horder id t Hin). apply Z.leb_le in Hle. tauto. }
  split.
  { rewrite getDailySpending_run, Hcall. reflexivity. }
  intros policy txAmount programId Hp Hs Hper projected limit.
  eexists. split.
  { exact (evaluateTransaction_verdict w _ _ _ policy
             (active_policy_some _ _ _ Hp) Hs). }
  unfold verdict. rewrite Hper.
  change (nadd (daily_spent (db w) (clock w) agentId) txAmount) with projected.
  change (SpendingPolicy.dailyLimitSol policy) with limit.
  split; intros Hgt; rewrite Hgt; [reflexivity|].
  pose proof (daily_reason_distinct projected limit policy
                (daily_spent (db w) (clock w) agentId) txAmount programId)
    as (Ha & Ht & Hw).
  destruct (not_allowlisted _ _);
    [intros Heq; symmetry in Heq; exact (Ha Heq)|].
  destruct (ngt txAmount (SpendingPolicy.requireApprovalAbove policy));
    intros Heq; symmetry in Heq; [exact (Ht Heq) | exact (Hw Heq)].
Qed.
End PolicyEngineTheorems.

(** The scenarios of the specification, run. *)
Example scenario_within_limits :
  fst (evaluateTransaction "agent-1" (5 # 100)%Q None Examples.world_fresh) =
  Return (mkEval true "Transaction within policy limits. Auto-approved.").
Proof. vm_compute. reflexivity. Qed.

Example scenario_per_tx_limit :
  fst (evaluateTransaction "agent-1" (6 # 10)%Q None Examples.world_fresh) =
  Return (mkEval false
            "Transaction amount 0.6 SOL exceeds per-tx limit of 0.5 SOL.").
Proof. vm_compute. reflexivity. Qed.

Example scenario_daily_limit :
  fst (evaluateTransaction "agent-1" (3 # 10)%Q None Examples.world_spent) =
  Return (mkEval false
            "Daily spending would reach 1.1000 SOL, exceeding daily limit of 1 SOL.").
Proof. vm_compute. reflexivity. Qed.

Example scenario_not_allowlisted :
  fst (evaluateTransaction "agent-1" (5 # 100)%Q (Some "Vote111")
         Examples.world_allowlist) =
  Return (mkEval false "Program Vote111 is not in the allowlisted programs.").
Proof. vm_compute. reflexivity. Qed.

Lemma example_active_policy (allowlist : list string)
    (txs : gmap string (AgentTransaction.t Q))
    (aps : gmap string (ApprovalRequest.t Q)) :
  the_active_policy
    (Examples.db_with {[ "policy-1" := Examples.policy1 allowlist ]} txs aps)
    "agent-1" (Examples.policy1 allowlist).
Proof.
  split; [exists "policy-1"; apply lookup_singleton_eq|].
  split; [reflexivity|]. split; [reflexivity|].
  intros id' p' Hl _ _. simpl in Hl.
  now apply lookup_singleton_Some in Hl as [_ <-].
Qed.

Lemma example_no_active_policy :
  no_active_policy (db Examples.world_no_policy) "agent-1".
Proof.
  intros id p Hl _. simpl in Hl.
  now apply lookup_singleton_Some in Hl as [_ <-].
Qed.

(** C1 at a world whose only policy for the agent is switched off. *)
Lemma evaluateTransaction_no_policy_witness :
  no_active_policy (db Examples.world_no_policy) "agent-1" /\
  fst (evaluateTransaction "agent-1" (5 # 100)%Q (Some Examples.jupiter)
         Examples.world_no_policy) =
  Return (mkEval false
            "No active spending policy found. Human approval required.").
Proof.
  split; [exact example_no_active_policy|].
  exact (proj1 (evaluateTransaction_no_policy_fail_closed
                  Examples.world_no_policy "agent-1" (5 # 100)%Q
                  (Some Examples.jupiter) example_no_active_policy) eq_refl).
Defined.

(** C2 at the scenario with 0.8 SOL spent today and 0.3 SOL proposed: the
    per-transaction condition holds, the daily one is the first violated. *)
Lemma evaluateTransaction_first_violated_witness :
  the_active_policy (db Examples.world_spent) "agent-1" (Examples.policy1 []) /\
  calls_succeed 2 (outcomes Examples.world_spent) = true /\
  first_violated target_permitted_or_empty (Examples.policy1 [])
    (daily_spent (db Examples.world_spent) (clock Examples.world_spent)
       "agent-1") (3 # 10)%Q None = Some DailyLimit /\
  fst (evaluateTransaction "agent-1" (3 # 10)%Q None Examples.world_spent) =
  Return (mkEval false
            "Daily spending would reach 1.1000 SOL, exceeding daily limit of 1 SOL.").
Proof.
  split; [apply example_active_policy|].
  split; [reflexivity|].
  assert (Hfirst :
            first_violated target_permitted_or_empty (Examples.policy1 [])
              (daily_spent (db Examples.world_spent)
                 (clock Examples.world_spent) "agent-1") (3 # 10)%Q None
            = Some DailyLimit) by (vm_compute; reflexivity).
  split; [exact Hfirst|].
  destruct (evaluateTransaction_first_violated_check Examples.world_spent
              "agent-1" (Examples.policy1 []) (3 # 10)%Q None
              (example_active_policy [] Examples.ledger ∅) eq_refl)
    as (_ & _ & Hviolated).
  destruct (Hviolated DailyLimit Hfirst) as [_ Hrun].
  rewrite Hrun. vm_compute. reflexivity.
Defined.

(** C2 as stated fails for a target program that is the empty string: the
    allowlist is not empty and does not contain it, so the condition on the
    target is violated, and every other condition holds; the code treats
    the empty string as no target and auto-approves. *)
Lemma evaluateTransaction_empty_target_counterexample :
  the_active_policy (db Examples.world_allowlist) "agent-1"
    (Examples.policy1 [Examples.jupiter]) /\
  calls_succeed 2 (outcomes Examples.world_allowlist) = true /\
  first_violated target_permitted (Examples.policy1 [Examples.jupiter])
    (daily_spent (db Examples.world_allowlist)
       (clock Examples.world_allowlist) "agent-1") (5 # 100)%Q (Some "")
  = Some Allowlist /\
  fst (evaluateTransaction "agent-1" (5 # 100)%Q (Some "")
         Examples.world_allowlist) =
  Return (mkEval true "Transaction within policy limits. Auto-approved.").
Proof.
  split; [apply example_active_policy|].
  split; [reflexivity|].
  split; vm_compute; reflexivity.
Qed.

(** The ISO strings of some times. *)
Example iso_text_examples :
  map iso_text [0; 129600000; 1709210096789; 253402300799999;
                253402300800000; -62167219200000; -62167219200001]
  = ["1970-01-01T00:00:00.000Z"; "1970-01-02T12:00:00.000Z";
     "2024-02-29T12:34:56.789Z"; "9999-12-31T23:59:59.999Z";
     "+010000-01-01T00:00:00.000Z"; "0000-01-01T00:00:00.000Z";
     "-000001-12-31T23:59:59.999Z"].
Proof. vm_compute. reflexivity. Qed.

(** [Date.UTC] gives the start of the day of the clock of the examples,
    and the start of a day 1900 years later for a day of the year 50. *)
Example start_of_utc_day_examples :
  start_of_utc_day Examples.noon = utc_day_start Examples.noon /\
  iso_text (-60000000000000) = "0068-09-03T13:20:00.000Z" /\
  iso_text (start_of_utc_day (-60000000000000)) = "1968-09-03T00:00:00.000Z".
Proof. vm_compute. repeat split; reflexivity. Qed.

(** The query of the ledger of the examples, where the strings compare as
    the times: the record of 0.75 + 0.05 SOL is the one that counts. *)
Example daily_spending_sum_on_the_ledger :
  (exists total, fst (getDailySpending "agent-1" Examples.world_spent)
                 = Return total /\ Qeq total (8 # 10)) /\
  exists counted : list (string * AgentTransaction.t Q),
    (forall id t, In (id, t) counted <->
                  transactions (db Examples.world_spent) !! id = Some t /\
                  counts_today (clock Examples.world_spent) "agent-1" t) /\
    fst (getDailySpending "agent-1" Examples.world_spent) =
    Return (sum_amount_plus_fee counted).
Proof.
  split; [eexists; split; [vm_compute; reflexivity | reflexivity]|].
  destruct (daily_spending_sum_in_range Examples.world_spent "agent-1" eq_refl)
    as (counted & _ & Hin & Hsum & _).
  - reflexivity.
  - intros id t Hstored.
    assert (Hcases : In (id, t) (docs (transactions (db Examples.world_spent))))
      by now apply in_docs.
    vm_compute in Hcases.
    repeat (destruct Hcases as [[= <- <-]|Hcases]; [vm_compute; reflexivity|]).
    destruct Hcases.
  - exists counted. split; assumption.
Qed.


(** ** The approval life cycle *)

Section LifecycleFacts.
Context {num : Type} `{JsNumber num}.

Lemma update_approval_run (w : World num) id f :
  update_approval id f w =
  match call_fails w with
  | Some code => (Throw code, after_call w)
  | None =>
      match approvals (db w) !! id with
      | None => (Throw "not-found", after_call w)
      | Some a =>
          (Return tt,
           with_db (set_approvals (<[id := f a]> (approvals (db w))) (db w))
             (after_call w))
      end
  end.
Proof.
  unfold update_approval. unfold bind at 1. rewrite external_call_run.
  destruct (call_fails w); [reflexivity|].
  run_M. now destruct (approvals (db w) !! id).
Qed.

Lemma set_approval_run (w : World num) id data :
  set_approval id data w =
  match call_fails w with
  | Some code => (Throw code, after_call w)
  | None =>
      (Return tt,
       with_db (set_approvals (<[id := data]> (approvals (db w))) (db w))
         (after_call w))
  end.
Proof.
  unfold set_approval. unfold bind at 1. rewrite external_call_run.
  now destruct (call_fails w).
Qed.

(** The status endpoint in one equation. *)
Lemma getApprovalStatus_run (w : World num) agentId approvalId :
  getApprovalStatus agentId approvalId w =
  match call_fails w with
  | Some _ => (Return internal_error, after_call w)
  | None =>
      match approvals (db w) !! approvalId with
      | None =>
          (Return (mkResponse 404 (ErrorBody "Approval request not found")),
           after_call w)
      | Some data =>
          if negb (String.eqb (ApprovalRequest.agentId data) agentId)
          then (Return (mkResponse 403
                          (ErrorBody "Not authorized to view this approval")),
                after_call w)
          else if bool_decide (ApprovalRequest.status data = pending) &&
                  (ApprovalRequest.expiresAt data <? clock w)
          then
            match call_fails (after_call w) with
            | Some _ => (Return internal_error, after_call (after_call w))
            | None =>
                (Return (mkResponse 200
                           (ApprovalStatusBody approvalId expired
                              (ApprovalRequest.createdAt data)
                              (ApprovalRequest.expiresAt data) None)),
                 with_db
                   (set_approvals
                      (<[approvalId := ApprovalRequest.with_status expired data]>
                         (approvals (db w))) (db w))
                   (after_call (after_call w)))
            end
          else
            (Return (mkResponse 200
                       (ApprovalStatusBody approvalId
                          (ApprovalRequest.status data)
                          (ApprovalRequest.createdAt data)
                          (ApprovalRequest.expiresAt data)
                          (Some (ApprovalRequest.respondedAt data)))),
             after_call w)
      end
  end.
Proof.
  unfold getApprovalStatus, try_catch. unfold bind at 1.
  rewrite external_call_run.
  destruct (call_fails w); [reflexivity|].
  unfold bind at 1. unfold get_db. simpl.
  destruct (approvals (db w) !! approvalId) as [data|] eqn:E; [|reflexivity].
  destruct (negb _); [reflexivity|].
  unfold bind at 1. unfold new_Date. simpl.
  destruct (_ && _); [|reflexivity].
  unfold bind at 1. rewrite update_approval_run. simpl. rewrite E.
  now destruct (call_fails (after_call w)).
Qed.
End LifecycleFacts.

Section LifecycleTheorems.
Context {num : Type} `{JsNumber num}.

(** What one poll does to a stored request: nothing, or the lazy expiry of
    a pending request whose time has passed. *)
Lemma getApprovalStatus_step (w : World num) caller polled approvalId :
  match approvals (db w) !! approvalId with
  | None =>
      approvals (db (snd (getApprovalStatus caller polled w))) !! approvalId
      = None
  | Some r =>
      approvals (db (snd (getApprovalStatus caller polled w))) !! approvalId
      = Some r \/
      (ApprovalRequest.status r = pending /\
       ApprovalRequest.expiresAt r < clock w /\
       approvals (db (snd (getApprovalStatus caller polled w))) !! approvalId
       = Some (ApprovalRequest.with_status expired r))
  end.
Proof.
  rewrite getApprovalStatus_run.
  assert (Hsame : match approvals (db w) !! approvalId with
                  | None => approvals (db w) !! approvalId = None
                  | Some r => approvals (db w) !! approvalId = Some r \/
                              (ApprovalRequest.status r = pending /\
                               ApprovalRequest.expiresAt r < clock w /\
                               approvals (db w) !! approvalId =
                               Some (ApprovalRequest.with_status expired r))
                  end).
  { destruct (approvals (db w) !! approvalId); auto. }
  destruct (call_fails w); [exact Hsame|].
  destruct (approvals (db w) !! polled) as [data|] eqn:E; [|exact Hsame].
  destruct (negb _); [exact Hsame|].
  destruct (bool_decide _ && _) eqn:Hexp; [|exact Hsame].
  destruct (call_fails (after_call w)); [exact Hsame|].
  apply andb_true_iff in Hexp as [Hpending Hpast].
  apply bool_decide_eq_true in Hpending. apply Z.ltb_lt in Hpast.
  simpl. destruct (decide (polled = approvalId)) as [->|Hne].
  - rewrite E, lookup_insert_eq. auto.
  - rewrite lookup_insert_ne by exact Hne. exact Hsame.
Qed.

Lemma after_poll_status (w : World num) (p : StatusPoll) approvalId s :
  stored_status w approvalId = Some s ->
  exists s', stored_status (after_poll w p) approvalId = Some s' /\
             (s' = s \/ (s = pending /\ s' = expired)).
Proof.
  unfold stored_status, after_poll. intros Hs.
  pose proof (getApprovalStatus_step
                (at_time (poll_time p) (poll_schedule p) w)
                (poll_agent p) (poll_approval p) approvalId) as Hstep.
  change (db (at_time (poll_time p) (poll_schedule p) w)) with (db w) in Hstep.
  destruct (approvals (db w) !! approvalId) as [r|]; [|discriminate].
  injection Hs as <-.
  destruct Hstep as [-> | (Hp & _ & ->)]; simpl; eauto.
Qed.

Lemma after_polls_expired (w : World num) (ps : list StatusPoll) approvalId :
  stored_status w approvalId = Some expired ->
  stored_status (after_polls w ps) approvalId = Some expired.
Proof.
  revert w. induction ps as [|p ps IH]; intros w Hs; [exact Hs|].
  simpl. apply IH.
  destruct (after_poll_status w p approvalId expired Hs)
    as (s' & Hs' & [-> | [Habs _]]); [exact Hs' | discriminate].
Qed.

(** Polls leave a request that is not pending as it is. *)
Lemma after_polls_terminal_record (w : World num) (ps : list StatusPoll)
    approvalId r :
  approvals (db w) !! approvalId = Some r ->
  ApprovalRequest.status r <> pending ->
  approvals (db (after_polls w ps)) !! approvalId = Some r.
Proof.
  revert w. induction ps as [|p ps IH]; intros w Hr Hs; [exact Hr|].
  simpl. apply IH; [|exact Hs].
  pose proof (getApprovalStatus_step
                (at_time (poll_time p) (poll_schedule p) w)
                (poll_agent p) (poll_approval p) approvalId) as Hstep.
  change (db (at_time (poll_time p) (poll_schedule p) w)) with (db w) in Hstep.
  rewrite Hr in Hstep.
  destruct Hstep as [Hkeep | (Habs & _)]; [exact Hkeep | contradiction].
Qed.

(** A poll that answers with a status answers [expired] for a request
    stored as [expired]. *)
Lemma getApprovalStatus_expired_answer (w : World num) caller approvalId resp :
  stored_status w approvalId = Some expired ->
  fst (getApprovalStatus caller approvalId w) = Return resp ->
  http_status resp = 200 ->
  status_in (body resp) = Some expired.
Proof.
  unfold stored_status. rewrite getApprovalStatus_run. intros Hs.
  destruct (call_fails w); [now intros [= <-]|].
  destruct (approvals (db w) !! approvalId) as [data|]; [|discriminate].
  injection Hs as Hs.
  destruct (negb _); [now intros [= <-]|].
  rewrite Hs. simpl. now intros [= <-].
Qed.

(** C5.  A status poll by the owning agent of a request stored as pending
    whose expiry time has passed ([now > expiresAt]) answers [expired] and
    stores [expired], when the read and the write succeed.  From then on,
    after any sequence of further polls (by any caller, at any time, with
    any failures), the stored status is [expired] and every poll that
    answers with a status answers [expired]; the owning agent is answered
    whenever the read succeeds.  And no poll changes a stored status
    except from [pending] to [expired]: none leaves [approved], [denied]
    or [expired], none leads back to [pending]. *)
Theorem getApprovalStatus_lazy_expiry_monotone :
  (forall (w : World num) agentId approvalId record,
     approvals (db w) !! approvalId = Some record ->
     ApprovalRequest.agentId record = agentId ->
     ApprovalRequest.status record = pending ->
     ApprovalRequest.expiresAt record < clock w ->
     calls_succeed 2 (outcomes w) = true ->
     let w1 := snd (getApprovalStatus agentId approvalId w) in
     fst (getApprovalStatus agentId approvalId w) =
     Return (mkResponse 200
               (ApprovalStatusBody approvalId expired
                  (ApprovalRequest.createdAt record)
                  (ApprovalRequest.expiresAt record) None)) /\
     approvals (db w1) !! approvalId =
     Some (ApprovalRequest.with_status expired record) /\
     forall (polls : list StatusPoll) caller now schedule,
       let w2 := at_time now schedule (after_polls w1 polls) in
       stored_status w2 approvalId = Some expired /\
       (forall resp,
          fst (getApprovalStatus caller approvalId w2) = Return resp ->
          http_status resp = 200 ->
          status_in (body resp) = Some expired) /\
       (caller = agentId -> calls_succeed 1 schedule = true ->
        fst (getApprovalStatus caller approvalId w2) =
        Return (mkResponse 200
                  (ApprovalStatusBody approvalId expired
                     (ApprovalRequest.createdAt record)
                     (ApprovalRequest.expiresAt record)
                     (Some (ApprovalRequest.respondedAt record))))))
  /\
  (forall (w : World num) (p : StatusPoll) approvalId s,
     stored_status w approvalId = Some s ->
     exists s', stored_status (after_poll w p) approvalId = Some s' /\
                (s' = s \/ (s = pending /\ s' = expired))).
Proof.
  split; [|exact after_poll_status].
  intros w agentId approvalId record Hrec Hagent Hpending Hpast Hcalls w1.
  assert (Hrun : getApprovalStatus agentId approvalId w =
                 (Return (mkResponse 200
                            (ApprovalStatusBody approvalId expired
                               (ApprovalRequest.createdAt record)
                               (ApprovalRequest.expiresAt record) None)),
                  with_db
                    (set_approvals
                       (<[approvalId := ApprovalRequest.with_status expired record]>
                          (approvals (db w))) (db w))
                    (after_call (after_call w)))).
  { rewrite getApprovalStatus_run, Hrec.
    apply calls_succeed_S in Hcalls as [-> Hcalls].
    apply calls_succeed_S in Hcalls as [-> _].
    rewrite Hagent, String.eqb_refl, Hpending.
    rewrite bool_decide_eq_true_2 by reflexivity.
    apply Z.ltb_lt in Hpast. now rewrite Hpast. }
  assert (Hstored : approvals (db w1) !! approvalId =
                    Some (ApprovalRequest.with_status expired record)).
  { subst w1. rewrite Hrun. simpl. apply lookup_insert_eq. }
  split; [now rewrite Hrun|]. split; [exact Hstored|].
  intros polls caller now schedule w2.
  assert (Hlater : stored_status (after_polls w1 polls) approvalId
                   = Some expired).
  { apply after_polls_expired. unfold stored_status. now rewrite Hstored. }
  assert (Hw2 : stored_status w2 approvalId = Some expired) by exact Hlater.
  split; [exact Hw2|]. split.
  - intros resp. now apply getApprovalStatus_expired_answer.
  - intros -> Hread. rewrite getApprovalStatus_run.
    apply (calls_succeed_S 0 w2) in Hread as [-> _].
    assert (Hdata : approvals (db w2) !! approvalId =
                    Some (ApprovalRequest.with_status expired record)).
    { apply (after_polls_terminal_record w1 polls); [exact Hstored|].
      discriminate. }
    rewrite Hdata. simpl. now rewrite Hagent, String.eqb_refl.
Qed.
End LifecycleTheorems.

(** ** Creating an approval request *)

Section CreationFacts.
Context {num : Type} `{JsNumber num}.

(** The evaluator only consumes the schedule of the world. *)
Lemma evaluateTransaction_world (w : World num) agentId txAmount programId :
  let w' := snd (evaluateTransaction agentId txAmount programId w) in
  db w' = db w /\ clock w' = clock w /\ random w' = random w /\
  drawn w' = drawn w /\ sent w' = sent w.
Proof.
  rewrite evaluateTransaction_run.
  destruct (call_fails w); [simpl; auto|].
  destruct (active_policy (db w) agentId); [|simpl; auto].
  simpl. destruct (ngt _ _); [simpl; auto|].
  destruct (call_fails (after_call w)); simpl; auto.
Qed.

Lemma update_user_run (w : World num) id f :
  update_user id f w =
  match call_fails w with
  | Some code => (Throw code, after_call w)
  | None =>
      match users (db w) !! id with
      | None => (Throw "not-found", after_call w)
      | Some u =>
          (Return tt,
           with_db (set_users (<[id := f u]> (users (db w))) (db w))
             (after_call w))
      end
  end.
Proof.
  unfold update_user. unfold bind at 1. rewrite external_call_run.
  destruct (call_fails w); [reflexivity|].
  run_M. now destruct (users (db w) !! id).
Qed.

(** A push notification leaves every collection but [users] as it is. *)
Lemma sendPushToOwner_keeps (w : World num) ownerId title text data :
  same_but_users w (snd (sendPushToOwner ownerId title text data w)).
Proof.
  destruct (sendPushToOwner ownerId title text data w) as [r w'] eqn:E.
  unfold sendPushToOwner in E. unfold bind at 1 in E.
  rewrite external_call_run in E.
  destruct (call_fails w); [injection E as <- <-; repeat split|].
  unfold bind at 1 in E. unfold get_db in E. simpl in E.
  destruct (users (db w) !! ownerId) as [user|];
    [|injection E as <- <-; repeat split].
  destruct (_ || _); [injection E as <- <-; repeat split|].
  unfold try_catch, messaging_send in E. unfold bind at 1 in E.
  rewrite external_call_run in E.
  destruct (call_fails (after_call w)) as [code|];
    [|injection E as <- <-; repeat split].
  unfold bind at 1 in E.
  destruct (stale_token code); [|injection E as <- <-; repeat split].
  rewrite update_user_run in E.
  destruct (call_fails (after_call (after_call w)));
    [injection E as <- <-; repeat split|].
  simpl in E.
  destruct (users (db w) !! ownerId); injection E as <- <-; repeat split.
Qed.
End CreationFacts.

Section CreationTheorems.
Context {num : Type} `{JsNumber num}.

(** Whenever the creation of an approval request is answered 201, the
    stored request was created at the time of the request; it expires
    that time plus the requested TTL in minutes, 15 when none is given;
    if the policy evaluator auto-approved, it is stored directly as
    [approved] with [respondedAt] equal to the creation time; if human
    review is required, it is stored as [pending] without [respondedAt]. *)
Lemma requestApproval_created_record (w : World num) (agent : Agent.t)
    (request : ApprovalRequestBody num) (resp : Response) :
  fst (requestApproval agent request w) = Return resp ->
  http_status resp = 201 ->
  let w' := snd (requestApproval agent request w) in
  exists estimatedSolCost evaluation approvalId record,
    req_estimatedSolCost request = Some estimatedSolCost /\
    fst (evaluateTransaction (Agent.id agent) estimatedSolCost
           (req_targetProgram request) w) = Return evaluation /\
    body resp = ApprovalCreatedBody approvalId (ApprovalRequest.status record)
                  (autoApproved evaluation) (reason evaluation) /\
    approvals (db w') !! approvalId = Some record /\
    ApprovalRequest.createdAt record = clock w /\
    ApprovalRequest.expiresAt record =
      clock w + match req_expiresInMinutes request with
                | Some minutes => minutes
                | None => 15
                end * 60 * 1000 /\
    (autoApproved evaluation = true ->
     ApprovalRequest.status record = approved /\
     ApprovalRequest.respondedAt record
     = Some (ApprovalRequest.createdAt record)) /\
    (autoApproved evaluation = false ->
     ApprovalRequest.status record = pending /\
     ApprovalRequest.respondedAt record = None).
Proof.
  destruct (requestApproval agent request w) as [r w'] eqn:E. simpl.
  intros -> Hcreated.
  unfold requestApproval, try_catch in E.
  destruct (req_estimatedSolCost request) as [cost|];
    [|injection E as <- <-; discriminate].
  destruct (_ || _); [injection E as <- <-; discriminate|].
  destruct (nlt cost (nlit 0)); [injection E as <- <-; discriminate|].
  unfold bind at 1 in E.
  pose proof (evaluateTransaction_world w (Agent.id agent) cost
                (req_targetProgram request)) as (Hdb & Hclock & _).
  destruct (evaluateTransaction (Agent.id agent) cost
              (req_targetProgram request) w) as [[evaluation|e] w1] eqn:Eev;
    [|injection E as <- <-; discriminate].
  simpl in Hdb, Hclock.
  unfold bind at 1 in E. unfold new_Date in E. simpl in E.
  unfold bind at 1 in E. unfold draw_random in E. simpl in E.
  unfold bind at 1 in E. unfold toISOString in E.
  destruct (valid_time _); [|injection E as <- <-; discriminate].
  unfold ret at 1 in E. unfold bind at 1 in E.
  rewrite set_approval_run in E.
  match type of E with
  | context [call_fails ?w2] =>
      destruct (call_fails w2); [injection E as <- <-; discriminate|]
  end.
  unfold bind at 1 in E.
  exists cost, evaluation.
  destruct (autoApproved evaluation) eqn:Hauto; simpl in E.
  - injection E as <- <-. simpl.
    match goal with |- context [<[?k := ?v]> _] => exists k, v end.
    split; [reflexivity|]. split; [now rewrite Eev|].
    split; [reflexivity|]. split; [apply lookup_insert_eq|]. simpl.
    rewrite Hclock. repeat split; intros; congruence.
  - match type of E with
    | context [sendPushToOwner ?o ?t ?b ?d ?w2] =>
        pose proof (sendPushToOwner_keeps w2 o t b d) as (Hkeep & _);
        destruct (sendPushToOwner o t b d w2) as [[[]|e] w3]
    end; [|injection E as <- <-; discriminate].
    injection E as <- <-. simpl in Hkeep. simpl.
    match type of Hkeep with context [<[?k := ?v]> _] => exists k, v end.
    split; [reflexivity|]. split; [now rewrite Eev|].
    split; [reflexivity|].
    split; [rewrite Hkeep; apply lookup_insert_eq|]. simpl.
    rewrite Hclock. repeat split; intros; congruence.
Qed.

(** The handler always answers: whatever is thrown inside is answered 500. *)
Lemma requestApproval_answers (w : World num) (agent : Agent.t)
    (request : ApprovalRequestBody num) :
  exists resp, fst (requestApproval agent request w) = Return resp.
Proof.
  unfold requestApproval, try_catch.
  match goal with
  | |- context [let (_, _) := ?m w in _] => destruct (m w) as [[r|e] w1]
  end; eauto.
Qed.

(** What an answer other than 201 leaves behind: the [approvals]
    collection as it was, or, when the answer is 500 because notifying the
    owner failed, the collection with the new pending request. *)
Lemma requestApproval_failure_cases (w : World num) (agent : Agent.t)
    (request : ApprovalRequestBody num) (resp : Response) :
  fst (requestApproval agent request w) = Return resp ->
  http_status resp <> 201 ->
  let w' := snd (requestApproval agent request w) in
  approvals (db w') = approvals (db w) \/
  (http_status resp = 500 /\
   exists approvalId record,
     approvals (db w') = <[approvalId := record]> (approvals (db w)) /\
     ApprovalRequest.status record = pending).
Proof.
  destruct (requestApproval agent request w) as [r w'] eqn:E. simpl.
  intros -> Hfailed.
  unfold requestApproval, try_catch in E.
  destruct (req_estimatedSolCost request) as [cost|];
    [|injection E as <- <-; now left].
  destruct (_ || _); [injection E as <- <-; now left|].
  destruct (nlt cost (nlit 0)); [injection E as <- <-; now left|].
  unfold bind at 1 in E.
  pose proof (evaluateTransaction_world w (Agent.id agent) cost
                (req_targetProgram request)) as (Hdb & _).
  destruct (evaluateTransaction (Agent.id agent) cost
              (req_targetProgram request) w) as [[evaluation|e] w1];
    simpl in Hdb; [|injection E as <- <-; left; now rewrite Hdb].
  unfold bind at 1 in E. unfold new_Date in E. simpl in E.
  unfold bind at 1 in E. unfold draw_random in E. simpl in E.
  unfold bind at 1 in E. unfold toISOString in E.
  destruct (valid_time _);
    [|injection E as <- <-; left; simpl; now rewrite Hdb].
  unfold ret at 1 in E. unfold bind at 1 in E.
  rewrite set_approval_run in E.
  match type of E with
  | context [call_fails ?w2] =>
      destruct (call_fails w2);
      [injection E as <- <-; left; simpl; now rewrite Hdb|]
  end.
  unfold bind at 1 in E.
  destruct (autoApproved evaluation) eqn:Hauto; simpl in E.
  - injection E as <- <-. now contradiction Hfailed.
  - match type of E with
    | context [sendPushToOwner ?o ?t ?b ?d ?w2] =>
        pose proof (sendPushToOwner_keeps w2 o t b d) as (Hkeep & _);
        destruct (sendPushToOwner o t b d w2) as [[[]|e] w3]
    end; injection E as <- <-; [now contradiction Hfailed|].
    right. split; [reflexivity|]. simpl in Hkeep.
    eexists _, _. split; [rewrite Hkeep, Hdb; reflexivity|]. reflexivity.
Qed.
End CreationTheorems.

(** ** Registration *)

Section RegistrationFacts.
Context {num : Type} `{JsNumber num}.
Variable hashApiKey : string -> string.

Lemma commit_run (w : World num) (batch : list (Write num)) :
  commit batch w =
  match call_fails w with
  | Some code => (Throw code, after_call w)
  | None =>
      match apply_writes (db w) batch with
      | Some d' => (Return tt, with_db d' (after_call w))
      | None => (Throw "not-found", after_call w)
      end
  end.
Proof.
  unfold commit. unfold bind at 1. rewrite external_call_run.
  destruct (call_fails w); [reflexivity|].
  run_M. now destruct (apply_writes (db w) batch).
Qed.

(** The reasons of the four checks and of an approval differ from the
    fail-safe reason. *)
Lemma verdict_not_fail_safe (policy : SpendingPolicy.t num)
    (dailySpent txAmount : num) (programId : option string) :
  reason (verdict policy dailySpent txAmount programId) <> no_policy_reason.
Proof.
  unfold verdict.
  repeat match goal with
         | |- context [if ?b then _ else _] => destruct b
         end; discriminate.
Qed.

(** An agent with a stored active policy is never in the fail-safe state. *)
Lemma stored_policy_found (w' : World num) agentId policyId policy :
  policies (db w') !! policyId = Some policy ->
  SpendingPolicy.agentId policy = agentId ->
  SpendingPolicy.isActive policy = true ->
  ~ no_active_policy (db w') agentId /\
  forall now schedule,
    (calls_succeed 1 schedule = true ->
     exists found,
       fst (loadPolicy agentId (at_time now schedule w'))
       = Return (Some found)) /\
    (forall txAmount programId r,
       fst (evaluateTransaction agentId txAmount programId
              (at_time now schedule w')) = Return r ->
       reason r <> no_policy_reason).
Proof.
  intros Hpol Hagent Hactive. split.
  { intros Hno. specialize (Hno _ _ Hpol Hagent). congruence. }
  intros now schedule.
  destruct (active_policy_exists (db w') agentId _ _ Hpol Hagent Hactive)
    as [found Efound].
  change (db w') with (db (at_time now schedule w')) in Efound.
  split.
  - intros Hs. exists found. rewrite loadPolicy_run.
    apply (calls_succeed_S 0 (at_time now schedule w')) in Hs as [-> _].
    now rewrite Efound.
  - intros txAmount programId r. rewrite evaluateTransaction_run, Efound.
    destruct (call_fails _); [discriminate|]. simpl.
    destruct (ngt _ _); [intros [= <-]; apply verdict_not_fail_safe|].
    destruct (call_fails _); [discriminate|].
    intros [= <-]; apply verdict_not_fail_safe.
Qed.

(** C10.  Registration always answers.  An answer other than 201 leaves
    the database as it was.  With the answer 201 the database holds, from
    one atomic batch, the agent record under the returned id and a policy
    of that agent which is active, with daily limit 1.0, per-transaction
    limit 0.5, an empty allowlist and approval threshold 0.1; the agent
    then has an active policy: [loadPolicy] finds one whenever its query
    succeeds, and the evaluator never answers with the fail-safe reason
    of a missing policy. *)
Theorem registerAgent_creates_default_policy (w : World num)
    (request : RegisterBody) :
  let w' := snd (registerAgent hashApiKey request w) in
  exists resp,
    fst (registerAgent hashApiKey request w) = Return resp /\
    (http_status resp <> 201 -> db w' = db w) /\
    (http_status resp = 201 ->
     exists agentId apiKey message policyId agent policy,
       body resp = RegisteredBody agentId apiKey message /\
       agents (db w') !! agentId = Some agent /\
       Agent.id agent = agentId /\
       policies (db w') !! policyId = Some policy /\
       SpendingPolicy.agentId policy = agentId /\
       SpendingPolicy.isActive policy = true /\
       SpendingPolicy.dailyLimitSol policy = nlit 1 /\
       SpendingPolicy.perTxLimitSol policy = nlit (5 # 10) /\
       SpendingPolicy.allowlistedPrograms policy = [] /\
       SpendingPolicy.requireApprovalAbove policy = nlit (1 # 10) /\
       ~ no_active_policy (db w') agentId /\
       forall now schedule,
         (calls_succeed 1 schedule = true ->
          exists found,
            fst (loadPolicy agentId (at_time now schedule w'))
            = Return (Some found)) /\
         (forall txAmount programId r,
            fst (evaluateTransaction agentId txAmount programId
                   (at_time now schedule w')) = Return r ->
            reason r <> no_policy_reason)).
Proof.
  destruct (registerAgent hashApiKey request w) as [r w'] eqn:E. simpl.
  unfold registerAgent, try_catch in E.
  destruct (_ || _);
    [injection E as <- <-; eexists; split; [reflexivity|];
     split; [reflexivity | discriminate]|].
  destruct (negb _);
    [injection E as <- <-; eexists; split; [reflexivity|];
     split; [reflexivity | discriminate]|].
  unfold bind at 1 in E. rewrite external_call_run in E.
  destruct (call_fails w);
    [injection E as <- <-; eexists; split; [reflexivity|];
     split; [reflexivity | discriminate]|].
  unfold bind at 1 in E. unfold get_db in E. simpl in E.
  destruct (users (db w) !! nullish (reg_ownerId request) "") as [u|] eqn:Eu;
    [|injection E as <- <-; eexists; split; [reflexivity|];
      split; [reflexivity | discriminate]].
  unfold bind at 1 in E. unfold generateApiKey, draw_random in E. simpl in E.
  unfold bind at 1 in E. unfold new_Date in E. simpl in E.
  unfold bind at 1 in E. simpl in E.
  unfold bind at 1 in E. simpl in E.
  unfold bind at 1 in E. rewrite commit_run in E.
  match type of E with
  | context [call_fails ?w2] =>
      destruct (call_fails w2);
      [injection E as <- <-; eexists; split; [reflexivity|];
       split; [reflexivity | discriminate]|]
  end.
  simpl in E. rewrite Eu in E. simpl in E.
  injection E as <- <-. eexists. split; [reflexivity|].
  split; [intros Hne; now contradiction Hne|]. intros _.
  match goal with
  | |- context [ set_policies (<[?pid := ?pol]> _)
                   (set_agents (<[?aid := ?ag]> _) _) ] =>
      exists aid, (random w (drawn w)),
        "Store this API key securely. It will not be shown again.",
        pid, ag, pol
  end.
  split; [reflexivity|]. split; [apply lookup_insert_eq|].
  split; [reflexivity|].
  match goal with
  | |- ?l = Some ?pol /\ _ =>
      assert (Hpol : l = Some pol) by apply lookup_insert_eq
  end.
  split; [exact Hpol|].
  do 6 (split; [reflexivity|]).
  exact (stored_policy_found _ _ _ _ Hpol eq_refl eq_refl).
Qed.
End RegistrationFacts.

(** ** Runs of the life cycle *)

Section ClientFacts.
Context {num : Type}.

Lemma respondToApproval_run (w : World num) approvalId response :
  respondToApproval approvalId response w =
  match call_fails w with
  | Some code => (Throw code, after_call w)
  | None =>
      match approvals (db w) !! approvalId with
      | None => (Throw "not-found", after_call w)
      | Some a =>
          (Return tt,
           with_db
             (set_approvals
                (<[approvalId :=
                     ApprovalRequest.with_response (status_of_response response)
                       (clock w) a]> (approvals (db w))) (db w))
             (after_call w))
      end
  end.
Proof.
  unfold respondToApproval. unfold bind at 1. unfold new_Date.
  now rewrite update_approval_run.
Qed.

(** [respondToApproval] writes the response on any stored request,
    whatever its status. *)
Lemma respondToApproval_overwrites (w : World num) approvalId response a :
  approvals (db w) !! approvalId = Some a ->
  call_fails w = None ->
  fst (respondToApproval approvalId response w) = Return tt /\
  approvals (db (snd (respondToApproval approvalId response w))) !! approvalId
  = Some (ApprovalRequest.with_response (status_of_response response)
            (clock w) a).
Proof.
  intros Ha Hc. rewrite respondToApproval_run, Hc, Ha. simpl.
  split; [reflexivity | apply lookup_insert_eq].
Qed.
End ClientFacts.


(** The same on a request stored as [expired]. *)
Example respondToApproval_overwrites_expired :
  let w := Examples.world_with_approval expired None in
  approvals (db (snd (respondToApproval "approval-1" respond_denied w)))
    !! "approval-1"
  = Some (Examples.approval1 denied (Some Examples.noon)).
Proof. vm_compute. reflexivity. Qed.

(** C7, the code at the failing input.  The policy is read and the
    approval request is written; then the read of the owner's user
    document, made to notify the owner, fails.  The caller is answered 500
    and the request, absent before, is stored as [pending]. *)
Theorem requestApproval_failure_leaves_record :
  let w := Examples.world_notification_fails in
  let request := Examples.swap_request (2 # 1)%Q None in
  let w' := snd (requestApproval Examples.agent1 request w) in
  fst (requestApproval Examples.agent1 request w) = Return internal_error /\
  approvals (db w) !! "doc0" = None /\
  exists record,
    approvals (db w') !! "doc0" = Some record /\
    ApprovalRequest.status record = pending /\
    ApprovalRequest.agentId record = "agent-1".
Proof.
  vm_compute. split; [reflexivity|]. split; [reflexivity|].
  eexists. split; [reflexivity|]. split; reflexivity.
Qed.

(** C5 at a pending request that expired at 60000 ms, polled at noon of
    the next day, then polled again by its agent. *)
Lemma getApprovalStatus_lazy_expiry_witness :
  let w := Examples.world_with_approval pending None in
  let w1 := snd (getApprovalStatus "agent-1" "approval-1" w) in
  fst (getApprovalStatus "agent-1" "approval-1" w)
  = Return (mkResponse 200
              (ApprovalStatusBody "approval-1" expired 0 60000 None)) /\
  stored_status w1 "approval-1" = Some expired /\
  fst (getApprovalStatus "agent-1" "approval-1"
         (at_time (Examples.noon + 1) []
            (after_polls w1 [mkPoll "agent-2" "approval-1" Examples.noon []])))
  = Return (mkResponse 200
              (ApprovalStatusBody "approval-1" expired 0 60000 (Some None))).
Proof.
  intros w w1.
  destruct (proj1 (getApprovalStatus_lazy_expiry_monotone (num := Q))
              w "agent-1" "approval-1" (Examples.approval1 pending None)
              eq_refl eq_refl eq_refl eq_refl eq_refl)
    as (Hanswer & Hstored & Hlater).
  split; [exact Hanswer|].
  split; [exact (f_equal (fmap ApprovalRequest.status) Hstored)|].
  destruct (Hlater [mkPoll "agent-2" "approval-1" Examples.noon []]
              "agent-1" (Examples.noon + 1) []) as (_ & _ & Hagain).
  exact (Hagain eq_refl eq_refl).
Defined.

(** The scenario of the specification: a request created with a TTL of one
    minute and polled two minutes later goes from [pending] to [expired]
    on that poll. *)
Example scenario_ttl_expiry :
  let created :=
    snd (requestApproval Examples.agent1
           (Examples.swap_request (2 # 10)%Q (Some 1)) Examples.world_fresh) in
  stored_status created "doc0" = Some pending /\
  fst (getApprovalStatus "agent-1" "doc0"
         (at_time (Examples.noon + 120000) [] created))
  = Return (mkResponse 200
              (ApprovalStatusBody "doc0" expired Examples.noon
                 (Examples.noon + 60000) None)) /\
  stored_status
    (snd (getApprovalStatus "agent-1" "doc0"
            (at_time (Examples.noon + 120000) [] created))) "doc0"
  = Some expired.
Proof. vm_compute. repeat split; reflexivity. Qed.

(** C10 at a registration by an existing owner. *)
Lemma registerAgent_creates_default_policy_witness :
  let w := Examples.world_fresh in
  let w' := snd (registerAgent Examples.hash Examples.registration w) in
  fst (registerAgent Examples.hash Examples.registration w)
  = Return (mkResponse 201
              (RegisteredBody "doc1" "doc0"
                 "Store this API key securely. It will not be shown again.")) /\
  exists policy,
    policies (db w') !! "doc2" = Some policy /\
    SpendingPolicy.agentId policy = "doc1" /\
    SpendingPolicy.isActive policy = true /\
    fst (evaluateTransaction "doc1" (5 # 100)%Q None w')
    = Return (mkEval true "Transaction within policy limits. Auto-approved.").
Proof.
  intros w w'.
  destruct (registerAgent_creates_default_policy Examples.hash w
              Examples.registration) as (resp & Hresp & _ & Hcreated).
  assert (Hrun : fst (registerAgent Examples.hash Examples.registration w)
                 = Return (mkResponse 201
                             (RegisteredBody "doc1" "doc0"
                                "Store this API key securely. It will not be shown again.")))
    by (vm_compute; reflexivity).
  split; [exact Hrun|].
  rewrite Hrun in Hresp. injection Hresp as <-.
  destruct (Hcreated eq_refl)
    as (agentId & apiKey & message & policyId & agent & policy & _ & _ & _
        & _ & _ & _ & _).
  eexists. split; [vm_compute; reflexivity|].
  split; [reflexivity|]. split; [reflexivity|].
  vm_compute. reflexivity.
Defined.

(** ** The semantic type of an event *)

Lemma in_all_ascii (c : ascii) : In c all_ascii.
Proof.
  unfold all_ascii. rewrite <- (ascii_nat_embedding c).
  apply in_map, in_seq. pose proof (nat_ascii_bounded c). lia.
Qed.

(** Upper-casing decides equality up to case against a character that is
    not a lower-case letter. *)
Lemma same_letter_upper (a k : ascii) :
  in_range "a" "z" k = false ->
  same_letter a k = Ascii.eqb (AsciiString.upper_ascii a) k.
Proof.
  assert (Hall : forallb (fun a => forallb (fun k =>
                   in_range "a" "z" k ||
                   Bool.eqb (same_letter a k)
                     (Ascii.eqb (AsciiString.upper_ascii a) k))
                   all_ascii) all_ascii = true) by (vm_compute; reflexivity).
  intros Hk. rewrite forallb_forall in Hall.
  specialize (Hall a (in_all_ascii a)). rewrite forallb_forall in Hall.
  specialize (Hall k (in_all_ascii k)). rewrite Hk in Hall.
  now apply Bool.eqb_prop in Hall.
Qed.

Lemma equal_ignoring_case_upper (k : string) :
  no_lower_case k = true ->
  forall s, equal_ignoring_case s k = String.eqb (AsciiString.upper s) k.
Proof.
  unfold no_lower_case.
  induction k as [|b k IH]; intros Hk [|a s]; simpl; try reflexivity.
  simpl in Hk. apply andb_true_iff in Hk as [Hb Hk].
  apply negb_true_iff in Hb.
  now rewrite (same_letter_upper a b Hb), (IH Hk).
Qed.

(** The switch on the upper-cased name. *)
Lemma mapHeliusType_switch `{JsString} (raw : string) :
  (toUpperCase raw = "TRANSFER" \/ toUpperCase raw = "TOKEN_TRANSFER" ->
   mapHeliusType raw = transfer) /\
  (toUpperCase raw = "SWAP" -> mapHeliusType raw = swap) /\
  (toUpperCase raw = "STAKE_SOL" \/ toUpperCase raw = "STAKE_TOKEN" ->
   mapHeliusType raw = stake) /\
  (toUpperCase raw = "UNKNOWN" -> mapHeliusType raw = unknown) /\
  (~ In (toUpperCase raw) indexer_names ->
   mapHeliusType raw = program_interaction).
Proof.
  unfold mapHeliusType, indexer_names.
  generalize (toUpperCase raw). intros normalized.
  repeat match goal with
         | |- context [String.eqb normalized ?k] =>
             let E := fresh "E" in
             destruct (String.eqb normalized k) eqn:E;
             [apply String.eqb_eq in E; subst normalized;
              repeat split;
              try (intros [?|?]; discriminate || reflexivity);
              try (intros ?; discriminate || reflexivity);
              try (intros Hn; exfalso; apply Hn; cbn; tauto)|
              apply String.eqb_neq in E]
         end.
  repeat split; try (intros [?|?]; congruence); try congruence.
Qed.

(** C8.  The semantic type of a raw indexer type.  The raw type is
    upper-cased and matched against the names of the table: [transfer]
    for TRANSFER and TOKEN_TRANSFER, [swap] for SWAP, [stake] for
    STAKE_SOL and STAKE_TOKEN, [unknown] for UNKNOWN, and
    [program_interaction] for every string whose upper-casing is none of
    these names.  This holds of every raw string and every upper-casing.
    For a raw type of ASCII characters, on which the upper-casing is that
    of the letters of ASCII, the match is the match of the names letter
    by letter whatever the case of each letter. *)
Theorem mapHeliusType_table `{JsString} (raw : string) :
  ((toUpperCase raw = "TRANSFER" \/ toUpperCase raw = "TOKEN_TRANSFER" ->
    mapHeliusType raw = transfer) /\
   (toUpperCase raw = "SWAP" -> mapHeliusType raw = swap) /\
   (toUpperCase raw = "STAKE_SOL" \/ toUpperCase raw = "STAKE_TOKEN" ->
    mapHeliusType raw = stake) /\
   (toUpperCase raw = "UNKNOWN" -> mapHeliusType raw = unknown) /\
   (~ In (toUpperCase raw) indexer_names ->
    mapHeliusType raw = program_interaction)) /\
  ((forall s, is_ascii s = true -> toUpperCase s = AsciiString.upper s) ->
   is_ascii raw = true ->
   (is_one_of ["TRANSFER"; "TOKEN_TRANSFER"] raw = true ->
    mapHeliusType raw = transfer) /\
   (is_one_of ["SWAP"] raw = true -> mapHeliusType raw = swap) /\
   (is_one_of ["STAKE_SOL"; "STAKE_TOKEN"] raw = true ->
    mapHeliusType raw = stake) /\
   (is_one_of ["UNKNOWN"] raw = true -> mapHeliusType raw = unknown) /\
   (is_one_of indexer_names raw = false ->
    mapHeliusType raw = program_interaction)).
Proof.
  split; [apply mapHeliusType_switch|].
  intros Hupper Hascii.
  unfold is_one_of, indexer_names, existsb.
  rewrite !equal_ignoring_case_upper by reflexivity.
  unfold mapHeliusType. rewrite (Hupper raw Hascii).
  generalize (AsciiString.upper raw). intros normalized.
  repeat match goal with
         | |- context [String.eqb normalized ?k] =>
             let E := fresh "E" in
             destruct (String.eqb normalized k) eqn:E;
             [apply String.eqb_eq in E; subst normalized;
              repeat split; discriminate || reflexivity|]
         end.
  repeat split; discriminate || reflexivity.
Qed.

Example mapHeliusType_swap_mixed_case : mapHeliusType "Swap" = swap.
Proof. reflexivity. Qed.

Example mapHeliusType_unknown : mapHeliusType "unknown" = unknown.
Proof. reflexivity. Qed.

Example mapHeliusType_other : mapHeliusType "NFT_MINT" = program_interaction.
Proof. reflexivity. Qed.

(** ** The ingestion pipeline *)

Section IngestionFacts.
Context {num : Type} `{JsNumber num} `{JsString}.

(** The block of one event in one equation. *)
Lemma process_transaction_run (tx : HeliusEnhancedTransaction.t num)
    (batch : list (Write num)) (tallies : list (string * NotificationInfo))
    (w : World num) :
  process_transaction tx batch tallies w =
  match HeliusEnhancedTransaction.nativeTransfers tx,
        HeliusEnhancedTransaction.tokenTransfers tx with
  | Some nativeTransfers, Some tokenTransfers =>
      if valid_time (HeliusEnhancedTransaction.timestamp tx * 1000) then
        match call_fails w with
        | Some code => (Throw code, after_call w)
        | None =>
            let record :=
              normalized_record tx nativeTransfers tokenTransfers (clock w)
                (random w (drawn w)) in
            match
              limit 1
                (where_
                   (fun a =>
                      includes (Agent.walletAddress a)
                        [AgentTransaction.from (record None);
                         AgentTransaction.to (record None)])
                   (docs (agents (db w))))
            with
            | agentDoc :: _ =>
                (Return
                   ((batch ++ [UpdateAgentLastSeen (fst agentDoc) (clock w)]) ++
                    [SetTransaction (random w (drawn w))
                       (record (Some (fst agentDoc)))],
                    tally (fst agentDoc)
                      (mkInfo (Agent.name (snd agentDoc))
                         (Agent.ownerId (snd agentDoc)) 1) tallies),
                 after_draw (after_call w))
            | [] =>
                (Return
                   (batch ++
                    [SetTransaction (random w (drawn w)) (record None)],
                    tallies),
                 after_draw (after_call w))
            end
        end
      else (Throw "RangeError", w)
  | None, _ => (Throw "TypeError", w)
  | Some _, None => (Throw "TypeError", w)
  end.
Proof.
  unfold process_transaction, array_of.
  destruct (HeliusEnhancedTransaction.nativeTransfers tx) as [nts|];
    [|reflexivity].
  unfold bind at 1. unfold ret at 1.
  destruct (HeliusEnhancedTransaction.tokenTransfers tx) as [tts|];
    [|reflexivity].
  unfold bind at 1. unfold ret at 1.
  unfold bind at 1. unfold toISOString.
  destruct (valid_time _); [|reflexivity].
  unfold ret at 1. unfold bind at 1. unfold new_Date.
  unfold bind at 1. rewrite external_call_run.
  destruct (call_fails w); [reflexivity|].
  unfold bind at 1. unfold get_db.
  unfold normalized_record, or_else, if_truthy, truthy. simpl.
  destruct nts as [|primaryTransfer nts], tts as [|primaryTokenTx tts],
    (HeliusEnhancedTransaction.transactionError tx) as [[|c e]|]; simpl;
    match goal with
    | |- context [where_ ?f ?l] => destruct (where_ f l) as [|agentDoc rest]
    end; reflexivity.
Qed.
End IngestionFacts.

Section IngestionLoop.
Context {num : Type} `{JsNumber num} `{JsString}.

Lemma head_limit_1 {D} (snap : list (string * D)) :
  head (limit 1 snap) = head snap.
Proof. now destruct snap. Qed.

(** The block of an event against its specification: it throws exactly
    when [block_runs] is false; when it runs, it appends to the batch the
    record [event_record] (after a last-seen refresh of the matched agent,
    if any). *)
Lemma process_transaction_spec (tx : HeliusEnhancedTransaction.t num)
    (w : World num) :
  match event_record tx w with
  | Some record =>
      block_runs tx w = true /\
      exists delta,
        records_of delta = [record] /\
        Forall (ingestion_write (db w)) delta /\
        forall batch tallies, exists tallies',
          process_transaction tx batch tallies w =
          (Return (batch ++ delta, tallies'), after_event tx w)
  | None =>
      block_runs tx w = false /\
      exists code,
        forall batch tallies,
          process_transaction tx batch tallies w = (Throw code, after_event tx w)
  end.
Proof.
  unfold event_record, block_runs, after_event.
  destruct (HeliusEnhancedTransaction.nativeTransfers tx) as [nts|] eqn:En;
    [|split; [reflexivity|]; exists "TypeError"; intros;
      now rewrite process_transaction_run, En].
  destruct (HeliusEnhancedTransaction.tokenTransfers tx) as [tts|] eqn:Et;
    [|split; [reflexivity|]; exists "TypeError"; intros;
      now rewrite process_transaction_run, En, Et].
  destruct (valid_time _) eqn:Ev;
    [|split; [reflexivity|]; exists "RangeError"; intros;
      now rewrite process_transaction_run, En, Et, Ev].
  destruct (call_fails w) as [code|] eqn:Ec;
    [split; [reflexivity|]; exists code; intros;
     now rewrite process_transaction_run, En, Et, Ev, Ec|].
  cbv zeta. split; [reflexivity|].
  unfold matched_agent. rewrite head_limit_1.
  match goal with
  | |- context [where_ ?f ?l] => destruct (where_ f l) as [|agentDoc rest] eqn:Eq
  end; cbn [head fmap option_fmap option_map].
  - eexists [SetTransaction _ _]. split; [reflexivity|].
    split; [repeat constructor|].
    intros batch tallies. eexists.
    rewrite process_transaction_run, En, Et, Ev, Ec. cbv zeta.
    rewrite Eq. reflexivity.
  - eexists [UpdateAgentLastSeen (fst agentDoc) (clock w); SetTransaction _ _].
    split; [reflexivity|]. split.
    + repeat constructor. simpl.
      assert (Hin : In agentDoc (agentDoc :: rest)) by now left.
      rewrite <- Eq in Hin. apply in_where in Hin as [Hin _].
      destruct agentDoc as [id a]. apply in_docs in Hin. simpl. eauto.
    + intros batch tallies. eexists.
      rewrite process_transaction_run, En, Et, Ev, Ec. cbv zeta.
      rewrite Eq. cbn [limit firstn]. rewrite <- app_assoc. reflexivity.
Qed.

Lemma after_event_db (tx : HeliusEnhancedTransaction.t num) (w : World num) :
  db (after_event tx w) = db w.
Proof.
  unfold after_event.
  destruct (HeliusEnhancedTransaction.nativeTransfers tx),
    (HeliusEnhancedTransaction.tokenTransfers tx); try reflexivity.
  destruct (valid_time _); [|reflexivity]. now destruct (call_fails w).
Qed.

Lemma after_events_db (txs : list (HeliusEnhancedTransaction.t num))
    (w : World num) :
  db (after_events txs w) = db w.
Proof.
  revert w. induction txs as [|tx rest IH]; intros w; [reflexivity|].
  simpl. now rewrite IH, after_event_db.
Qed.

Lemma records_of_app (a b : list (Write num)) :
  records_of (a ++ b) = records_of a ++ records_of b.
Proof.
  induction a as [|wr a IH]; [reflexivity|].
  destruct wr; simpl; now rewrite IH.
Qed.

(** An element that is not [null] is read without error. *)
Lemma process_element (tx : HeliusEnhancedTransaction.t num)
    (batch : list (Write num)) (tallies : list (string * NotificationInfo))
    (w : World num) :
  try_catch
    (tx' <- property_of (Some tx) ;; process_transaction tx' batch tallies)
    (fun _ => property_of (Some tx) ;; ret (batch, tallies)) w
  = try_catch (process_transaction tx batch tallies)
      (fun _ => ret (batch, tallies)) w.
Proof.
  unfold try_catch, bind, property_of, ret.
  now destruct (process_transaction tx batch tallies w) as [[r|e] w'].
Qed.

(** A payload without [null] is the list of its events. *)
Lemma has_null_false (payload : list (option (HeliusEnhancedTransaction.t num))) :
  has_null payload = false ->
  payload = map Some (events_before_null payload).
Proof.
  induction payload as [|[tx|] rest IH]; intros Hn;
    [reflexivity | | discriminate].
  cbn [events_before_null map]. f_equal. now apply IH.
Qed.

Lemma events_before_null_length
    (payload : list (option (HeliusEnhancedTransaction.t num))) :
  (length (events_before_null payload) <= length payload)%nat.
Proof.
  induction payload as [|[tx|] rest IH]; cbn [events_before_null length]; lia.
Qed.

(** The loop against its specification.  Up to the first [null] element
    it keeps what was staged and stages the records of [event_records],
    in order; it throws at a [null] element, and only there. *)
Lemma process_all_spec
    (payload : list (option (HeliusEnhancedTransaction.t num))) :
  forall (w : World num) batch tallies,
  exists delta tallies',
    process_all payload batch tallies w =
    (if has_null payload then Throw "TypeError"
     else Return (batch ++ delta, tallies'),
     after_events (events_before_null payload) w) /\
    records_of delta = omap id (event_records (events_before_null payload) w) /\
    Forall (ingestion_write (db w)) delta.
Proof.
  induction payload as [|[tx|] rest IH]; intros w batch tallies.
  - exists [], tallies. simpl. rewrite app_nil_r. repeat split. constructor.
  - pose proof (process_transaction_spec tx w) as Hev.
    cbn [process_all event_records after_events events_before_null].
    change (has_null (Some tx :: rest)) with (has_null rest).
    unfold bind at 1. rewrite process_element. unfold try_catch.
    destruct (event_record tx w) as [record|].
    + destruct Hev as (_ & d1 & Hrec & Hwr & Hrun).
      destruct (Hrun batch tallies) as [t1 ->]. cbn [fst snd].
      destruct (IH (after_event tx w) (batch ++ d1) t1)
        as (d2 & t2 & -> & Hrec2 & Hwr2).
      exists (d1 ++ d2), t2. rewrite app_assoc.
      split; [reflexivity|]. split.
      * rewrite records_of_app, Hrec, Hrec2. reflexivity.
      * apply Forall_app. split; [exact Hwr|].
        now rewrite after_event_db in Hwr2.
    + destruct Hev as (_ & code & Hrun). rewrite Hrun. cbn [ret fst snd].
      destruct (IH (after_event tx w) batch tallies)
        as (d2 & t2 & -> & Hrec2 & Hwr2).
      exists d2, t2. split; [reflexivity|]. split; [exact Hrec2|].
      now rewrite after_event_db in Hwr2.
  - exists [], tallies. repeat split. constructor.
Qed.

(** The writes of the pipeline always apply: they add the records and
    touch existing agents. *)
Lemma apply_ingestion_writes (d0 : Db num) (delta : list (Write num)) :
  Forall (ingestion_write d0) delta ->
  forall d,
    (forall id, is_Some (agents d0 !! id) -> is_Some (agents d !! id)) ->
    exists d',
      apply_writes d delta = Some d' /\
      transactions d' = insert_records (records_of delta) (transactions d) /\
      users d' = users d /\ policies d' = policies d /\
      approvals d' = approvals d.
Proof.
  induction 1 as [|wr delta Hwr _ IH]; intros d Hagents.
  - exists d. repeat split.
  - destruct wr as [| |id record|id t|]; simpl in Hwr; try contradiction.
    + destruct (IH (set_transactions (<[id := record]> (transactions d)) d)
                  Hagents) as (d' & Happ & Htx & Hu & Hp & Ha).
      exists d'. simpl. rewrite Happ. repeat split; assumption.
    + destruct (Hagents id Hwr) as [a Ha]. simpl. rewrite Ha.
      destruct (IH (set_agents (<[id := touch_agent t a]> (agents d)) d))
        as (d' & Happ & Htx & Hu & Hp & Hap).
      { intros id' Hid'. simpl.
        destruct (decide (id = id')) as [->|Hne];
          [rewrite lookup_insert_eq; eauto
          |rewrite lookup_insert_ne by exact Hne; auto]. }
      exists d'. rewrite Happ. repeat split; assumption.
Qed.

(** One step of a call of [sendPushToOwner], in one equation. *)
Lemma step_push_run (task : PushTask) (w : World num) :
  step_push task w =
  match task with
  | AwaitUser ownerId title body data =>
      (Return
         match call_fails w with
         | Some _ => Settled
         | None =>
             match users (db w) !! ownerId with
             | None => Settled
             | Some user =>
                 if negb (truthy (AppUser.fcmToken user)) ||
                    negb (AppUser.notificationsEnabled user)
                 then Settled
                 else AwaitSend ownerId
                        (mkPush (nullish (AppUser.fcmToken user) "")
                           title body data)
             end
         end,
       after_call w)
  | AwaitSend ownerId msg =>
      match call_fails w with
      | Some code =>
          (Return (if stale_token code then AwaitUpdate ownerId else Settled),
           after_call w)
      | None => (Return Settled, delivered msg (after_call w))
      end
  | AwaitUpdate ownerId =>
      (Return Settled,
       match call_fails w with
       | Some _ => after_call w
       | None =>
           match users (db w) !! ownerId with
           | None => after_call w
           | Some user =>
               with_db
                 (set_users (<[ownerId := delete_fcmToken user]> (users (db w)))
                    (db w))
                 (after_call w)
           end
       end)
  | Settled => (Return Settled, w)
  end.
Proof.
  destruct task as [ownerId title body data|ownerId msg|ownerId|];
    [| | |reflexivity]; unfold step_push, try_catch.
  - unfold bind at 1. rewrite external_call_run.
    destruct (call_fails w); [reflexivity|].
    unfold bind at 1. unfold get_db. cbn [fst snd].
    change (db (after_call w)) with (db w).
    destruct (users (db w) !! ownerId) as [user|]; [|reflexivity].
    now destruct (_ || _).
  - unfold bind at 1. unfold messaging_send. unfold bind at 1.
    rewrite external_call_run.
    destruct (call_fails w) as [code|]; [|reflexivity].
    now destruct (stale_token code).
  - unfold bind at 1. rewrite update_user_run.
    destruct (call_fails w); [reflexivity|].
    now destruct (users (db w) !! ownerId).
Qed.

Lemma same_but_users_trans (a b c : World num) :
  same_but_users a b -> same_but_users b c -> same_but_users a c.
Proof.
  unfold same_but_users. intros (? & ? & ? & ?) (? & ? & ? & ?).
  repeat split; congruence.
Qed.

(** A step never throws, and leaves every collection but [users] as it
    is. *)
Lemma step_push_keeps (task : PushTask) (w : World num) :
  (exists task', fst (step_push task w) = Return task') /\
  same_but_users w (snd (step_push task w)).
Proof.
  rewrite step_push_run.
  destruct task as [ownerId title body data|ownerId msg|ownerId|].
  - split; [eauto | repeat split].
  - destruct (call_fails w); (split; [eauto | repeat split]).
  - split; [eauto|].
    destruct (call_fails w); [repeat split|].
    destruct (users (db w) !! ownerId); repeat split.
  - split; [eauto | repeat split].
Qed.

Lemma run_pushes_skip (i : nat) (rest : list nat) (tasks : list PushTask)
    (w : World num) :
  tasks !! i = None ->
  run_pushes (i :: rest) tasks w = run_pushes rest tasks w.
Proof. intros Hi. cbn [run_pushes]. now rewrite Hi. Qed.

Lemma run_pushes_step (i : nat) (rest : list nat) (tasks : list PushTask)
    (task task' : PushTask) (w w1 : World num) :
  tasks !! i = Some task ->
  step_push task w = (Return task', w1) ->
  run_pushes (i :: rest) tasks w = run_pushes rest (<[i := task']> tasks) w1.
Proof.
  intros Hi Hs. cbn [run_pushes]. rewrite Hi. unfold bind. now rewrite Hs.
Qed.

(** The calls of the notifications never fail the request and leave the
    ledger as it is, in whatever order they complete. *)
Lemma run_pushes_keeps (order : list nat) :
  forall (tasks : list PushTask) (w : World num),
    (exists tasks', fst (run_pushes order tasks w) = Return tasks') /\
    same_but_users w (snd (run_pushes order tasks w)).
Proof.
  induction order as [|i rest IH]; intros tasks w.
  - split; [now exists tasks | repeat split].
  - destruct (tasks !! i) as [task|] eqn:Ei;
      [|rewrite (run_pushes_skip _ _ _ _ Ei); apply IH].
    destruct (step_push_keeps task w) as ([task' Hr] & Hk).
    destruct (step_push task w) as [r w1] eqn:Es.
    cbn [fst snd] in Hr, Hk. subst r.
    rewrite (run_pushes_step _ _ _ _ _ _ _ Ei Es).
    destruct (IH (<[i := task']> tasks) w1) as (Hret & Hk1).
    split; [exact Hret|]. exact (same_but_users_trans _ _ _ Hk Hk1).
Qed.

Lemma allSettled_keeps (order : list nat) (tasks : list PushTask)
    (w : World num) :
  fst (allSettled order tasks w) = Return tt /\
  same_but_users w (snd (allSettled order tasks w)).
Proof.
  unfold allSettled, bind.
  destruct (run_pushes_keeps (order ++ settle_order (length tasks)) tasks w)
    as ([tasks' Hr] & Hk).
  destruct (run_pushes _ tasks w) as [r w1]. cbn [fst snd] in Hr, Hk.
  subst r. split; [reflexivity | exact Hk].
Qed.

Lemma insert_records_notin
    (records : list (string * AgentTransaction.t num)) :
  forall c id, ~ In id (map fst records) ->
               insert_records records c !! id = c !! id.
Proof.
  induction records as [|[k v] rest IH]; intros c id Hnotin; [reflexivity|].
  simpl in *. rewrite IH by tauto.
  apply lookup_insert_ne. tauto.
Qed.

Lemma insert_records_lookup
    (records : list (string * AgentTransaction.t num)) :
  forall c id record,
    List.NoDup (map fst records) -> In (id, record) records ->
    insert_records records c !! id = Some record.
Proof.
  induction records as [|[k v] rest IH]; intros c id record Hnd Hin;
    [destruct Hin|].
  simpl in *. apply List.NoDup_cons_iff in Hnd as [Hk Hnd].
  destruct Hin as [[= -> ->]|Hin].
  - rewrite insert_records_notin by exact Hk. apply lookup_insert_eq.
  - now apply IH.
Qed.

(** An event yields a record exactly when its block runs without error. *)
Lemma event_record_runs (tx : HeliusEnhancedTransaction.t num) (w : World num) :
  is_Some (event_record tx w) <-> block_runs tx w = true.
Proof.
  pose proof (process_transaction_spec tx w) as Hev.
  destruct (event_record tx w).
  - destruct Hev as [-> _]. split; eauto.
  - destruct Hev as [-> _]. split; [intros [? [=]] | discriminate].
Qed.

(** The handler on a payload.  The loop stages, in order, the normalized
    record of each event that comes before the first [null] element and
    whose block runs without error, with the matched agent's id when an
    agent matched and without it when none did; an event whose block
    throws stages nothing and the events after it are processed all the
    same.  At a [null] element the handler throws and nothing is
    committed.  Without one, when the single batch write succeeds, the
    handler answers 200 and the [transactions] collection is the old one
    with all the staged records set (each is found under its id when the
    drawn ids are distinct); when it fails, the handler throws and the
    database is unchanged. *)
Lemma onHeliusWebhook_commits (w : World num) (order : list nat)
    (payload : list (option (HeliusEnhancedTransaction.t num))) :
  let events := events_before_null payload in
  let staged := omap id (event_records events w) in
  let run := onHeliusWebhook order "POST" (Some payload) w in
  if has_null payload then
    fst run = Throw "TypeError" /\ db (snd run) = db w
  else
    match call_fails (after_events events w) with
    | None =>
        fst run = Return (mkResponse 200 (WebhookBody true (length payload))) /\
        transactions (db (snd run))
        = insert_records staged (transactions (db w)) /\
        (List.NoDup (map fst staged) ->
         forall id record,
           In (id, record) staged ->
           transactions (db (snd run)) !! id = Some record)
    | Some code => fst run = Throw code /\ db (snd run) = db w
    end.
Proof.
  intros events staged run.
  destruct (process_all_spec payload w [] [])
    as (batch & tallies & Hloop & Hrec & Hwr).
  simpl in Hloop. fold events in Hloop, Hrec.
  subst run.
  destruct (onHeliusWebhook order "POST" (Some payload) w) as [r w'] eqn:E.
  cbn [fst snd].
  unfold onHeliusWebhook in E. cbn [String.eqb Ascii.eqb Bool.eqb negb] in E.
  unfold bind at 1 in E. rewrite Hloop in E.
  destruct (has_null payload).
  { injection E as <- <-. split; [reflexivity|].
    exact (after_events_db events w). }
  cbn [fst snd] in E.
  unfold bind at 1 in E. rewrite commit_run, after_events_db in E.
  destruct (call_fails (after_events events w)) as [code|].
  { injection E as <- <-. split; [reflexivity|].
    exact (after_events_db events w). }
  destruct (apply_ingestion_writes (db w) batch Hwr (db w) (fun _ Hs => Hs))
    as (d' & Happ & Htx & _).
  rewrite Happ in E. unfold bind at 1 in E.
  match type of E with
  | context [allSettled order ?tasks ?w1] =>
      destruct (allSettled_keeps order tasks w1) as (Hr & _ & _ & _ & Hkeep);
      destruct (allSettled order tasks w1) as [r2 w2]
  end.
  cbn [fst snd] in Hr, Hkeep. subst r2. cbn [ret] in E.
  injection E as <- <-.
  assert (Hfinal : transactions (db w2)
                   = insert_records staged (transactions (db w))).
  { rewrite Hkeep. cbn [db with_db]. rewrite Htx, Hrec. reflexivity. }
  split; [reflexivity|]. split; [exact Hfinal|].
  intros Hnd id record Hin. rewrite Hfinal.
  now apply insert_records_lookup.
Qed.
End IngestionLoop.
(** C8 at a raw type in mixed case. *)
Lemma mapHeliusType_table_witness :
  is_ascii "Stake_Token" = true /\
  is_one_of ["STAKE_SOL"; "STAKE_TOKEN"] "Stake_Token" = true /\
  mapHeliusType "Stake_Token" = stake.
Proof.
  split; [reflexivity|]. split; [reflexivity|].
  exact (proj1 (proj2 (proj2
           (proj2 (mapHeliusType_table "Stake_Token")
              (fun s _ => eq_refl) eq_refl)))
           eq_refl).
Defined.

(** The handler at a payload of three events, the second of which is
    malformed: the first record is committed with the agent's id, the
    third without an agent, and nothing is committed for the second. *)
Example onHeliusWebhook_commits_three_events :
  let w := Examples.world_fresh in
  let run := onHeliusWebhook [] "POST" (Some (map Some Examples.payload)) w in
  fst run = Return (mkResponse 200 (WebhookBody true 3)) /\
  (exists record,
     transactions (db (snd run)) !! "doc0" = Some record /\
     AgentTransaction.agentId record = Some "agent-1" /\
     AgentTransaction.type record = swap /\
     AgentTransaction.signature record = "sig-SWAP") /\
  (exists record,
     transactions (db (snd run)) !! "doc1" = Some record /\
     AgentTransaction.agentId record = None /\
     AgentTransaction.type record = program_interaction /\
     AgentTransaction.signature record = "sig-NFT_MINT") /\
  size (transactions (db (snd run))) = 2%nat.
Proof.
  intros w run.
  pose proof (onHeliusWebhook_commits w [] (map Some Examples.payload))
    as Hcommit.
  change (has_null (map Some Examples.payload)) with false in Hcommit.
  change (call_fails
            (after_events (events_before_null (map Some Examples.payload)) w))
    with (@None string) in Hcommit.
  destruct Hcommit as (Hresp & Htx & _).
  split; [exact Hresp|].
  subst run. rewrite Htx.
  split; [eexists; split; [vm_compute; reflexivity | repeat split]|].
  split; [eexists; split; [vm_compute; reflexivity | repeat split]|].
  vm_compute. reflexivity.
Qed.

(** C9, the code at the failing input: a payload of one event and a
    [null] element.  The event is processed without error and its record
    is staged; at the [null] element the block throws, and so does the
    handler of the error, which reads the signature of the element; the
    request fails before the batch is committed, and the record of the
    event is not stored.  The same event alone is committed. *)
Theorem onHeliusWebhook_null_element_aborts :
  let w := Examples.world_fresh in
  let event := MoreExamples.swap_event in
  let run := onHeliusWebhook [] "POST" (Some [Some event; None]) w in
  let alone := onHeliusWebhook [] "POST" (Some [Some event]) w in
  (exists record tallies w1,
     block_runs event w = true /\
     event_record event w = Some ("doc0", record) /\
     process_transaction event [] [] w
     = (Return ([UpdateAgentLastSeen "agent-1" Examples.noon;
                 SetTransaction "doc0" record], tallies), w1) /\
     fst alone = Return (mkResponse 200 (WebhookBody true 1)) /\
     transactions (db (snd alone)) !! "doc0" = Some record) /\
  fst run = Throw "TypeError" /\
  transactions (db (snd run)) !! "doc0" = None /\
  db (snd run) = db w.
Proof.
  vm_compute.
  split; [|repeat split; reflexivity].
  eexists. eexists. eexists.
  split; [reflexivity|]. split; [reflexivity|]. split; [reflexivity|].
  split; reflexivity.
Qed.

(** Two notifications to one owner whose token is stale: FCM refuses the
    first message and accepts the second.  When the first call runs to
    its end before the second reads the user document, the token is
    removed and no message is sent.  When both reads complete before the
    calls to FCM, the second message is sent. *)
Example allSettled_interleaving :
  let after_loop := [Succeeds; Succeeds; Succeeds] in
  let one_after_the_other :=
    onHeliusWebhook [] "POST" (Some MoreExamples.two_events)
      (MoreExamples.world_two_agents
         (after_loop ++ [Succeeds; MoreExamples.stale; Succeeds; Succeeds])) in
  let reads_first :=
    onHeliusWebhook [0; 1; 0; 1; 0]%nat "POST" (Some MoreExamples.two_events)
      (MoreExamples.world_two_agents
         (after_loop ++ [Succeeds; Succeeds; MoreExamples.stale; Succeeds;
                         Succeeds])) in
  fst one_after_the_other = Return (mkResponse 200 (WebhookBody true 2)) /\
  sent (snd one_after_the_other) = [] /\
  fst reads_first = Return (mkResponse 200 (WebhookBody true 2)) /\
  sent (snd reads_first)
  = [mkPush "token-1" "Yield Farmer Activity" "New transaction detected"
       [("agentId", "agent-2")]] /\
  AppUser.fcmToken <$> users (db (snd one_after_the_other)) !! "user-1"
  = Some None /\
  AppUser.fcmToken <$> users (db (snd reads_first)) !! "user-1" = Some None.
Proof. vm_compute. repeat split; reflexivity. Qed.

(** * Further properties *)

(** ** Authentication *)

Lemma substring_all (s : string) : substring 0 (String.length s) s = s.
Proof. induction s as [|c s IH]; simpl; [reflexivity | now rewrite IH]. Qed.

Lemma slice_from_append (p s : string) :
  slice_from (String.length p) (p +:+ s) = s.
Proof.
  unfold slice_from. induction p as [|c p IH]; simpl.
  - rewrite Nat.sub_0_r. apply substring_all.
  - exact IH.
Qed.

Lemma prefix_append (p s : string) : String.prefix p (p +:+ s) = true.
Proof.
  induction p as [|c p IH]; simpl; [now destruct s|].
  destruct (ascii_dec c c); [exact IH | contradiction].
Qed.

Lemma prefix_slice (p h : string) :
  String.prefix p h = true -> h = p +:+ slice_from (String.length p) h.
Proof.
  revert h. induction p as [|c p IH]; intros h Hp.
  - unfold slice_from. simpl. rewrite Nat.sub_0_r. now rewrite substring_all.
  - destruct h as [|c' h]; simpl in Hp; [discriminate|].
    destruct (ascii_dec c c') as [<-|]; [|discriminate].
    change (String c h = String c (p +:+ slice_from (String.length p) h)).
    f_equal. exact (IH h Hp).
Qed.

Section AuthenticationFacts.
Context {num : Type} `{JsNumber num}.
Variable hashApiKey : string -> string.

(** The middleware in one equation. *)
Lemma authenticateAgent_run (authorization : option string) (w : World num) :
  authenticateAgent hashApiKey authorization w =
  match authorization with
  | Some authHeader =>
      if String.prefix "Bearer " authHeader then
        if negb (truthy_string (slice_from 7 authHeader))
        then (Return (inl (mkResponse 401 (ErrorBody "Empty API key"))), w)
        else
          match call_fails w with
          | Some code => (Throw code, after_call w)
          | None =>
              match
                limit 1
                  (where_ (fun a => String.eqb (Agent.apiKeyHash a)
                                      (hashApiKey (slice_from 7 authHeader)))
                     (docs (agents (db w))))
              with
              | [] => (Return (inl (mkResponse 403 (ErrorBody "Invalid API key"))),
                       after_call w)
              | agentDoc :: _ =>
                  (Return (inr (fst agentDoc, snd agentDoc)), after_call w)
              end
          end
      else (Return (inl (mkResponse 401
                           (ErrorBody "Missing or invalid Authorization header"))),
            w)
  | None => (Return (inl (mkResponse 401
                            (ErrorBody "Missing or invalid Authorization header"))),
             w)
  end.
Proof.
  unfold authenticateAgent.
  destruct authorization as [authHeader|]; [|reflexivity].
  destruct (String.prefix "Bearer " authHeader); [|reflexivity].
  destruct (negb _); [reflexivity|].
  unfold bind at 1. rewrite external_call_run.
  destruct (call_fails w); [reflexivity|].
  run_M.
  match goal with
  | |- context [match ?l with [] => _ | _ :: _ => _ end] => destruct l
  end; reflexivity.
Qed.

(** What the middleware has checked when it calls the handler. *)
Lemma authenticateAgent_accepts (authorization : option string)
    (w : World num) (agentId : string) (agent : Agent.t) :
  fst (authenticateAgent hashApiKey authorization w)
  = Return (inr (agentId, agent)) ->
  exists apiKey,
    authorization = Some ("Bearer " +:+ apiKey) /\
    apiKey <> "" /\
    agents (db w) !! agentId = Some agent /\
    Agent.apiKeyHash agent = hashApiKey apiKey /\
    snd (authenticateAgent hashApiKey authorization w) = after_call w.
Proof.
  rewrite authenticateAgent_run.
  destruct authorization as [authHeader|]; [|discriminate].
  destruct (String.prefix "Bearer " authHeader) eqn:Hp; [|discriminate].
  destruct (truthy_string (slice_from 7 authHeader)) eqn:Hk; [|discriminate].
  cbn [negb]. destruct (call_fails w); [discriminate|].
  match goal with
  | |- context [where_ ?f ?l] => destruct (where_ f l) as [|x rest] eqn:E
  end; simpl; [discriminate|].
  intros [= <- <-].
  exists (slice_from 7 authHeader).
  split; [f_equal; exact (prefix_slice "Bearer " authHeader Hp)|].
  split; [intros Hempty; now rewrite Hempty in Hk|].
  assert (Hx : In x (x :: rest)) by now left.
  rewrite <- E in Hx. apply in_where in Hx as [Hin Hhash].
  destruct x as [id a]. apply in_docs in Hin. apply String.eqb_eq in Hhash.
  auto.
Qed.

(** A refusal of the middleware is a 401 or a 403 and has no effect. *)
Lemma authenticateAgent_refuses (authorization : option string)
    (w : World num) (refusal : Response) :
  fst (authenticateAgent hashApiKey authorization w) = Return (inl refusal) ->
  let w' := snd (authenticateAgent hashApiKey authorization w) in
  (http_status refusal = 401 \/ http_status refusal = 403) /\
  db w' = db w /\ drawn w' = drawn w /\ sent w' = sent w.
Proof.
  rewrite authenticateAgent_run.
  destruct authorization as [authHeader|]; [|intros [= <-]; simpl; auto].
  destruct (String.prefix "Bearer " authHeader); [|intros [= <-]; simpl; auto].
  destruct (negb _); [intros [= <-]; simpl; auto|].
  destruct (call_fails w); [discriminate|].
  match goal with
  | |- context [where_ ?f ?l] => destruct (where_ f l) as [|x rest]
  end; simpl; [intros [= <-]; simpl; auto | discriminate].
Qed.

(** A route in one equation. *)
Lemma authenticated_run (authorization : option string)
    (handler : string -> Agent.t -> M num Response) (w : World num) :
  authenticated hashApiKey authorization handler w =
  match authenticateAgent hashApiKey authorization w with
  | (Return (inl refusal), w1) => (Return refusal, w1)
  | (Return (inr locals), w1) => handler (fst locals) (snd locals) w1
  | (Throw code, w1) => (Throw code, w1)
  end.
Proof.
  unfold authenticated, bind.
  now destruct (authenticateAgent hashApiKey authorization w)
    as [[[refusal|locals]|code] w1].
Qed.
(** X1.  The middleware lets a request through only when its header is
    "Bearer " followed by a non-empty key whose hash is the [apiKeyHash]
    of a stored agent; it has then read the database and changed
    nothing, and the route runs its handler on that agent's document,
    under its document id. *)
Theorem authenticateAgent_sound (authorization : option string)
    (w : World num) (agentId : string) (agent : Agent.t) :
  fst (authenticateAgent hashApiKey authorization w)
  = Return (inr (agentId, agent)) ->
  (exists apiKey,
     authorization = Some ("Bearer " +:+ apiKey) /\
     apiKey <> "" /\
     agents (db w) !! agentId = Some agent /\
     Agent.apiKeyHash agent = hashApiKey apiKey) /\
  forall handler : string -> Agent.t -> M num Response,
    authenticated hashApiKey authorization handler w
    = handler agentId agent (after_call w).
Proof.
  intros Haccepted.
  destruct (authenticateAgent_accepts authorization w agentId agent Haccepted)
    as (apiKey & Hheader & Hkey & Hstored & Hhash & Hworld).
  split; [exists apiKey; auto|].
  intros handler. rewrite authenticated_run.
  destruct (authenticateAgent hashApiKey authorization w) as [r w1].
  cbn [fst snd] in *. now subst.
Qed.

(** X2.  A request the middleware refuses is answered 401 or 403 by the
    route, and its handler is not run: for the two approval routes the
    database, the ids drawn and the messages sent are as before. *)
Theorem refused_request_has_no_effect (authorization : option string)
    (w : World num) (refusal : Response)
    (handler : string -> Agent.t -> M num Response) :
  fst (authenticateAgent hashApiKey authorization w) = Return (inl refusal) ->
  let w' := snd (authenticated hashApiKey authorization handler w) in
  fst (authenticated hashApiKey authorization handler w) = Return refusal /\
  (http_status refusal = 401 \/ http_status refusal = 403) /\
  db w' = db w /\ drawn w' = drawn w /\ sent w' = sent w.
Proof.
  intros Hrefused. cbv zeta. rewrite authenticated_run.
  pose proof (authenticateAgent_refuses authorization w) as Hno.
  destruct (authenticateAgent hashApiKey authorization w)
    as [[[refusal'|locals]|code] w1]; cbn [fst snd] in *; try discriminate.
  injection Hrefused as ->.
  destruct (Hno _ eq_refl) as (Hstatus & Hdb & Hdrawn & Hsent). auto.
Qed.
End AuthenticationFacts.

(** X1 at the key of a registered agent. *)
Lemma authenticateAgent_sound_witness :
  let w := MoreExamples.world_registered in
  fst (authenticateAgent Examples.hash (Some "Bearer doc0") w)
  = Return (inr ("doc1", MoreExamples.registered_agent)) /\
  agents (db w) !! "doc1" = Some MoreExamples.registered_agent /\
  Agent.apiKeyHash MoreExamples.registered_agent = Examples.hash "doc0".
Proof.
  intros w.
  assert (Hrun : fst (authenticateAgent Examples.hash (Some "Bearer doc0") w)
                 = Return (inr ("doc1", MoreExamples.registered_agent)))
    by (vm_compute; reflexivity).
  split; [exact Hrun|].
  destruct (authenticateAgent_sound Examples.hash _ w _ _ Hrun)
    as ((apiKey & Hheader & _ & Hstored & Hhash) & _).
  cbv in Hheader. injection Hheader as <-.
  split; [exact Hstored | exact Hhash].
Defined.

(** X2 at a key that no agent has: the request for an approval is
    answered 403 and nothing is stored or sent. *)
Lemma refused_request_has_no_effect_witness :
  let w := Examples.world_fresh in
  let request :=
    post_approvals_request Examples.hash (Some "Bearer stolen")
      (Examples.swap_request (2 # 1)%Q None) in
  fst (request w) = Return (mkResponse 403 (ErrorBody "Invalid API key")) /\
  db (snd (request w)) = db w /\ sent (snd (request w)) = sent w.
Proof.
  intros w request.
  destruct (refused_request_has_no_effect Examples.hash
              (Some "Bearer stolen") w
              (mkResponse 403 (ErrorBody "Invalid API key"))
              (fun _ agent =>
                 requestApproval agent (Examples.swap_request (2 # 1)%Q None)))
    as (Hanswer & _ & Hdb & _ & Hsent);
    [vm_compute; reflexivity|].
  split; [exact Hanswer|]. split; [exact Hdb | exact Hsent].
Defined.


(** ** More of the registration *)

Section RegistrationMore.
Context {num : Type} `{JsNumber num}.
Variable hashApiKey : string -> string.

(** What a registration answered 201 has drawn and written. *)
Lemma registerAgent_created (w : World num) (request : RegisterBody)
    (agentId apiKey message : string) :
  fst (registerAgent hashApiKey request w)
  = Return (mkResponse 201 (RegisteredBody agentId apiKey message)) ->
  let w' := snd (registerAgent hashApiKey request w) in
  let ownerId := nullish (reg_ownerId request) "" in
  exists owner,
    users (db w) !! ownerId = Some owner /\
    apiKey = random w (drawn w) /\
    agentId = random w (S (drawn w)) /\
    agents (db w')
    = <[agentId :=
          Agent.mk agentId (nullish (reg_name request) "")
            (nullish (reg_walletAddress request) "")
            (nullish (reg_description request) "") active
            (hashApiKey apiKey) (clock w) (clock w) ownerId]> (agents (db w)) /\
    policies (db w')
    = <[random w (S (S (drawn w))) :=
          SpendingPolicy.mk num (random w (S (S (drawn w)))) agentId (nlit 1)
            (nlit (5 # 10)) [] (nlit (1 # 10)) true (clock w)]>
        (policies (db w)) /\
    users (db w') = <[ownerId := add_agent_id agentId owner]> (users (db w)) /\
    transactions (db w') = transactions (db w) /\
    approvals (db w') = approvals (db w) /\
    sent w' = sent w.
Proof.
  destruct (registerAgent hashApiKey request w) as [r w'] eqn:E. simpl.
  unfold registerAgent, try_catch in E.
  destruct (_ || _); [injection E as <- <-; discriminate|].
  destruct (negb _); [injection E as <- <-; discriminate|].
  unfold bind at 1 in E. rewrite external_call_run in E.
  destruct (call_fails w); [injection E as <- <-; discriminate|].
  unfold bind at 1 in E. unfold get_db in E. simpl in E.
  destruct (users (db w) !! nullish (reg_ownerId request) "") as [u|] eqn:Eu;
    [|injection E as <- <-; discriminate].
  unfold bind at 1 in E. unfold generateApiKey, draw_random in E. simpl in E.
  unfold bind at 1 in E. unfold new_Date in E. simpl in E.
  unfold bind at 1 in E. simpl in E.
  unfold bind at 1 in E. simpl in E.
  unfold bind at 1 in E. rewrite commit_run in E.
  match type of E with
  | context [call_fails ?w2] =>
      destruct (call_fails w2); [injection E as <- <-; discriminate|]
  end.
  simpl in E. rewrite Eu in E. simpl in E.
  injection E as <- <-. intros [= <- <- _].
  exists u. simpl. repeat split; reflexivity.
Qed.
End RegistrationMore.

Section RoundTrip.
Context {num : Type} `{JsNumber num}.
Variable hashApiKey : string -> string.

(** A query that one stored document alone satisfies returns it. *)
Lemma where_unique {D} (f : D -> bool) (c : gmap string D) id x :
  c !! id = Some x -> f x = true ->
  (forall id' y, c !! id' = Some y -> f y = true -> id' = id) ->
  limit 1 (where_ f (docs c)) = [(id, x)].
Proof.
  intros Hx Hf Huniq.
  assert (Hin : In (id, x) (where_ f (docs c))).
  { apply in_where. split; [now apply in_docs | exact Hf]. }
  destruct (where_ f (docs c)) as [|[id' y] rest] eqn:E; [contradiction|].
  assert (Hy : In (id', y) (where_ f (docs c))) by (rewrite E; now left).
  apply in_where in Hy as [Hy Hfy]. apply in_docs in Hy.
  pose proof (Huniq _ _ Hy Hfy) as ->.
  simpl. f_equal. f_equal. congruence.
Qed.

(** X3.  The key returned by a registration opens the API for the agent
    it created: presented as "Bearer <apiKey>" when the query succeeds,
    it passes the middleware, which hands to the handler the new agent's
    id and document (with the name, wallet and owner of the registration
    request); provided the key is not empty and no agent stored before
    had the same key hash. *)
Theorem registered_key_authenticates (w : World num) (request : RegisterBody)
    (agentId apiKey message : string) (now : Z) (schedule : list Outcome) :
  fst (registerAgent hashApiKey request w)
  = Return (mkResponse 201 (RegisteredBody agentId apiKey message)) ->
  apiKey <> "" ->
  (forall id a, agents (db w) !! id = Some a ->
                Agent.apiKeyHash a <> hashApiKey apiKey) ->
  calls_succeed 1 schedule = true ->
  let w' := snd (registerAgent hashApiKey request w) in
  exists agent,
    fst (authenticateAgent hashApiKey (Some ("Bearer " +:+ apiKey))
           (at_time now schedule w'))
    = Return (inr (agentId, agent)) /\
    Agent.id agent = agentId /\
    Agent.name agent = nullish (reg_name request) "" /\
    Agent.walletAddress agent = nullish (reg_walletAddress request) "" /\
    Agent.ownerId agent = nullish (reg_ownerId request) "".
Proof.
  intros Hreg Hkey Hfresh Hs.
  destruct (registerAgent_created hashApiKey w request _ _ _ Hreg)
    as (owner & _ & _ & _ & Hagents & _).
  cbv zeta in *.
  generalize dependent (snd (registerAgent hashApiKey request w)).
  intros w' Hagents.
  match type of Hagents with
  | _ = <[_ := ?a]> _ => exists a
  end.
  split; [|repeat split; reflexivity].
  rewrite authenticateAgent_run.
  rewrite prefix_append.
  change 7%nat with (String.length "Bearer ").
  rewrite slice_from_append.
  destruct apiKey as [|c k]; [contradiction|]. cbn [truthy_string negb].
  apply (calls_succeed_S 0 (at_time now schedule w')) in Hs as [-> _].
  change (db (at_time now schedule w')) with (db w').
  rewrite Hagents.
  erewrite where_unique; [reflexivity | apply lookup_insert_eq | |].
  - simpl. apply String.eqb_refl.
  - intros id' y Hy Hhash.
    destruct (decide (id' = agentId)) as [->|Hne]; [reflexivity|].
    rewrite lookup_insert_ne in Hy by congruence.
    apply String.eqb_eq in Hhash. now apply Hfresh in Hy.
Qed.
End RoundTrip.

Section RegistrationFrame.
Context {num : Type} `{JsNumber num}.
Variable hashApiKey : string -> string.

Lemma elem_of_arrayUnion (x y : string) (a : list string) :
  y ∈ arrayUnion x a <-> y = x \/ y ∈ a.
Proof.
  unfold arrayUnion. rewrite includes_elem_of.
  destruct (bool_decide (x ∈ a)) eqn:E.
  - apply bool_decide_eq_true_1 in E. split; [auto|]. now intros [->|].
  - rewrite elem_of_app, list_elem_of_singleton. tauto.
Qed.

(** X4.  A registration answered 201 stores the hash of the returned key,
    not the key, in the agent document, and writes three documents only:
    every other agent, all policies but one and every other user are as
    before; of the owner's user document only [agentIds] changes, to the
    old ids together with the new one; transactions and approvals are
    untouched and no message is sent. *)
Theorem registerAgent_touches_only_its_documents (w : World num)
    (request : RegisterBody) (agentId apiKey message : string) :
  fst (registerAgent hashApiKey request w)
  = Return (mkResponse 201 (RegisteredBody agentId apiKey message)) ->
  let w' := snd (registerAgent hashApiKey request w) in
  let ownerId := nullish (reg_ownerId request) "" in
  (exists agent,
     agents (db w') !! agentId = Some agent /\
     Agent.apiKeyHash agent = hashApiKey apiKey) /\
  (forall id, id <> agentId -> agents (db w') !! id = agents (db w) !! id) /\
  (exists policyId,
     forall id, id <> policyId ->
                policies (db w') !! id = policies (db w) !! id) /\
  (forall id, id <> ownerId -> users (db w') !! id = users (db w) !! id) /\
  (exists before after,
     users (db w) !! ownerId = Some before /\
     users (db w') !! ownerId = Some after /\
     AppUser.id after = AppUser.id before /\
     AppUser.fcmToken after = AppUser.fcmToken before /\
     AppUser.notificationsEnabled after = AppUser.notificationsEnabled before /\
     (forall x, x ∈ AppUser.agentIds after
                <-> x = agentId \/ x ∈ AppUser.agentIds before)) /\
  transactions (db w') = transactions (db w) /\
  approvals (db w') = approvals (db w) /\
  sent w' = sent w.
Proof.
  intros Hreg.
  destruct (registerAgent_created hashApiKey w request _ _ _ Hreg)
    as (owner & Howner & _ & _ & Hagents & Hpolicies & Husers & Htx & Hap
        & Hsent).
  cbv zeta in *.
  generalize dependent (snd (registerAgent hashApiKey request w)).
  intros w' Hagents Hpolicies Husers Htx Hap Hsent.
  split.
  { eexists. rewrite Hagents. split; [apply lookup_insert_eq | reflexivity]. }
  split.
  { intros id Hne. rewrite Hagents. apply lookup_insert_ne. intros Heq; apply Hne; now symmetry. }
  split.
  { exists (random w (S (S (drawn w)))). intros id Hne. rewrite Hpolicies. apply lookup_insert_ne; intros Heq; apply Hne; now symmetry. }
  split.
  { intros id Hne. rewrite Husers. apply lookup_insert_ne; intros Heq; apply Hne; now symmetry. }
  split; [|auto].
  exists owner, (add_agent_id agentId owner).
  split; [exact Howner|].
  split; [rewrite Husers; apply lookup_insert_eq|].
  split; [reflexivity|]. split; [reflexivity|]. split; [reflexivity|].
  intros x. apply elem_of_arrayUnion.
Qed.
End RegistrationFrame.

(** X3 at the registration of the examples. *)
Lemma registered_key_authenticates_witness :
  exists agent,
    fst (authenticateAgent Examples.hash (Some "Bearer doc0")
           (at_time 0 [] MoreExamples.world_registered))
    = Return (inr ("doc1", agent)) /\
    Agent.ownerId agent = "user-1".
Proof.
  destruct (registered_key_authenticates Examples.hash Examples.world_fresh
              Examples.registration "doc1" "doc0"
              MoreExamples.registered_message 0 [])
    as (agent & Hauth & _ & _ & _ & Howner).
  - vm_compute. reflexivity.
  - discriminate.
  - intros id a Hstored.
    change (({[ "agent-1" := Examples.agent1 ]} : gmap string Agent.t) !! id
            = Some a) in Hstored.
    apply lookup_singleton_Some in Hstored as [_ <-]. discriminate.
  - reflexivity.
  - exists agent. split; [exact Hauth | exact Howner].
Defined.

(** X4 at the registration of the examples: the first agent and the
    policy of the scenarios are still stored. *)
Lemma registerAgent_touches_only_its_documents_witness :
  let w' := MoreExamples.world_registered in
  agents (db w') !! "agent-1" = Some Examples.agent1 /\
  approvals (db w') = ∅ /\
  sent w' = [].
Proof.
  intros w'.
  destruct (registerAgent_touches_only_its_documents Examples.hash
              Examples.world_fresh Examples.registration "doc1" "doc0"
              MoreExamples.registered_message)
    as (_ & Hagents & _ & _ & _ & _ & Happrovals & Hsent);
    [vm_compute; reflexivity|].
  split; [|split; [exact Happrovals | exact Hsent]].
  change (agents (db w') !! "agent-1") with
    (agents (db (snd (registerAgent Examples.hash Examples.registration
                        Examples.world_fresh))) !! "agent-1").
  rewrite Hagents by discriminate. vm_compute. reflexivity.
Defined.

Lemma is_base58_alphabet (c : ascii) :
  is_base58 c = existsb (Ascii.eqb c) (list_ascii_of_string base58_alphabet).
Proof.
  assert (Hall : forallb
                   (fun c => Bool.eqb (is_base58 c)
                               (existsb (Ascii.eqb c)
                                  (list_ascii_of_string base58_alphabet)))
                   all_ascii = true) by (vm_compute; reflexivity).
  rewrite forallb_forall in Hall.
  apply Bool.eqb_prop, Hall, in_all_ascii.
Qed.

Section RegistrationValidation.
Context {num : Type} `{JsNumber num}.
Variable hashApiKey : string -> string.

(** X5.  An agent is registered only under a well-formed wallet address:
    when the registration answers 201, the request named a wallet address
    of 32 to 44 characters, all of them in the base-58 alphabet, a
    non-empty name, and an owner whose user document exists. *)
Theorem registerAgent_accepts_only_base58_wallets (w : World num)
    (request : RegisterBody) (agentId apiKey message : string) :
  fst (registerAgent hashApiKey request w)
  = Return (mkResponse 201 (RegisteredBody agentId apiKey message)) ->
  exists name wallet ownerId,
    reg_name request = Some name /\ name <> "" /\
    reg_walletAddress request = Some wallet /\
    (32 <= String.length wallet <= 44)%nat /\
    (forall c, In c (list_ascii_of_string wallet) ->
               In c (list_ascii_of_string base58_alphabet)) /\
    reg_ownerId request = Some ownerId /\
    is_Some (users (db w) !! ownerId).
Proof.
  intros Hreg.
  destruct (registerAgent_created hashApiKey w request _ _ _ Hreg)
    as (owner & Howner & _).
  revert Hreg. unfold registerAgent, try_catch.
  destruct (negb (truthy (reg_name request)) ||
            negb (truthy (reg_walletAddress request)) ||
            negb (truthy (reg_ownerId request))) eqn:Efields;
    [discriminate|].
  destruct (negb (valid_wallet_address _)) eqn:Evalid; [discriminate|].
  intros _.
  apply orb_false_iff in Efields as [Efields Eowner].
  apply orb_false_iff in Efields as [Ename Ewallet].
  apply negb_false_iff in Ename, Ewallet, Eowner, Evalid.
  destruct (reg_name request) as [name|]; [|discriminate].
  destruct (reg_walletAddress request) as [wallet|]; [|discriminate].
  destruct (reg_ownerId request) as [ownerId|]; [|discriminate].
  cbn [nullish] in *.
  exists name, wallet, ownerId.
  split; [reflexivity|]. split; [intros ->; discriminate|].
  split; [reflexivity|].
  unfold valid_wallet_address in Evalid.
  apply andb_true_iff in Evalid as [Elen Echars].
  apply andb_true_iff in Elen as [Elo Ehi].
  apply Nat.leb_le in Elo, Ehi.
  split; [lia|]. split; [|split; [reflexivity | eauto]].
  intros c Hc. rewrite forallb_forall in Echars.
  specialize (Echars c Hc). rewrite is_base58_alphabet in Echars.
  apply existsb_exists in Echars as (k & Hk & Heq).
  apply Ascii.eqb_eq in Heq as ->. exact Hk.
Qed.
End RegistrationValidation.

(** X5 at the registration of the examples. *)
Lemma registerAgent_accepts_only_base58_wallets_witness :
  exists wallet,
    reg_walletAddress Examples.registration = Some wallet /\
    (32 <= String.length wallet <= 44)%nat.
Proof.
  destruct (registerAgent_accepts_only_base58_wallets Examples.hash
              Examples.world_fresh Examples.registration "doc1" "doc0"
              MoreExamples.registered_message)
    as (name & wallet & ownerId & _ & _ & Hwallet & Hlength & _);
    [vm_compute; reflexivity|].
  exists wallet. split; assumption.
Defined.

(** ** The policy endpoint *)

Section PolicyEndpoint.
Context {num : Type} `{JsNumber num}.

Lemma getPolicyHandler_run (w : World num)
    (callerAgentId requestedAgentId : string) :
  getPolicyHandler callerAgentId requestedAgentId w =
  if negb (String.eqb requestedAgentId callerAgentId)
  then (Return (PolicyRefused 403 "Not authorized to view this policy"), w)
  else
    (match call_fails w with
     | Some _ => Return (PolicyRefused 500 "Internal server error")
     | None =>
         match active_policy (db w) requestedAgentId with
         | Some policy => Return (PolicyJson policy)
         | None =>
             Return (PolicyRefused 404 "No active policy found for this agent")
         end
     end, after_call w).
Proof.
  unfold getPolicyHandler, try_catch.
  destruct (negb _); [reflexivity|].
  unfold bind at 1. rewrite external_call_run.
  destruct (call_fails w); [reflexivity|].
  unfold active_policy. run_M.
  match goal with
  | |- context [match ?l with [] => _ | _ :: _ => _ end] => destruct l
  end; reflexivity.
Qed.

(** X6.  [GET /api/policies/:agentId] refuses an agent that asks for
    another agent's policy with 403 before it reads anything.  An agent
    that asks for its own is shown exactly the policy the evaluator would
    load at that moment: that policy with 200, 404 when [loadPolicy]
    would return null, 500 when its query would fail; and the database
    is not changed. *)
Theorem getPolicyHandler_shows_the_loaded_policy (w : World num)
    (callerAgentId requestedAgentId : string) :
  (requestedAgentId <> callerAgentId ->
   getPolicyHandler callerAgentId requestedAgentId w
   = (Return (PolicyRefused 403 "Not authorized to view this policy"),
      w)) /\
  (requestedAgentId = callerAgentId ->
   fst (getPolicyHandler callerAgentId requestedAgentId w)
   = Return
       match fst (loadPolicy requestedAgentId w) with
       | Return (Some policy) => PolicyJson policy
       | Return None =>
           PolicyRefused 404 "No active policy found for this agent"
       | Throw _ => PolicyRefused 500 "Internal server error"
       end /\
   snd (getPolicyHandler callerAgentId requestedAgentId w)
   = snd (loadPolicy requestedAgentId w)).
Proof.
  rewrite getPolicyHandler_run. split.
  - intros Hne. apply String.eqb_neq in Hne. now rewrite Hne.
  - intros <-. rewrite loadPolicy_run, String.eqb_refl. cbn [negb fst snd].
    destruct (call_fails w); [split; reflexivity|].
    destruct (active_policy (db w) requestedAgentId); split; reflexivity.
Qed.

End PolicyEndpoint.

(** X6 on the world of the scenarios. *)
Lemma getPolicyHandler_shows_the_loaded_policy_witness :
  fst (getPolicyHandler "agent-1" "agent-2" Examples.world_fresh)
  = Return (PolicyRefused 403 "Not authorized to view this policy") /\
  fst (getPolicyHandler "agent-1" "agent-1" Examples.world_fresh)
  = Return (PolicyJson (Examples.policy1 [])).
Proof.
  destruct (getPolicyHandler_shows_the_loaded_policy Examples.world_fresh
              "agent-1" "agent-2") as [Hother _].
  destruct (getPolicyHandler_shows_the_loaded_policy Examples.world_fresh
              "agent-1" "agent-1") as [_ Hown].
  split.
  - rewrite Hother by discriminate. reflexivity.
  - destruct (Hown eq_refl) as [-> _]. vm_compute. reflexivity.
Defined.

(** ** Push notifications *)

Section PushFacts.
Context {num : Type} `{JsNumber num}.

(** [sendPushToOwner] in one equation. *)
Lemma sendPushToOwner_run (w : World num) ownerId title text data :
  sendPushToOwner ownerId title text data w =
  match call_fails w with
  | Some code => (Throw code, after_call w)
  | None =>
      match users (db w) !! ownerId with
      | None => (Return tt, after_call w)
      | Some user =>
          if negb (truthy (AppUser.fcmToken user)) ||
             negb (AppUser.notificationsEnabled user)
          then (Return tt, after_call w)
          else
            match call_fails (after_call w) with
            | None =>
                (Return tt,
                 delivered
                   (mkPush (nullish (AppUser.fcmToken user) "") title text data)
                   (after_call (after_call w)))
            | Some code =>
                if stale_token code then
                  match call_fails (after_call (after_call w)) with
                  | Some code' =>
                      (Throw code', after_call (after_call (after_call w)))
                  | None =>
                      (Return tt,
                       with_db
                         (set_users
                            (<[ownerId := delete_fcmToken user]>
                               (users (db w))) (db w))
                         (after_call (after_call (after_call w))))
                  end
                else (Return tt, after_call (after_call w))
            end
      end
  end.
Proof.
  unfold sendPushToOwner. unfold bind at 1. rewrite external_call_run.
  destruct (call_fails w); [reflexivity|].
  unfold bind at 1. unfold get_db. cbn [fst snd].
  change (db (after_call w)) with (db w).
  destruct (users (db w) !! ownerId) as [user|] eqn:Eu; [|reflexivity].
  destruct (_ || _); [reflexivity|].
  unfold try_catch, messaging_send. unfold bind at 1.
  rewrite external_call_run.
  destruct (call_fails (after_call w)) as [code|]; [|reflexivity].
  unfold bind at 1.
  destruct (stale_token code); [|reflexivity].
  rewrite update_user_run.
  destruct (call_fails (after_call (after_call w))); [reflexivity|].
  change (db (after_call (after_call w))) with (db w). rewrite Eu.
  reflexivity.
Qed.
End PushFacts.

Section PushTheorems.
Context {num : Type} `{JsNumber num}.

(** The messages after a call: those before, or one more, to a reachable
    owner, and then the call has returned. *)
Lemma sendPushToOwner_sent (w : World num)
    (ownerId title text : string) (data : list (string * string)) :
  let w' := snd (sendPushToOwner ownerId title text data w) in
  sent w' = sent w \/
  exists token,
    reachable (db w) ownerId token /\
    fst (sendPushToOwner ownerId title text data w) = Return tt /\
    sent w' = sent w ++ [mkPush token title text data] /\
    db w' = db w.
Proof.
  rewrite sendPushToOwner_run.
  destruct (call_fails w); [now left|].
  destruct (users (db w) !! ownerId) as [user|] eqn:Eu; [|now left].
  destruct (_ || _) eqn:Eoff; [now left|].
  apply orb_false_iff in Eoff as [Etoken Eon].
  apply negb_false_iff in Etoken, Eon.
  destruct (call_fails (after_call w)) as [code|].
  - destruct (stale_token code); [|now left].
    destruct (call_fails (after_call (after_call w))); now left.
  - right. destruct (AppUser.fcmToken user) as [token|] eqn:Et;
      [|discriminate].
    exists token. split; [|repeat split; reflexivity].
    exists user. repeat split; try assumption.
    intros ->. discriminate.
Qed.

(** X7.  [sendPushToOwner] hands at most one message to FCM, and only for
    an owner whose user document holds a non-empty token and has
    notifications switched on; the message goes to that token with the
    title, text and data given, and the database is then as before. *)
Theorem sendPushToOwner_only_reachable_owner (w : World num)
    (ownerId title text : string) (data : list (string * string)) :
  let w' := snd (sendPushToOwner ownerId title text data w) in
  sent w' = sent w \/
  exists token,
    reachable (db w) ownerId token /\
    sent w' = sent w ++ [mkPush token title text data] /\
    db w' = db w.
Proof.
  destruct (sendPushToOwner_sent w ownerId title text data)
    as [Hnone|(token & Hreach & _ & Hone & Hdb)]; [now left|].
  right. exists token. auto.
Qed.

(** X8.  When FCM refuses the message of a reachable owner, the failure is
    not passed on.  With a code other than the two that mean a dead token
    nothing changes.  With one of those two codes, once the clean-up write
    succeeds, the owner's user document is stored without its token (all
    else as before) and no later call of [sendPushToOwner] for that owner
    sends anything. *)
Theorem sendPushToOwner_drops_stale_token (w : World num)
    (ownerId title text token code : string) (data : list (string * string))
    (rest : list Outcome) :
  reachable (db w) ownerId token ->
  outcomes w = Succeeds :: Fails code :: Succeeds :: rest ->
  let w' := snd (sendPushToOwner ownerId title text data w) in
  fst (sendPushToOwner ownerId title text data w) = Return tt /\
  sent w' = sent w /\
  (stale_token code = false -> db w' = db w) /\
  (stale_token code = true ->
   (exists user,
      users (db w) !! ownerId = Some user /\
      db w' = set_users (<[ownerId := delete_fcmToken user]> (users (db w)))
                (db w)) /\
   forall now schedule title' text' data',
     sent (snd (sendPushToOwner ownerId title' text' data'
                  (at_time now schedule w'))) = sent w').
Proof.
  intros (user & Eu & Etoken & Hnonempty & Eon) Hschedule.
  assert (Hc1 : call_fails w = None)
    by (unfold call_fails; now rewrite Hschedule).
  assert (Hc2 : call_fails (after_call w) = Some code)
    by (unfold call_fails, after_call; cbn [outcomes];
        now rewrite Hschedule).
  assert (Hc3 : call_fails (after_call (after_call w)) = None)
    by (unfold call_fails, after_call; cbn [outcomes];
        now rewrite Hschedule).
  rewrite sendPushToOwner_run, Hc1, Eu, Etoken, Eon, Hc2, Hc3.
  destruct token as [|c token]; [contradiction|].
  cbn [truthy truthy_string negb orb].
  destruct (stale_token code) eqn:Estale; cbn [fst snd].
  - split; [reflexivity|]. split; [reflexivity|].
    split; [discriminate|]. intros _. split.
    + exists user. split; reflexivity.
    + intros now schedule title' text' data'.
      rewrite sendPushToOwner_run.
      match goal with
      | |- context [call_fails (at_time ?n ?s ?x)] =>
          destruct (call_fails (at_time n s x))
      end; [reflexivity|].
      cbn [db at_time with_db set_users users].
      rewrite lookup_insert_eq. reflexivity.
  - split; [reflexivity|]. split; [reflexivity|].
    split; [reflexivity | discriminate].
Qed.
End PushTheorems.

(** ** More of the creation of a request *)

Section CreationRun.
Context {num : Type} `{JsNumber num}.

(** The handler on a body that passes validation, in one equation. *)
Lemma requestApproval_run (w : World num) (agent : Agent.t)
    (request : ApprovalRequestBody num) (cost : num) :
  req_estimatedSolCost request = Some cost ->
  invalid_request request = false ->
  requestApproval agent request w =
  match evaluateTransaction (Agent.id agent) cost
          (req_targetProgram request) w with
  | (Throw _, w1) => (Return internal_error, w1)
  | (Return evaluation, w1) =>
      if valid_time (approval_expiry (clock w1) request) then
        match call_fails w1 with
        | Some _ => (Return internal_error, after_call (after_draw w1))
        | None =>
            let approvalRef := random w1 (drawn w1) in
            let w2 :=
              with_db
                (set_approvals
                   (<[approvalRef :=
                        approval_record agent request cost evaluation
                          (clock w1) approvalRef]> (approvals (db w1)))
                   (db w1))
                (after_call (after_draw w1)) in
            if autoApproved evaluation
            then (Return (mkResponse 201
                            (ApprovalCreatedBody approvalRef approved true
                               (reason evaluation))), w2)
            else
              match
                sendPushToOwner (Agent.ownerId agent)
                  ("Approval Required: " +:+ Agent.name agent)
                  (nullish (req_description request) "" +:+ " (" +:+
                   nshow cost +:+ " SOL)")
                  [("approvalId", approvalRef); ("agentId", Agent.id agent);
                   ("type", "approval_request")] w2
              with
              | (Return _, w3) =>
                  (Return (mkResponse 201
                             (ApprovalCreatedBody approvalRef pending false
                                (reason evaluation))), w3)
              | (Throw _, w3) => (Return internal_error, w3)
              end
        end
      else (Return internal_error, after_draw w1)
  end.
Proof.
  intros Hcost Hvalid. unfold invalid_request in Hvalid.
  rewrite Hcost in Hvalid.
  apply orb_false_iff in Hvalid as [Hfields Hsign].
  unfold requestApproval, try_catch. rewrite Hcost, Hfields, Hsign.
  unfold bind at 1.
  destruct (evaluateTransaction (Agent.id agent) cost
              (req_targetProgram request) w) as [[evaluation|e] w1];
    [|reflexivity].
  unfold bind at 1. unfold new_Date. cbn [fst snd].
  unfold bind at 1. unfold draw_random. cbn [fst snd].
  unfold bind at 1. unfold toISOString. fold (approval_expiry (clock w1) request).
  change (clock (mkWorld (db w1) (clock w1) (outcomes w1) (random w1)
                   (S (drawn w1)) (sent w1))) with (clock w1).
  destruct (valid_time (approval_expiry (clock w1) request)); [|reflexivity].
  unfold ret at 1. unfold bind at 1. rewrite set_approval_run.
  fold (after_draw w1).
  change (call_fails (after_draw w1)) with (call_fails w1).
  destruct (call_fails w1); [reflexivity|].
  unfold bind at 1. unfold approval_record. cbv zeta.
  change (db (after_draw w1)) with (db w1).
  destruct (autoApproved evaluation); [reflexivity|].
  cbn [negb].
  match goal with
  | |- context [sendPushToOwner ?o ?t ?b ?d ?w2] =>
      destruct (sendPushToOwner o t b d w2) as [[[]|e] w3]
  end; reflexivity.
Qed.
End CreationRun.

Section CreationMore.
Context {num : Type} `{JsNumber num}.

Lemma invalid_request_cost (request : ApprovalRequestBody num) :
  invalid_request request = false ->
  exists cost, req_estimatedSolCost request = Some cost.
Proof.
  unfold invalid_request.
  destruct (req_estimatedSolCost request) as [cost|]; [eauto | discriminate].
Qed.

Lemma requestApproval_invalid (w : World num) (agent : Agent.t)
    (request : ApprovalRequestBody num) :
  invalid_request request = true ->
  exists message,
    requestApproval agent request w
    = (Return (mkResponse 400 (ErrorBody message)), w).
Proof.
  unfold invalid_request, requestApproval, try_catch.
  destruct (req_estimatedSolCost request) as [cost|]; [|eauto].
  destruct (negb (truthy (req_description request)) ||
            negb (truthy (req_txType request))); [eauto|].
  cbn [orb]. intros Hnegative. rewrite Hnegative. eauto.
Qed.

(** What the handler has stored when it answers 201. *)
Lemma requestApproval_created (w : World num) (agent : Agent.t)
    (request : ApprovalRequestBody num) (approvalId : string)
    (status : ApprovalStatus) (auto : bool) (why : string) :
  fst (requestApproval agent request w)
  = Return (mkResponse 201 (ApprovalCreatedBody approvalId status auto why)) ->
  let w' := snd (requestApproval agent request w) in
  exists record,
    approvals (db w') !! approvalId = Some record /\
    ApprovalRequest.agentId record = Agent.id agent /\
    ApprovalRequest.status record = status /\
    (status = pending \/ status = approved) /\
    agents (db w') = agents (db w).
Proof.
  destruct (invalid_request request) eqn:Hvalid.
  { destruct (requestApproval_invalid w agent request Hvalid) as [message ->].
    discriminate. }
  destruct (invalid_request_cost _ Hvalid) as [cost Hcost].
  rewrite (requestApproval_run w agent request cost Hcost Hvalid).
  pose proof (evaluateTransaction_world w (Agent.id agent) cost
                (req_targetProgram request)) as (Hdb & _).
  destruct (evaluateTransaction _ _ _ w) as [[evaluation|e] w1];
    cbn [fst snd] in *; [|discriminate].
  destruct (valid_time _); [|discriminate].
  destruct (call_fails w1); [discriminate|].
  cbv zeta.
  destruct (autoApproved evaluation) eqn:Hauto.
  - cbn [fst snd]. intros [= <- <- <- <-].
    eexists. split; [apply lookup_insert_eq|].
    unfold approval_record. rewrite Hauto. cbn. rewrite Hdb. auto.
  - match goal with
    | |- context [sendPushToOwner ?o ?t ?b ?d ?w2] =>
        pose proof (sendPushToOwner_keeps w2 o t b d) as (Hkeep & Hagents & _);
        destruct (sendPushToOwner o t b d w2) as [[[]|e] w3]
    end; cbn [fst snd] in *; [|discriminate].
    intros [= <- <- <- <-].
    eexists. split; [rewrite Hkeep; apply lookup_insert_eq|].
    unfold approval_record. rewrite Hauto, Hagents. cbn. rewrite Hdb. auto.
Qed.

(** X9.  [POST /api/approvals/request] answers 400 exactly for a body
    without a cost, without a non-empty description or transaction type,
    or with a negative cost, and then it has contacted nothing: the world
    is the same.  Any other body is answered 201 or 500. *)
Theorem requestApproval_validation (w : World num) (agent : Agent.t)
    (request : ApprovalRequestBody num) :
  (invalid_request request = true ->
   exists message,
     requestApproval agent request w
     = (Return (mkResponse 400 (ErrorBody message)), w)) /\
  (invalid_request request = false ->
   exists resp,
     fst (requestApproval agent request w) = Return resp /\
     (http_status resp = 201 \/ http_status resp = 500)).
Proof.
  split; [apply requestApproval_invalid|].
  intros Hvalid. destruct (invalid_request_cost _ Hvalid) as [cost Hcost].
  rewrite (requestApproval_run w agent request cost Hcost Hvalid).
  destruct (evaluateTransaction _ _ _ w) as [[evaluation|e] w1];
    [|eexists; split; [reflexivity | now right]].
  destruct (valid_time _); [|eexists; split; [reflexivity | now right]].
  destruct (call_fails w1); [eexists; split; [reflexivity | now right]|].
  cbv zeta.
  destruct (autoApproved evaluation);
    [eexists; split; [reflexivity | now left]|].
  match goal with
  | |- context [sendPushToOwner ?o ?t ?b ?d ?w2] =>
      destruct (sendPushToOwner o t b d w2) as [[[]|e] w3]
  end; eexists; (split; [reflexivity|]); [now left | now right].
Qed.

(** X10.  Serving a request for approval sends at most one message.  When
    one is sent, the answer is 201 with status pending, the request is
    stored as pending under the id of the answer, and the message goes to
    the stored token of the agent's owner, who has notifications switched
    on, carrying that id, the agent's id and name, the description and the
    cost.  An auto-approved request sends nothing. *)
Theorem requestApproval_notifies_once (w : World num) (agent : Agent.t)
    (request : ApprovalRequestBody num) :
  let w' := snd (requestApproval agent request w) in
  sent w' = sent w \/
  exists cost approvalId token record,
    req_estimatedSolCost request = Some cost /\
    reachable (db w) (Agent.ownerId agent) token /\
    approvals (db w') !! approvalId = Some record /\
    ApprovalRequest.status record = pending /\
    fst (requestApproval agent request w)
    = Return (mkResponse 201
                (ApprovalCreatedBody approvalId pending false
                   (ApprovalRequest.policyEvaluation record))) /\
    sent w' = sent w ++
              [approval_notification agent request cost approvalId token].
Proof.
  destruct (invalid_request request) eqn:Hvalid.
  { destruct (requestApproval_invalid w agent request Hvalid) as [message ->].
    now left. }
  destruct (invalid_request_cost _ Hvalid) as [cost Hcost].
  rewrite (requestApproval_run w agent request cost Hcost Hvalid).
  pose proof (evaluateTransaction_world w (Agent.id agent) cost
                (req_targetProgram request)) as (Hdb & _ & _ & _ & Hsent).
  destruct (evaluateTransaction _ _ _ w) as [[evaluation|e] w1];
    cbn [fst snd] in *; [|now left].
  destruct (valid_time _); [|now left].
  destruct (call_fails w1); [now left|].
  cbv zeta.
  destruct (autoApproved evaluation) eqn:Hauto; [now left|].
  match goal with
  | |- context [sendPushToOwner ?o ?t ?b ?d ?w2] =>
      pose proof (sendPushToOwner_sent w2 o t b d) as Hpush;
      pose proof (sendPushToOwner_keeps w2 o t b d) as (Hkeep & _);
      destruct (sendPushToOwner o t b d w2) as [[[]|e] w3]
  end; cbn [fst snd] in *.
  - destruct Hpush as [Hnone|(token & Hreach & _ & Hone & _)];
      [left; now rewrite Hnone|].
    right. exists cost, (random w1 (drawn w1)), token.
    eexists. split; [exact Hcost|].
    split.
    { destruct Hreach as (user & Huser & Hreach).
      cbn [db with_db set_approvals users] in Huser. rewrite Hdb in Huser.
      now exists user. }
    split; [rewrite Hkeep; apply lookup_insert_eq|].
    unfold approval_record. rewrite Hauto.
    split; [reflexivity|]. split; [reflexivity|].
    rewrite Hone. cbn [sent with_db after_call after_draw].
    now rewrite Hsent.
  - destruct Hpush as [Hnone|(token & _ & Hreturned & _)];
      [left; now rewrite Hnone | discriminate].
Qed.
End CreationMore.

Section CreationEdge.
Context {num : Type} `{JsNumber num}.

(** X11.  A valid request whose time to live puts the expiry outside the
    range of [Date] is answered 500 (converting the expiry to an ISO
    string throws), and no approval is stored and no message sent. *)
Theorem requestApproval_expiry_out_of_range (w : World num) (agent : Agent.t)
    (request : ApprovalRequestBody num) :
  invalid_request request = false ->
  valid_time (approval_expiry (clock w) request) = false ->
  let w' := snd (requestApproval agent request w) in
  fst (requestApproval agent request w) = Return internal_error /\
  db w' = db w /\ sent w' = sent w.
Proof.
  intros Hvalid Hrange.
  destruct (invalid_request_cost _ Hvalid) as [cost Hcost].
  rewrite (requestApproval_run w agent request cost Hcost Hvalid).
  pose proof (evaluateTransaction_world w (Agent.id agent) cost
                (req_targetProgram request)) as (Hdb & Hclock & _ & _ & Hsent).
  destruct (evaluateTransaction _ _ _ w) as [[evaluation|e] w1];
    cbn [fst snd] in *; [|auto].
  rewrite Hclock, Hrange. cbn [fst snd]. auto.
Qed.
End CreationEdge.

(** X8 when FCM reports that the owner's token is no longer registered. *)
Lemma sendPushToOwner_drops_stale_token_witness :
  let w := Examples.world
             (Examples.db_with {[ "policy-1" := Examples.policy1 [] ]} ∅ ∅)
             [Succeeds; Fails "messaging/registration-token-not-registered";
              Succeeds] in
  let w' := snd (sendPushToOwner "user-1" "title" "text" [] w) in
  AppUser.fcmToken <$> users (db w') !! "user-1" = Some None /\
  sent (snd (sendPushToOwner "user-1" "again" "text" [] w')) = [].
Proof.
  intros w w'.
  destruct (sendPushToOwner_drops_stale_token w "user-1" "title" "text"
              "token-1" "messaging/registration-token-not-registered" [] [])
    as (_ & Hsent & _ & Hstale).
  - exists Examples.owner. repeat split; [discriminate].
  - reflexivity.
  - destruct (Hstale eq_refl) as ((user & Huser & Hdb) & Hlater).
    fold w' in Hdb, Hlater, Hsent. split.
    + rewrite Hdb. cbn [users set_users]. rewrite lookup_insert_eq.
      reflexivity.
    + specialize (Hlater (clock w') (outcomes w') "again" "text" []).
      unfold at_time in Hlater. rewrite world_eta in Hlater.
      rewrite Hlater. exact Hsent.
Defined.

(** X9 on a request without a description and on the request of the
    scenarios. *)
Lemma requestApproval_validation_witness :
  fst (requestApproval Examples.agent1
         (mkApprovalRequestBody None (Some "swap") (Some (2 # 1)%Q) None None
            None None None) Examples.world_fresh)
  = Return (mkResponse 400
              (ErrorBody
                 "Missing required fields: description, txType, estimatedSolCost")) /\
  exists resp,
    fst (requestApproval Examples.agent1
           (Examples.swap_request (2 # 1)%Q None) Examples.world_fresh)
    = Return resp /\
    (http_status resp = 201 \/ http_status resp = 500).
Proof.
  split.
  - destruct (requestApproval_validation Examples.world_fresh Examples.agent1
                (mkApprovalRequestBody None (Some "swap") (Some (2 # 1)%Q)
                   None None None None None)) as [Hbad _].
    destruct (Hbad eq_refl) as [message Hanswer].
    rewrite Hanswer. vm_compute in Hanswer. injection Hanswer as <-.
    reflexivity.
  - destruct (requestApproval_validation Examples.world_fresh Examples.agent1
                (Examples.swap_request (2 # 1)%Q None)) as [_ Hgood].
    exact (Hgood eq_refl).
Defined.

(** X11 on a time to live of two hundred thousand million minutes. *)
Lemma requestApproval_expiry_out_of_range_witness :
  let request := Examples.swap_request (2 # 1)%Q (Some 200000000000) in
  fst (requestApproval Examples.agent1 request Examples.world_fresh)
  = Return internal_error /\
  approvals (db (snd (requestApproval Examples.agent1 request
                        Examples.world_fresh))) = ∅.
Proof.
  intros request.
  destruct (requestApproval_expiry_out_of_range Examples.world_fresh
              Examples.agent1 request) as (Hanswer & Hdb & _);
    [reflexivity | reflexivity |].
  split; [exact Hanswer | now rewrite Hdb].
Defined.
Section CreationClaim.
Context {num : Type} `{JsNumber num}.

(** The notification returns when its first two calls succeed. *)
Lemma sendPushToOwner_returns (w : World num) ownerId title text data :
  calls_succeed 2 (outcomes w) = true ->
  fst (sendPushToOwner ownerId title text data w) = Return tt.
Proof.
  intros Hs. apply calls_succeed_S in Hs as [Hc1 Hs].
  apply calls_succeed_S in Hs as [Hc2 _].
  rewrite sendPushToOwner_run, Hc1.
  destruct (users (db w) !! ownerId); [|reflexivity].
  destruct (_ || _); [reflexivity|]. now rewrite Hc2.
Qed.

(** C4.  The creation of an approval request.  For a body that passes
    validation, when the policy evaluator returns its evaluation, the
    time of expiry is a date and the write of the request succeeds, one
    request is stored, under the id drawn for it and beside the requests
    stored before: created at the time of the request, expiring that
    time plus the requested TTL in minutes, 15 when none is given.  If
    the evaluator auto-approved, it is stored directly as [approved] with
    [respondedAt] equal to the creation time, and the answer is 201; if
    human review is required, it is stored as [pending] without
    [respondedAt], and the answer is 201 when the two calls of the
    notification succeed, and 201 or 500 otherwise.  Conversely,
    whenever the answer is 201 the request of the answer is stored with
    these fields. *)
Theorem requestApproval_creates_record (w : World num) (agent : Agent.t)
    (request : ApprovalRequestBody num) :
  let run := requestApproval agent request w in
  let ttl := match req_expiresInMinutes request with
             | Some minutes => minutes
             | None => 15
             end in
  let approvalId := random w (drawn w) in
  (forall cost evaluation w1,
     req_estimatedSolCost request = Some cost ->
     invalid_request request = false ->
     evaluateTransaction (Agent.id agent) cost (req_targetProgram request) w
     = (Return evaluation, w1) ->
     valid_time (clock w + ttl * 60 * 1000) = true ->
     call_fails w1 = None ->
     exists record,
       approvals (db (snd run)) = <[approvalId := record]> (approvals (db w)) /\
       ApprovalRequest.id record = approvalId /\
       ApprovalRequest.agentId record = Agent.id agent /\
       ApprovalRequest.createdAt record = clock w /\
       ApprovalRequest.expiresAt record = clock w + ttl * 60 * 1000 /\
       (autoApproved evaluation = true ->
        ApprovalRequest.status record = approved /\
        ApprovalRequest.respondedAt record
        = Some (ApprovalRequest.createdAt record) /\
        fst run = Return (mkResponse 201
                            (ApprovalCreatedBody approvalId approved true
                               (reason evaluation)))) /\
       (autoApproved evaluation = false ->
        ApprovalRequest.status record = pending /\
        ApprovalRequest.respondedAt record = None /\
        (fst run = Return (mkResponse 201
                             (ApprovalCreatedBody approvalId pending false
                                (reason evaluation))) \/
         fst run = Return internal_error) /\
        (calls_succeed 2 (outcomes (after_call w1)) = true ->
         fst run = Return (mkResponse 201
                             (ApprovalCreatedBody approvalId pending false
                                (reason evaluation)))))) /\
  (forall resp,
     fst run = Return resp ->
     http_status resp = 201 ->
     exists estimatedSolCost evaluation approvalId record,
       req_estimatedSolCost request = Some estimatedSolCost /\
       fst (evaluateTransaction (Agent.id agent) estimatedSolCost
              (req_targetProgram request) w) = Return evaluation /\
       body resp = ApprovalCreatedBody approvalId
                     (ApprovalRequest.status record)
                     (autoApproved evaluation) (reason evaluation) /\
       approvals (db (snd run)) !! approvalId = Some record /\
       ApprovalRequest.createdAt record = clock w /\
       ApprovalRequest.expiresAt record = clock w + ttl * 60 * 1000 /\
       (autoApproved evaluation = true ->
        ApprovalRequest.status record = approved /\
        ApprovalRequest.respondedAt record
        = Some (ApprovalRequest.createdAt record)) /\
       (autoApproved evaluation = false ->
        ApprovalRequest.status record = pending /\
        ApprovalRequest.respondedAt record = None)).
Proof.
  intros run ttl approvalId.
  split; [|intros resp; apply requestApproval_created_record].
  intros cost evaluation w1 Hcost Hvalid Hev Htime Hwrite.
  pose proof (evaluateTransaction_world w (Agent.id agent) cost
                (req_targetProgram request)) as (Hdb & Hclock & Hrandom & Hdrawn & _).
  rewrite Hev in Hdb, Hclock, Hrandom, Hdrawn. cbn [snd] in *.
  subst run.
  rewrite (requestApproval_run w agent request cost Hcost Hvalid), Hev.
  unfold approval_expiry, nullish. rewrite Hclock. fold ttl. rewrite Htime, Hwrite.
  cbv zeta. rewrite Hrandom, Hdrawn, Hdb. fold approvalId.
  exists (approval_record agent request cost evaluation (clock w) approvalId).
  destruct (autoApproved evaluation) eqn:Hauto.
  - cbn [fst snd db with_db approvals set_approvals].
    split; [reflexivity|]. unfold approval_record. rewrite Hauto.
    cbn. fold ttl. repeat split; intros; congruence.
  - match goal with
    | |- context [sendPushToOwner ?o ?t ?b ?d ?w2] =>
        pose proof (sendPushToOwner_keeps w2 o t b d) as (Hkeep & _);
        pose proof (sendPushToOwner_returns w2 o t b d) as Hpush;
        destruct (sendPushToOwner o t b d w2) as [[[]|e] w3]
    end; cbn [fst snd] in Hkeep, Hpush |- *;
      (split; [exact Hkeep|]); unfold approval_record; rewrite Hauto;
      cbn [ApprovalRequest.id ApprovalRequest.agentId
           ApprovalRequest.createdAt ApprovalRequest.expiresAt
           ApprovalRequest.status ApprovalRequest.respondedAt];
      fold ttl;
      (split; [reflexivity|]); (split; [reflexivity|]);
      (split; [reflexivity|]); (split; [reflexivity|]);
      (split; [discriminate|]); intros _;
      (split; [reflexivity|]); (split; [reflexivity|]).
    + split; [now left | reflexivity].
    + split; [now right|]. intros Hs. specialize (Hpush Hs). discriminate.
Qed.
End CreationClaim.

(** C4 at an auto-approved request (0.05 SOL, default TTL) and at one that
    needs review (2 SOL, TTL of one minute). *)
Lemma requestApproval_creates_record_witness :
  let w := Examples.world_fresh in
  let small := Examples.swap_request (5 # 100)%Q None in
  let large := Examples.swap_request (2 # 1)%Q (Some 1) in
  (exists record,
     approvals (db (snd (requestApproval Examples.agent1 small w))) !! "doc0"
     = Some record /\
     ApprovalRequest.status record = approved /\
     ApprovalRequest.respondedAt record = Some Examples.noon /\
     ApprovalRequest.expiresAt record = Examples.noon + 15 * 60 * 1000 /\
     fst (requestApproval Examples.agent1 small w)
     = Return (mkResponse 201
                 (ApprovalCreatedBody "doc0" approved true within_reason))) /\
  (exists record,
     approvals (db (snd (requestApproval Examples.agent1 large w))) !! "doc0"
     = Some record /\
     ApprovalRequest.status record = pending /\
     ApprovalRequest.respondedAt record = None /\
     ApprovalRequest.expiresAt record = Examples.noon + 1 * 60 * 1000 /\
     fst (requestApproval Examples.agent1 large w)
     = Return (mkResponse 201
                 (ApprovalCreatedBody "doc0" pending false
                    "Transaction amount 2 SOL exceeds per-tx limit of 0.5 SOL."))).
Proof.
  intros w small large. split.
  - destruct (proj1 (requestApproval_creates_record w Examples.agent1 small)
                (5 # 100)%Q (mkEval true within_reason)
                (after_call (after_call w)))
      as (record & Hstored & _ & _ & Hcreated & Hexpires & Hauto & _);
      [reflexivity | vm_compute; reflexivity | vm_compute; reflexivity
      | reflexivity | reflexivity |].
    destruct (Hauto eq_refl) as (Hstatus & Hresponded & Hanswer).
    exists record. rewrite Hstored.
    split; [apply lookup_insert_eq|]. split; [exact Hstatus|].
    split; [now rewrite Hresponded, Hcreated|].
    split; [exact Hexpires | exact Hanswer].
  - destruct (proj1 (requestApproval_creates_record w Examples.agent1 large)
                (2 # 1)%Q
                (mkEval false
                   "Transaction amount 2 SOL exceeds per-tx limit of 0.5 SOL.")
                (after_call w))
      as (record & Hstored & _ & _ & _ & Hexpires & _ & Hreview);
      [reflexivity | vm_compute; reflexivity | vm_compute; reflexivity
      | reflexivity | reflexivity |].
    destruct (Hreview eq_refl) as (Hstatus & Hresponded & _ & Hanswer).
    exists record. rewrite Hstored.
    split; [apply lookup_insert_eq|]. split; [exact Hstatus|].
    split; [exact Hresponded|].
    split; [exact Hexpires | exact (Hanswer eq_refl)].
Defined.

(** ** Who may see a request *)

Section AccessControl.
Context {num : Type} `{JsNumber num}.
Variable hashApiKey : string -> string.

(** X12.  [GET /api/approvals/:id/status] discloses the status of a
    request only to its agent: whenever the route answers 200, the
    request is stored, the header carried a non-empty key whose hash is
    that of a stored agent, and the request belongs to the agent under
    whose document id that key was found. *)
Theorem get_approvals_status_only_for_own_agent (w : World num)
    (authorization : option string) (approvalId : string) (answer : Body) :
  fst (get_approvals_status hashApiKey authorization approvalId w)
  = Return (mkResponse 200 answer) ->
  exists apiKey agentId agent data,
    authorization = Some ("Bearer " +:+ apiKey) /\
    apiKey <> "" /\
    agents (db w) !! agentId = Some agent /\
    Agent.apiKeyHash agent = hashApiKey apiKey /\
    approvals (db w) !! approvalId = Some data /\
    ApprovalRequest.agentId data = agentId.
Proof.
  unfold get_approvals_status. rewrite authenticated_run.
  pose proof (authenticateAgent_accepts hashApiKey authorization w) as Hauth.
  pose proof (authenticateAgent_refuses hashApiKey authorization w) as Hno.
  destruct (authenticateAgent hashApiKey authorization w)
    as [[[refusal|[agentId agent]]|code] w1]; cbn [fst snd] in *;
    [|destruct (Hauth _ _ eq_refl)
        as (apiKey & Hheader & Hkey & Hagent & Hhash & ->)
     |discriminate].
  - destruct (Hno _ eq_refl) as [[Hstatus|Hstatus] _];
      intros [= ->]; discriminate.
  - rewrite getApprovalStatus_run.
    change (db (after_call w)) with (db w).
    destruct (call_fails (after_call w)); [discriminate|].
    destruct (approvals (db w) !! approvalId) as [data|]; [|discriminate].
    destruct (String.eqb (ApprovalRequest.agentId data) agentId) eqn:Eown;
      cbn [negb]; [|discriminate].
    intros _. apply String.eqb_eq in Eown.
    exists apiKey, agentId, agent, data. auto 10.
Qed.
End AccessControl.

Section RequestThenPoll.
Context {num : Type} `{JsNumber num}.
Variable hashApiKey : string -> string.

(** The middleware finds the same agent in two worlds with the same
    agents, when its query succeeds in both. *)
Lemma authenticateAgent_same_agents (authorization : option string)
    (w w2 : World num) (agentId : string) (agent : Agent.t) :
  agents (db w2) = agents (db w) ->
  call_fails w2 = None ->
  fst (authenticateAgent hashApiKey authorization w)
  = Return (inr (agentId, agent)) ->
  authenticateAgent hashApiKey authorization w2
  = (Return (inr (agentId, agent)), after_call w2).
Proof.
  intros Hagents Hcall. rewrite !authenticateAgent_run, Hcall, Hagents.
  destruct authorization as [authHeader|]; [|discriminate].
  destruct (String.prefix "Bearer " authHeader); [|discriminate].
  destruct (negb _); [discriminate|].
  destruct (call_fails w); [discriminate|].
  match goal with
  | |- context [where_ ?f ?l] => destruct (where_ f l) as [|x rest]
  end; simpl; [discriminate|].
  now intros [= <- <-].
Qed.

(** X13.  An agent can follow the request it has made.  When
    [POST /api/approvals/request] answers 201 with an id, a later
    [GET /api/approvals/<id>/status] with the same header, whose calls
    succeed, answers 200 (never 403 or 404) with the status of the 201
    answer, or with expired when that status was pending and the expiry
    time has passed; provided the [id] field of every stored agent is
    the id of its document. *)
Theorem requested_approval_can_be_polled (w : World num)
    (authorization : option string) (request : ApprovalRequestBody num)
    (approvalId : string) (status : ApprovalStatus) (auto : bool)
    (why : string) (now : Z) (schedule : list Outcome) :
  (forall id a, agents (db w) !! id = Some a -> Agent.id a = id) ->
  fst (post_approvals_request hashApiKey authorization request w)
  = Return (mkResponse 201 (ApprovalCreatedBody approvalId status auto why)) ->
  calls_succeed 3 schedule = true ->
  let w' := snd (post_approvals_request hashApiKey authorization request w) in
  exists status' createdAt expiresAt respondedAt,
    fst (get_approvals_status hashApiKey authorization approvalId
           (at_time now schedule w'))
    = Return (mkResponse 200
                (ApprovalStatusBody approvalId status' createdAt expiresAt
                   respondedAt)) /\
    (status' = status \/
     (status = pending /\ status' = expired /\ expiresAt < now)).
Proof.
  intros Hids Hpost Hs. cbv zeta.
  unfold post_approvals_request in *. rewrite authenticated_run in Hpost |- *.
  pose proof (authenticateAgent_accepts hashApiKey authorization w) as Hauth.
  pose proof (authenticateAgent_refuses hashApiKey authorization w) as Hno.
  pose proof (authenticateAgent_same_agents authorization w) as Hagain.
  destruct (authenticateAgent hashApiKey authorization w)
    as [[[refusal|[agentId agent]]|code] w1]; cbn [fst snd] in *;
    [|destruct (Hauth _ _ eq_refl) as (apiKey & _ & _ & Hagent & _ & ->)
     |discriminate].
  { destruct (Hno _ eq_refl) as [[Hstatus|Hstatus] _];
      injection Hpost as ->; discriminate. }
  destruct (requestApproval_created _ _ _ _ _ _ _ Hpost)
    as (record & Hrecord & Howner & Hstatus & _ & Hagents).
  generalize dependent (snd (requestApproval agent request (after_call w))).
  intros w' Hrecord Hagents.
  change (agents (db (after_call w))) with (agents (db w)) in Hagents.
  apply (calls_succeed_S 2 (at_time now schedule w')) in Hs as [Hc1 Hs].
  apply calls_succeed_S in Hs as [Hc2 Hs].
  apply calls_succeed_S in Hs as [Hc3 _].
  unfold get_approvals_status. rewrite authenticated_run.
  rewrite (Hagain (at_time now schedule w') agentId agent Hagents Hc1 eq_refl).
  cbn [fst snd]. rewrite getApprovalStatus_run, Hc2.
  change (db (after_call (at_time now schedule w'))) with (db w').
  rewrite Hrecord, Howner, (Hids _ _ Hagent), String.eqb_refl. cbn [negb].
  change (clock (after_call (at_time now schedule w'))) with now.
  destruct (bool_decide (ApprovalRequest.status record = pending) &&
            (ApprovalRequest.expiresAt record <? now)) eqn:Hexp.
  - rewrite Hc3. cbn [fst]. eexists _, _, _, _. split; [reflexivity|].
    apply andb_true_iff in Hexp as [Hpending Hpast].
    apply bool_decide_eq_true in Hpending. apply Z.ltb_lt in Hpast.
    right. split; [congruence | split; [reflexivity | exact Hpast]].
  - cbn [fst]. eexists _, _, _, _. split; [reflexivity|]. now left.
Qed.
End RequestThenPoll.

(** ** The status endpoint and the timer of the card *)

Section StatusMore.
Context {num : Type} `{JsNumber num}.

(** X14.  A status poll sends nothing and writes nothing but the lazy
    expiry: afterwards every collection is as before, except that the
    polled request may have gone from pending to expired, and this only
    when it belongs to the polling agent and its expiry time has passed.
    A poll by another agent never changes anything. *)
Theorem getApprovalStatus_writes_only_the_expiry (w : World num)
    (caller approvalId : string) :
  let w' := snd (getApprovalStatus caller approvalId w) in
  users (db w') = users (db w) /\
  agents (db w') = agents (db w) /\
  policies (db w') = policies (db w) /\
  transactions (db w') = transactions (db w) /\
  sent w' = sent w /\
  (approvals (db w') = approvals (db w) \/
   exists data,
     approvals (db w) !! approvalId = Some data /\
     ApprovalRequest.agentId data = caller /\
     ApprovalRequest.status data = pending /\
     ApprovalRequest.expiresAt data < clock w /\
     approvals (db w')
     = <[approvalId := ApprovalRequest.with_status expired data]>
         (approvals (db w))).
Proof.
  rewrite getApprovalStatus_run.
  destruct (call_fails w); [repeat split; now left|].
  destruct (approvals (db w) !! approvalId) as [data|] eqn:E;
    [|repeat split; now left].
  destruct (String.eqb (ApprovalRequest.agentId data) caller) eqn:Eown;
    cbn [negb]; [|repeat split; now left].
  destruct (bool_decide _ && _) eqn:Hexp; [|repeat split; now left].
  destruct (call_fails (after_call w)); [repeat split; now left|].
  apply andb_true_iff in Hexp as [Hpending Hpast].
  apply bool_decide_eq_true in Hpending. apply Z.ltb_lt in Hpast.
  apply String.eqb_eq in Eown.
  repeat split. right. exists data. repeat split; assumption.
Qed.
End StatusMore.

Lemma last_char_app (a b : string) :
  b <> "" -> last_char (a +:+ b) = last_char b.
Proof.
  intros Hb. induction a as [|c a IH]; [reflexivity|].
  change (last_char (String c (a +:+ b)) = last_char b).
  rewrite <- IH. destruct (a +:+ b) eqn:E; [|reflexivity].
  destruct a; [now cbn in E | discriminate].
Qed.

Lemma append_nonempty (a b : string) : b <> "" -> a +:+ b <> "".
Proof. intros Hb. destruct a; [exact Hb | discriminate]. Qed.

Lemma updateTimer_expired (now expires : Z) :
  isExpired (updateTimer now expires) = true <-> expires <= now.
Proof.
  unfold updateTimer, isExpired. cbv zeta.
  destruct (Z.leb_spec (expires - now) 0) as [Hle|Hlt].
  - split; [lia | reflexivity].
  - split; [|lia]. intros Heq. apply String.eqb_eq in Heq.
    apply (f_equal last_char) in Heq.
    rewrite !last_char_app in Heq
      by (repeat apply append_nonempty; discriminate).
    discriminate.
Qed.

(** X15.  The timer of a card reads "Expired" exactly from the expiry time
    on.  Before that it shows whole minutes and seconds that add up to
    the whole seconds left, with fewer than sixty seconds. *)
Theorem updateTimer_expired_iff (now expires : Z) :
  (isExpired (updateTimer now expires) = true <-> expires <= now) /\
  (now < expires ->
   exists mins secs,
     updateTimer now expires = pretty mins +:+ "m " +:+ pretty secs +:+ "s" /\
     0 <= mins /\ 0 <= secs < 60 /\
     60 * mins + secs = (expires - now) / 1000).
Proof.
  split; [apply updateTimer_expired|].
  intros Hlt. unfold updateTimer. cbv zeta.
  destruct (Z.leb_spec (expires - now) 0) as [Hle|_]; [lia|].
  eexists _, _. split; [reflexivity|].
  pose proof (Z.div_mod (expires - now) 60000 ltac:(lia)) as Hdm.
  pose proof (Z.mod_pos_bound (expires - now) 60000 ltac:(lia)) as Hm.
  assert (Hmins : 0 <= (expires - now) / 60000)
    by (apply Z.div_pos; lia).
  split; [exact Hmins|].
  split; [split; [apply Z.div_pos; lia
                 | apply Z.div_lt_upper_bound; lia]|].
  rewrite Hdm at 3.
  replace (60000 * ((expires - now) / 60000) + (expires - now) mod 60000)
    with ((expires - now) mod 60000 + (60 * ((expires - now) / 60000)) * 1000)
    by lia.
  rewrite Z.div_add by lia. lia.
Qed.

(** X15 one and a half minutes before the expiry, and at the expiry. *)
Lemma updateTimer_expired_iff_witness :
  updateTimer 30000 120000 = "1m 30s" /\
  isExpired (updateTimer 120000 120000) = true.
Proof.
  destruct (updateTimer_expired_iff 30000 120000) as [_ Hleft].
  destruct (updateTimer_expired_iff 120000 120000) as [[_ Hexpired] _].
  split; [|apply Hexpired; lia].
  destruct (Hleft ltac:(lia)) as (mins & secs & Htext & _).
  rewrite Htext. vm_compute in Htext. exact (eq_sym Htext).
Defined.

Section CardAndPoll.
Context {num : Type} `{JsNumber num}.

(** X16.  The card and the status endpoint agree on expiry.  For a stored
    pending request polled by its agent at the instant the card computes
    its timer, with the calls succeeding: while the card still offers
    its buttons the poll leaves the request pending; once the expiry
    time has passed the poll stores it as expired and the card reads
    "Expired". *)
Theorem card_buttons_and_lazy_expiry (w : World num)
    (caller approvalId : string) (data : ApprovalRequest.t num) (now : Z)
    (schedule : list Outcome) :
  approvals (db w) !! approvalId = Some data ->
  ApprovalRequest.status data = pending ->
  ApprovalRequest.agentId data = caller ->
  calls_succeed 2 schedule = true ->
  let timeLeft := updateTimer now (ApprovalRequest.expiresAt data) in
  let w' := snd (getApprovalStatus caller approvalId
                   (at_time now schedule w)) in
  (isExpired timeLeft = false -> stored_status w' approvalId = Some pending) /\
  (ApprovalRequest.expiresAt data < now ->
   stored_status w' approvalId = Some expired /\ isExpired timeLeft = true).
Proof.
  intros Hdata Hpending Hcaller Hs. cbv zeta.
  apply (calls_succeed_S 1 (at_time now schedule w)) in Hs as [Hc1 Hs].
  apply calls_succeed_S in Hs as [Hc2 _].
  rewrite getApprovalStatus_run, Hc1.
  change (db (at_time now schedule w)) with (db w).
  change (clock (at_time now schedule w)) with now.
  rewrite Hdata, Hcaller, String.eqb_refl, Hc2. cbn [negb].
  rewrite (bool_decide_eq_true_2 _ Hpending). cbn [andb].
  unfold stored_status. split.
  - intros Hoffered.
    assert (Hnot : ~ ApprovalRequest.expiresAt data <= now).
    { intros Hle. apply updateTimer_expired in Hle. congruence. }
    destruct (Z.ltb_spec (ApprovalRequest.expiresAt data) now); [lia|].
    cbn [snd db after_call at_time]. rewrite Hdata.
    cbn [fmap option_fmap option_map]. now rewrite Hpending.
  - intros Hpast.
    destruct (Z.ltb_spec (ApprovalRequest.expiresAt data) now); [|lia].
    split; [|apply updateTimer_expired; lia].
    cbn [snd db with_db set_approvals approvals].
    now rewrite lookup_insert_eq.
Qed.
End CardAndPoll.

(** X16 on the request of the examples, which expires after one minute:
    half a minute after its creation, and two minutes after it. *)
Lemma card_buttons_and_lazy_expiry_witness :
  let w := Examples.world_with_approval pending None in
  stored_status
    (snd (getApprovalStatus "agent-1" "approval-1" (at_time 30000 [] w)))
    "approval-1" = Some pending /\
  stored_status
    (snd (getApprovalStatus "agent-1" "approval-1" (at_time 120000 [] w)))
    "approval-1" = Some expired.
Proof.
  intros w.
  destruct (card_buttons_and_lazy_expiry w "agent-1" "approval-1"
              (Examples.approval1 pending None) 30000 [])
    as [Hoffered _]; try reflexivity.
  destruct (card_buttons_and_lazy_expiry w "agent-1" "approval-1"
              (Examples.approval1 pending None) 120000 [])
    as [_ Hpast]; try reflexivity.
  split; [apply Hoffered; reflexivity|].
  apply Hpast. reflexivity.
Defined.

(** ** The approval screen *)

Section ScreenFacts.
Context {num : Type}.

(** [handleApprove] and [handleDeny] in one equation. *)
Lemma respond_handler_run (w : World num) (response : HumanResponse)
    (shown : Alert) (pendingApprovals : list (ApprovalRequest.t num))
    (approvalId : string) :
  respond_handler response shown pendingApprovals approvalId w =
  let updated :=
    updateApproval approvalId (status_of_response response) (clock w)
      pendingApprovals in
  if String.prefix "demo_" approvalId then (Return (shown, updated), w)
  else
    match call_fails w with
    | Some _ => (Return (alert_error, pendingApprovals), after_call w)
    | None =>
        match approvals (db w) !! approvalId with
        | None => (Return (alert_error, pendingApprovals), after_call w)
        | Some a =>
            (Return (shown, updated),
             with_db
               (set_approvals
                  (<[approvalId :=
                       ApprovalRequest.with_response
                         (status_of_response response) (clock w) a]>
                     (approvals (db w))) (db w))
               (after_call w))
        end
    end.
Proof.
  unfold respond_handler, try_catch.
  destruct (String.prefix "demo_" approvalId); [reflexivity|].
  cbn [negb]. unfold bind at 1. rewrite respondToApproval_run.
  destruct (call_fails w); [reflexivity|].
  destruct (approvals (db w) !! approvalId); reflexivity.
Qed.

(** X17.  What the buttons of a card do.  For a demo request (an id that
    starts with "demo_") nothing is contacted.  Otherwise the local list
    is updated, and the success alert shown, only together with the
    stored request: either the stored request and the local entries of
    that id now carry the chosen status and a response time, or the
    error alert is shown and neither the database nor the local list has
    changed. *)
Theorem respond_handler_keeps_list_and_store_together (w : World num)
    (response : HumanResponse) (shown : Alert)
    (pendingApprovals : list (ApprovalRequest.t num)) (approvalId : string) :
  let run := respond_handler response shown pendingApprovals approvalId w in
  let updated respondedAt :=
    updateApproval approvalId (status_of_response response) respondedAt
      pendingApprovals in
  (String.prefix "demo_" approvalId = true ->
   exists respondedAt, run = (Return (shown, updated respondedAt), w)) /\
  (String.prefix "demo_" approvalId = false ->
   (exists a respondedAt respondedAt',
      approvals (db w) !! approvalId = Some a /\
      fst run = Return (shown, updated respondedAt) /\
      approvals (db (snd run))
      = <[approvalId :=
            ApprovalRequest.with_response (status_of_response response)
              respondedAt' a]> (approvals (db w))) \/
   (fst run = Return (alert_error, pendingApprovals) /\
    db (snd run) = db w)).
Proof.
  cbv zeta. rewrite respond_handler_run. cbv zeta.
  destruct (String.prefix "demo_" approvalId).
  - split; [eauto | discriminate].
  - split; [discriminate|]. intros _.
    destruct (call_fails w); [right; split; reflexivity|].
    destruct (approvals (db w) !! approvalId) as [a|];
      [|right; split; reflexivity].
    left. exists a, (clock w), (clock w). repeat split.
Qed.

Lemma updateApproval_cons (approvalId : string) (status : ApprovalStatus)
    (now : Z) (a : ApprovalRequest.t num) (l : list (ApprovalRequest.t num)) :
  updateApproval approvalId status now (a :: l)
  = (if String.eqb (ApprovalRequest.id a) approvalId
     then ApprovalRequest.with_response status now a else a)
    :: updateApproval approvalId status now l.
Proof. reflexivity. Qed.

(** X18.  After a response is recorded in the local list, the cards shown
    are the cards shown before without those of the answered request,
    which all appear among the resolved requests with the chosen status;
    the badge counts the cards shown. *)
Theorem updateApproval_removes_the_card (approvalId : string)
    (response : HumanResponse) (now : Z)
    (pendingApprovals : list (ApprovalRequest.t num)) :
  let updated :=
    updateApproval approvalId (status_of_response response) now
      pendingApprovals in
  displayApprovals updated
  = List.filter
      (fun a => negb (String.eqb (ApprovalRequest.id a) approvalId))
      (displayApprovals pendingApprovals) /\
  (forall a, In a pendingApprovals ->
             ApprovalRequest.id a = approvalId ->
             In (ApprovalRequest.with_response (status_of_response response)
                   now a) (resolvedApprovals updated)) /\
  usePendingApprovalCount updated = length (displayApprovals updated) /\
  (usePendingApprovalCount updated
   <= usePendingApprovalCount pendingApprovals)%nat.
Proof.
  cbv zeta. split; [|split; [|split]].
  - induction pendingApprovals as [|a l IH]; [reflexivity|].
    rewrite updateApproval_cons. unfold displayApprovals in *.
    cbn [List.filter].
    destruct (String.eqb (ApprovalRequest.id a) approvalId) eqn:E.
    + replace (bool_decide
                 (ApprovalRequest.status
                    (ApprovalRequest.with_response
                       (status_of_response response) now a) = pending))
        with false by (now destruct response).
      rewrite IH.
      destruct (bool_decide (ApprovalRequest.status a = pending));
        [cbn [List.filter]; now rewrite E | reflexivity].
    + rewrite IH.
      destruct (bool_decide (ApprovalRequest.status a = pending));
        [cbn [List.filter]; now rewrite E | reflexivity].
  - intros a Hin Hid. unfold resolvedApprovals. apply filter_In. split.
    + unfold updateApproval. apply in_map_iff. exists a.
      apply String.eqb_eq in Hid. now rewrite Hid.
    + now destruct response.
  - reflexivity.
  - unfold usePendingApprovalCount.
    induction pendingApprovals as [|a l IH]; [apply le_n|].
    rewrite updateApproval_cons. cbn [List.filter].
    destruct (String.eqb (ApprovalRequest.id a) approvalId).
    + replace (bool_decide
                 (ApprovalRequest.status
                    (ApprovalRequest.with_response
                       (status_of_response response) now a) = pending))
        with false by (now destruct response).
      destruct (bool_decide (ApprovalRequest.status a = pending));
        cbn [length]; lia.
    + destruct (bool_decide (ApprovalRequest.status a = pending));
        cbn [length]; lia.
Qed.
End ScreenFacts.

(** ** Policies and settings in the app *)

Section SettingsFacts.
Context {num : Type} `{JsNumber num}.

Lemma setPolicy_run (w : World num) (policy : SpendingPolicy.t num) :
  setPolicy policy w =
  match call_fails w with
  | Some code => (Throw code, after_call w)
  | None =>
      (Return tt,
       with_db
         (set_policies
            (<[SpendingPolicy.agentId policy :=
                 policy_updated_at (clock w) policy]> (policies (db w)))
            (db w))
         (after_call w))
  end.
Proof.
  unfold setPolicy. unfold bind at 1. unfold new_Date. cbn [fst snd].
  unfold bind at 1. rewrite external_call_run.
  now destruct (call_fails w).
Qed.

Lemma getPolicy_run (w : World num) (agentId : string) :
  getPolicy agentId w =
  (match call_fails w with
   | Some code => Throw code
   | None => Return (policies (db w) !! agentId)
   end, after_call w).
Proof.
  unfold getPolicy. unfold bind at 1. rewrite external_call_run.
  now destruct (call_fails w).
Qed.

(** X19.  What [setPolicy] of the app has stored, [getPolicy] reads back
    for that agent: the policy given, with a new [updatedAt].  What [getPolicy] reads for any other agent is as before
    the write, and no other collection is changed. *)
Theorem setPolicy_getPolicy_round_trip (w : World num)
    (policy : SpendingPolicy.t num) (now : Z) (schedule : list Outcome) :
  call_fails w = None ->
  calls_succeed 1 schedule = true ->
  let w' := snd (setPolicy policy w) in
  (exists updatedAt,
     fst (getPolicy (SpendingPolicy.agentId policy) (at_time now schedule w'))
     = Return (Some (policy_updated_at updatedAt policy))) /\
  (forall other,
     other <> SpendingPolicy.agentId policy ->
     fst (getPolicy other (at_time now schedule w'))
     = fst (getPolicy other (at_time now schedule w))) /\
  users (db w') = users (db w) /\
  agents (db w') = agents (db w) /\
  transactions (db w') = transactions (db w) /\
  approvals (db w') = approvals (db w).
Proof.
  intros Hcall Hs. cbv zeta. rewrite setPolicy_run, Hcall. cbn [fst snd].
  split; [|split; [|repeat split]].
  - exists (clock w). rewrite getPolicy_run.
    apply (calls_succeed_S 0 (at_time now schedule _)) in Hs as [-> _].
    cbn [fst db at_time with_db set_policies policies].
    now rewrite lookup_insert_eq.
  - intros other Hother. rewrite !getPolicy_run.
    pose proof Hs as Hs'.
    apply (calls_succeed_S 0 (at_time now schedule w)) in Hs as [-> _].
    apply (calls_succeed_S 0 (at_time now schedule _)) in Hs' as [-> _].
    cbn [fst db at_time with_db set_policies policies].
    rewrite lookup_insert_ne; [reflexivity|].
    intros Heq. apply Hother. now symmetry.
Qed.

(** X20.  [setPolicy] of the app writes the document [policies/<agentId>]
    and no other.  A policy of the agent stored under another id, as the
    default policy of a registration is, stays as it was; if it is
    active, the agent still has an active policy after the app has saved
    any policy, also a deactivated one: [loadPolicy] finds one whenever
    its query succeeds and the evaluator never answers with the
    fail-safe reason. *)
Theorem setPolicy_leaves_policies_stored_elsewhere (w : World num)
    (policy stored : SpendingPolicy.t num) (policyId : string) :
  policies (db w) !! policyId = Some stored ->
  policyId <> SpendingPolicy.agentId policy ->
  SpendingPolicy.agentId stored = SpendingPolicy.agentId policy ->
  SpendingPolicy.isActive stored = true ->
  let w' := snd (setPolicy policy w) in
  policies (db w') !! policyId = Some stored /\
  ~ no_active_policy (db w') (SpendingPolicy.agentId policy) /\
  forall now schedule,
    (calls_succeed 1 schedule = true ->
     exists found,
       fst (loadPolicy (SpendingPolicy.agentId policy)
              (at_time now schedule w')) = Return (Some found)) /\
    (forall txAmount programId r,
       fst (evaluateTransaction (SpendingPolicy.agentId policy) txAmount
              programId (at_time now schedule w')) = Return r ->
       reason r <> no_policy_reason).
Proof.
  intros Hstored Hid Hagent Hactive. cbv zeta.
  assert (Hkept : policies (db (snd (setPolicy policy w))) !! policyId
                  = Some stored).
  { rewrite setPolicy_run. destruct (call_fails w); [exact Hstored|].
    cbn [snd db with_db set_policies policies].
    rewrite lookup_insert_ne; [exact Hstored|].
    intros Heq. apply Hid. now symmetry. }
  split; [exact Hkept|].
  exact (stored_policy_found _ _ _ _ Hkept Hagent Hactive).
Qed.

(** [handleSavePolicy] in one equation. *)
Lemma handleSavePolicy_run (w : World num)
    (local : gmap string (SpendingPolicy.t num))
    (policy : SpendingPolicy.t num) :
  handleSavePolicy local policy w =
  let saved := <[SpendingPolicy.agentId policy := policy]> local in
  if String.prefix "demo_" (SpendingPolicy.agentId policy)
  then (Return (alert_saved, saved), w)
  else
    match call_fails w with
    | Some _ => (Return (alert_save_failed, local), after_call w)
    | None =>
        (Return (alert_saved, saved),
         with_db
           (set_policies
              (<[SpendingPolicy.agentId policy :=
                   policy_updated_at (clock w) policy]> (policies (db w)))
              (db w))
           (after_call w))
    end.
Proof.
  unfold handleSavePolicy, try_catch.
  destruct (String.prefix "demo_" (SpendingPolicy.agentId policy));
    [reflexivity|].
  cbn [negb]. unfold bind at 1. rewrite setPolicy_run.
  now destruct (call_fails w).
Qed.

(** X21.  Saving a policy in the settings.  For a demo agent nothing is
    contacted.  Otherwise the policy enters the store of the app, with
    the alert "Saved", only when the write to the database went through,
    and then both hold the same policy for the agent up to [updatedAt];
    when the write fails the alert is the error alert and neither the
    store nor the database has changed. *)
Theorem handleSavePolicy_keeps_store_and_database_together (w : World num)
    (local : gmap string (SpendingPolicy.t num))
    (policy : SpendingPolicy.t num) :
  let run := handleSavePolicy local policy w in
  let agentId := SpendingPolicy.agentId policy in
  (String.prefix "demo_" agentId = true ->
   run = (Return (alert_saved, <[agentId := policy]> local), w)) /\
  (String.prefix "demo_" agentId = false ->
   (exists saved updatedAt,
      fst run = Return (alert_saved, saved) /\
      saved !! agentId = Some policy /\
      policies (db (snd run)) !! agentId
      = Some (policy_updated_at updatedAt policy) /\
      (forall other, other <> agentId ->
                     saved !! other = local !! other /\
                     policies (db (snd run)) !! other
                     = policies (db w) !! other)) \/
   (fst run = Return (alert_save_failed, local) /\ db (snd run) = db w)).
Proof.
  cbv zeta. rewrite handleSavePolicy_run. cbv zeta.
  destruct (String.prefix "demo_" (SpendingPolicy.agentId policy)).
  - split; [reflexivity | discriminate].
  - split; [discriminate|]. intros _.
    destruct (call_fails w); [right; split; reflexivity|].
    left. eexists _, (clock w). split; [reflexivity|].
    cbn [snd db with_db set_policies policies].
    rewrite !lookup_insert_eq. split; [reflexivity|].
    split; [reflexivity|]. intros other Hother.
    split; apply lookup_insert_ne; intros Heq; apply Hother; now symmetry.
Qed.
End SettingsFacts.

Section NotificationSetting.
Context {num : Type} `{JsNumber num}.

(** [handleToggleNotifications] in one equation. *)
Lemma handleToggleNotifications_run (w : World num) (user : AppUser.t)
    (value : bool) :
  handleToggleNotifications (Some user) value w =
  if String.eqb (AppUser.id user) "demo_user"
  then (Return (Some (with_notifications value user)), w)
  else
    match call_fails w with
    | Some code => (Throw code, after_call w)
    | None =>
        match users (db w) !! AppUser.id user with
        | None => (Throw "not-found", after_call w)
        | Some stored =>
            (Return (Some (with_notifications value user)),
             with_db
               (set_users
                  (<[AppUser.id user := with_notifications value stored]>
                     (users (db w))) (db w))
               (after_call w))
        end
    end.
Proof.
  unfold handleToggleNotifications.
  destruct (String.eqb (AppUser.id user) "demo_user"); [reflexivity|].
  cbn [negb]. unfold bind at 1.
  unfold updateUserDoc_notifications. rewrite update_user_run.
  destruct (call_fails w); [reflexivity|].
  destruct (users (db w) !! AppUser.id user); reflexivity.
Qed.

(** X22.  The notification switch of the settings, for a signed-in user
    other than the demo user.  When the handler returns, the stored user
    document carries the chosen value, with its token and agent ids as
    before; after switching off, [sendPushToOwner] sends nothing to that
    user, whatever the message.  When the update fails the handler
    throws, and the database is unchanged. *)
Theorem handleToggleNotifications_takes_effect (w : World num)
    (user : AppUser.t) (value : bool) :
  AppUser.id user <> "demo_user" ->
  let run := handleToggleNotifications (Some user) value w in
  (exists stored,
     users (db w) !! AppUser.id user = Some stored /\
     fst run = Return (Some (with_notifications value user)) /\
     users (db (snd run))
     = <[AppUser.id user := with_notifications value stored]> (users (db w)) /\
     (value = false ->
      forall now schedule title text data,
        sent (snd (sendPushToOwner (AppUser.id user) title text data
                     (at_time now schedule (snd run))))
        = sent w)) \/
  (exists code, fst run = Throw code /\ db (snd run) = db w).
Proof.
  intros Hdemo. cbv zeta. rewrite handleToggleNotifications_run.
  apply String.eqb_neq in Hdemo. rewrite Hdemo.
  destruct (call_fails w) as [code|]; [right; exists code; now split|].
  destruct (users (db w) !! AppUser.id user) as [stored|];
    [|right; exists "not-found"; now split].
  left. exists stored. split; [reflexivity|]. split; [reflexivity|].
  split; [reflexivity|]. intros -> now schedule title text data.
  rewrite sendPushToOwner_run.
  match goal with
  | |- context [call_fails (at_time ?n ?s ?x)] =>
      destruct (call_fails (at_time n s x))
  end; [reflexivity|].
  cbn [snd db at_time with_db set_users users].
  rewrite lookup_insert_eq. cbn [with_notifications AppUser.notificationsEnabled].
  rewrite orb_true_r. reflexivity.
Qed.
End NotificationSetting.
Section ResponseClaim.
Context {num : Type}.


End ResponseClaim.


(** ** The evaluator on ordered amounts *)

Section OrderedAmounts.
Context {num : Type} `{JsNumber num}.

(** The two laws of [>] and [+] that the property below rests on; the
    rationals have them, and so have the doubles other than NaN. *)
Hypothesis not_gt_trans :
  forall a b c : num, ngt a b = false -> ngt b c = false -> ngt a c = false.
Hypothesis nadd_monotone :
  forall s a b : num, ngt a b = false -> ngt (nadd s a) (nadd s b) = false.

(** X23.  Auto-approval is closed downwards in the amount: on the same
    database, at the same time and for the same target program, an
    amount that is not greater than an auto-approved amount is
    auto-approved too. *)
Theorem evaluateTransaction_smaller_amount_approved (w : World num)
    (agentId : string) (smaller larger : num) (programId : option string)
    (rationale : string) :
  ngt smaller larger = false ->
  fst (evaluateTransaction agentId larger programId w)
  = Return (mkEval true rationale) ->
  fst (evaluateTransaction agentId smaller programId w)
  = Return (mkEval true within_reason).
Proof.
  intros Hle. rewrite !evaluateTransaction_run.
  destruct (call_fails w); [discriminate|].
  destruct (active_policy (db w) agentId) as [policy|]; [|discriminate].
  cbv zeta. unfold verdict.
  destruct (ngt larger (SpendingPolicy.perTxLimitSol policy)) eqn:E1;
    [discriminate|].
  rewrite (not_gt_trans _ _ _ Hle E1).
  destruct (call_fails (after_call w)); [discriminate|]. cbn [fst].
  destruct (ngt (nadd _ larger) _) eqn:E2; [discriminate|].
  rewrite (not_gt_trans _ _ _ (nadd_monotone _ _ _ Hle) E2).
  destruct (not_allowlisted _ _); [discriminate|].
  destruct (ngt larger (SpendingPolicy.requireApprovalAbove policy)) eqn:E4;
    [discriminate|].
  now rewrite (not_gt_trans _ _ _ Hle E4).
Qed.
End OrderedAmounts.

Lemma Q_gt_false (a b : Q) : QNumber.gt a b = false <-> (a <= b)%Q.
Proof.
  unfold QNumber.gt. rewrite Qle_alt.
  destruct (Qcompare a b); split; congruence.
Qed.

(** X23 over the rationals: 0.08 SOL is approved on the world of the
    scenarios, hence so is 0.05 SOL. *)
Lemma evaluateTransaction_smaller_amount_approved_witness :
  fst (evaluateTransaction "agent-1" (5 # 100)%Q None Examples.world_fresh)
  = Return (mkEval true within_reason).
Proof.
  apply (evaluateTransaction_smaller_amount_approved (num := Q))
    with (larger := (8 # 100)%Q) (rationale := within_reason).
  - intros a b c Hab Hbc. apply Q_gt_false.
    apply Q_gt_false in Hab, Hbc. now apply Qle_trans with b.
  - intros s a b Hab. apply Q_gt_false. apply Q_gt_false in Hab.
    apply Qplus_le_compat; [apply Qle_refl | exact Hab].
  - reflexivity.
  - vm_compute. reflexivity.
Defined.

(** ** More of the ingestion pipeline *)

Section IngestionMore.
Context {num : Type} `{JsNumber num} `{JsString}.

(** The block of one event, when it returns. *)
Lemma process_transaction_cases
    (tx : HeliusEnhancedTransaction.t num) (batch batch' : list (Write num))
    (tallies tallies' : list (string * NotificationInfo)) (w w' : World num) :
  process_transaction tx batch tallies w = (Return (batch', tallies'), w') ->
  exists id record,
    AgentTransaction.from record = HeliusEnhancedTransaction.feePayer tx /\
    match AgentTransaction.agentId record with
    | Some agentId =>
        batch' = batch ++ [UpdateAgentLastSeen agentId (clock w);
                           SetTransaction id record] /\
        exists agent,
          agents (db w) !! agentId = Some agent /\
          (Agent.walletAddress agent = AgentTransaction.from record \/
           Agent.walletAddress agent = AgentTransaction.to record) /\
          tallies' = tally agentId
                       (mkInfo (Agent.name agent) (Agent.ownerId agent) 1)
                       tallies
    | None =>
        batch' = batch ++ [SetTransaction id record] /\
        tallies' = tallies /\
        forall agentId agent,
          agents (db w) !! agentId = Some agent ->
          Agent.walletAddress agent <> AgentTransaction.from record /\
          Agent.walletAddress agent <> AgentTransaction.to record
    end.
Proof.
  rewrite process_transaction_run.
  destruct (HeliusEnhancedTransaction.nativeTransfers tx) as [nts|];
    [|discriminate].
  destruct (HeliusEnhancedTransaction.tokenTransfers tx) as [tts|];
    [|discriminate].
  destruct (valid_time _); [|discriminate].
  destruct (call_fails w); [discriminate|]. cbv zeta.
  match goal with
  | |- context [where_ ?f ?l] => destruct (where_ f l) as [|agentDoc rest] eqn:Eq
  end; cbn [limit firstn]; intros [= <- <- <-].
  - exists (random w (drawn w)),
      (normalized_record tx nts tts (clock w) (random w (drawn w)) None).
    split; [reflexivity|].
    cbn [AgentTransaction.agentId normalized_record].
    split; [reflexivity|]. split; [reflexivity|].
    intros agentId agent Hstored.
    assert (Hnot : ~ In (agentId, agent) []) by (intros []).
    rewrite <- Eq in Hnot. rewrite in_where, in_docs in Hnot.
    cbn [snd] in Hnot.
    destruct (includes (Agent.walletAddress agent) _) eqn:Einc;
      [exfalso; apply Hnot; now split|].
    unfold includes in Einc. cbn [existsb] in Einc.
    apply orb_false_iff in Einc as [Efrom Eto].
    apply orb_false_iff in Eto as [Eto _].
    apply String.eqb_neq in Efrom, Eto. now split.
  - exists (random w (drawn w)),
      (normalized_record tx nts tts (clock w) (random w (drawn w))
         (Some (fst agentDoc))).
    split; [reflexivity|].
    cbn [AgentTransaction.agentId normalized_record].
    split; [now rewrite <- app_assoc|].
    assert (Hin : In agentDoc (agentDoc :: rest)) by now left.
    rewrite <- Eq in Hin. apply in_where in Hin as [Hin Hinc].
    destruct agentDoc as [agentId agent]. apply in_docs in Hin.
    cbn [fst snd] in *. exists agent. split; [exact Hin|].
    split; [|reflexivity].
    unfold includes in Hinc. cbn [existsb] in Hinc.
    apply orb_true_iff in Hinc as [Efrom|Eto].
    + left. now apply String.eqb_eq in Efrom.
    + apply orb_true_iff in Eto as [Eto|Eto]; [|discriminate].
      right. now apply String.eqb_eq in Eto.
Qed.

End IngestionMore.

Section IngestionInvariant.
Context {num : Type} `{JsNumber num} `{JsString}.

Lemma tally_keys (agentId : string) (info : NotificationInfo)
    (m : list (string * NotificationInfo)) :
  map fst (tally agentId info m)
  = if bool_decide (agentId ∈ map fst m) then map fst m
    else map fst m ++ [agentId].
Proof.
  induction m as [|[k existing] rest IH].
  - cbn. now rewrite bool_decide_eq_false_2 by apply not_elem_of_nil.
  - cbn [tally]. destruct (String.eqb k agentId) eqn:E.
    + apply String.eqb_eq in E as ->. cbn [map fst].
      now rewrite bool_decide_eq_true_2 by apply list_elem_of_here.
    + apply String.eqb_neq in E. cbn [map fst]. rewrite IH.
      destruct (bool_decide (agentId ∈ map fst rest)) eqn:Ein.
      * apply bool_decide_eq_true_1 in Ein.
        now rewrite bool_decide_eq_true_2 by (now apply list_elem_of_further).
      * apply bool_decide_eq_false_1 in Ein.
        rewrite bool_decide_eq_false_2; [reflexivity|].
        rewrite elem_of_cons. intros [->|Hin]; [now apply E | now apply Ein].
Qed.

Lemma tally_NoDup (agentId : string) (info : NotificationInfo)
    (m : list (string * NotificationInfo)) :
  List.NoDup (map fst m) -> List.NoDup (map fst (tally agentId info m)).
Proof.
  intros Hnd. rewrite tally_keys.
  destruct (bool_decide (agentId ∈ map fst m)) eqn:Ein; [exact Hnd|].
  apply bool_decide_eq_false_1 in Ein.
  apply NoDup_ListNoDup. apply NoDup_ListNoDup in Hnd.
  apply NoDup_app. split; [exact Hnd|]. split.
  - intros x Hx Hx'. apply list_elem_of_singleton in Hx' as ->. now apply Ein.
  - apply NoDup_singleton.
Qed.

Lemma tallied_from_more (d : Db num) (n : nat) t :
  tallied_from d n t -> tallied_from d (S n) t.
Proof.
  intros (agent & Ha & Hn & Ho & Hc). exists agent. repeat split; auto; lia.
Qed.

Lemma tally_from (d : Db num) (n : nat) (agentId : string) (agent : Agent.t)
    (m : list (string * NotificationInfo)) :
  agents d !! agentId = Some agent ->
  Forall (tallied_from d n) m ->
  Forall (tallied_from d (S n))
    (tally agentId (mkInfo (Agent.name agent) (Agent.ownerId agent) 1) m).
Proof.
  intros Hagent. induction 1 as [|[k existing] rest Hk Hrest IH].
  - constructor; [|constructor]. exists agent. cbn. repeat split; auto; lia.
  - cbn [tally]. destruct (String.eqb k agentId) eqn:E.
    + constructor.
      * destruct Hk as (a & Ha & Hn & Ho & Hc). exists a.
        cbn in *. repeat split; auto; lia.
      * eapply Forall_impl; [exact Hrest|].
        intros t. apply tallied_from_more.
    + constructor; [now apply tallied_from_more | exact IH].
Qed.
End IngestionInvariant.

Section IngestionRun.
Context {num : Type} `{JsNumber num} `{JsString}.

Lemma process_transaction_world (tx : HeliusEnhancedTransaction.t num)
    (batch : list (Write num)) (tallies : list (string * NotificationInfo))
    (w : World num) :
  snd (process_transaction tx batch tallies w) = after_event tx w.
Proof.
  pose proof (process_transaction_spec tx w) as Hev.
  destruct (event_record tx w).
  - destruct Hev as (_ & delta & _ & _ & Hrun).
    destruct (Hrun batch tallies) as [tallies' ->]. reflexivity.
  - destruct Hev as (_ & code & Hrun). now rewrite Hrun.
Qed.

Lemma after_event_same (tx : HeliusEnhancedTransaction.t num) (w : World num) :
  clock (after_event tx w) = clock w /\ sent (after_event tx w) = sent w.
Proof.
  unfold after_event.
  destruct (HeliusEnhancedTransaction.nativeTransfers tx),
    (HeliusEnhancedTransaction.tokenTransfers tx); try (split; reflexivity).
  destruct (valid_time _); [|split; reflexivity].
  destruct (call_fails w); split; reflexivity.
Qed.

Lemma after_events_same (txs : list (HeliusEnhancedTransaction.t num))
    (w : World num) :
  clock (after_events txs w) = clock w /\ sent (after_events txs w) = sent w.
Proof.
  revert w. induction txs as [|tx rest IH]; intros w; [split; reflexivity|].
  cbn [after_events]. destruct (IH (after_event tx w)) as [-> ->].
  apply after_event_same.
Qed.

(** X25.  How the block of one event attributes its record.  When the
    block returns it has written and sent nothing, and it has staged one
    transaction record, paid by the fee payer of the event.  The record
    carries the id of an agent only if that agent is stored with the fee
    payer's or the recipient's address as its wallet; then a last-seen
    refresh of that agent is staged just before the record and the agent
    is tallied once more.  The record carries no agent only if no stored
    agent has either address; then nothing else is staged and the
    tallies are as they were. *)
Theorem process_transaction_attributes_by_wallet
    (tx : HeliusEnhancedTransaction.t num) (batch batch' : list (Write num))
    (tallies tallies' : list (string * NotificationInfo)) (w w' : World num) :
  process_transaction tx batch tallies w = (Return (batch', tallies'), w') ->
  db w' = db w /\ sent w' = sent w /\
  exists id record,
    AgentTransaction.from record = HeliusEnhancedTransaction.feePayer tx /\
    match AgentTransaction.agentId record with
    | Some agentId =>
        batch' = batch ++ [UpdateAgentLastSeen agentId (clock w);
                           SetTransaction id record] /\
        exists agent,
          agents (db w) !! agentId = Some agent /\
          (Agent.walletAddress agent = AgentTransaction.from record \/
           Agent.walletAddress agent = AgentTransaction.to record) /\
          tallies' = tally agentId
                       (mkInfo (Agent.name agent) (Agent.ownerId agent) 1)
                       tallies
    | None =>
        batch' = batch ++ [SetTransaction id record] /\
        tallies' = tallies /\
        forall agentId agent,
          agents (db w) !! agentId = Some agent ->
          Agent.walletAddress agent <> AgentTransaction.from record /\
          Agent.walletAddress agent <> AgentTransaction.to record
    end.
Proof.
  intros Hrun.
  pose proof (process_transaction_world tx batch tallies w) as Hworld.
  rewrite Hrun in Hworld. cbn [snd] in Hworld. subst w'.
  split; [apply after_event_db|].
  split; [apply after_event_same|].
  exact (process_transaction_cases _ _ _ _ _ _ _ Hrun).
Qed.

Lemma loop_invariant_more (d : Db num) (now : Z) (n : nat) batch tallies :
  loop_invariant d now n batch tallies ->
  loop_invariant d now (S n) batch tallies.
Proof.
  intros (Hb & Hnd & Ht). repeat split; auto.
  eapply Forall_impl; [exact Ht|]. intros t. apply tallied_from_more.
Qed.

Lemma process_transaction_invariant
    (tx : HeliusEnhancedTransaction.t num) (batch batch' : list (Write num))
    (tallies tallies' : list (string * NotificationInfo)) (w w' : World num)
    (n : nat) :
  process_transaction tx batch tallies w = (Return (batch', tallies'), w') ->
  loop_invariant (db w) (clock w) n batch tallies ->
  loop_invariant (db w) (clock w) (S n) batch' tallies'.
Proof.
  intros Hrun (Hb & Hnd & Ht).
  destruct (process_transaction_cases _ _ _ _ _ _ _ Hrun)
    as (id & record & _ & Hcase).
  destruct (AgentTransaction.agentId record) as [agentId|].
  - destruct Hcase as (-> & agent & Hagent & _ & ->).
    split; [|split].
    + apply Forall_app. split; [exact Hb|].
      repeat constructor. cbn. eauto.
    + now apply tally_NoDup.
    + now apply tally_from.
  - destruct Hcase as (-> & -> & _).
    apply loop_invariant_more. split; [|split]; auto.
    apply Forall_app. split; [exact Hb|]. repeat constructor.
Qed.

Lemma loop_invariant_mono (d : Db num) (now : Z) (n m : nat) batch tallies :
  (n <= m)%nat ->
  loop_invariant d now n batch tallies ->
  loop_invariant d now m batch tallies.
Proof.
  induction 1 as [|m _ IH]; intros Hinv; [exact Hinv|].
  apply loop_invariant_more. now apply IH.
Qed.

(** The loop keeps its invariant, and throws at a [null] element only. *)
Lemma process_all_invariant
    (payload : list (option (HeliusEnhancedTransaction.t num))) :
  forall (w : World num) batch tallies n,
    loop_invariant (db w) (clock w) n batch tallies ->
    exists batch' tallies',
      process_all payload batch tallies w
      = (if has_null payload then Throw "TypeError"
         else Return (batch', tallies'),
         after_events (events_before_null payload) w) /\
      loop_invariant (db w) (clock w) (n + length payload) batch' tallies'.
Proof.
  induction payload as [|[tx|] rest IH]; intros w batch tallies n Hinv.
  - exists batch, tallies. rewrite Nat.add_0_r. split; [reflexivity | exact Hinv].
  - cbn [process_all after_events events_before_null length].
    change (has_null (Some tx :: rest)) with (has_null rest).
    unfold bind at 1. rewrite process_element. unfold try_catch.
    pose proof (process_transaction_world tx batch tallies w) as Hw.
    destruct (process_transaction tx batch tallies w) as [[[b1 t1]|e] w1] eqn:E;
      cbn [snd] in Hw; subst w1; cbn [ret fst snd].
    + apply (process_transaction_invariant _ _ _ _ _ _ _ n) in E;
        [|exact Hinv].
      destruct (after_event_same tx w) as [Hclock _].
      rewrite <- (after_event_db tx w), <- Hclock in E.
      destruct (IH _ _ _ _ E) as (b' & t' & -> & Hinv').
      exists b', t'. split; [reflexivity|].
      rewrite after_event_db, Hclock in Hinv'.
      now rewrite Nat.add_succ_r.
    + apply loop_invariant_more in Hinv.
      destruct (after_event_same tx w) as [Hclock _].
      rewrite <- (after_event_db tx w), <- Hclock in Hinv.
      destruct (IH _ _ _ _ Hinv) as (b' & t' & -> & Hinv').
      exists b', t'. split; [reflexivity|].
      rewrite after_event_db, Hclock in Hinv'.
      now rewrite Nat.add_succ_r.
  - exists batch, tallies. split; [reflexivity|].
    apply (loop_invariant_mono _ _ n); [lia | exact Hinv].
Qed.

Lemma touch_agent_twice (now : Z) (a : Agent.t) :
  touch_agent now (touch_agent now a) = touch_agent now a.
Proof. reflexivity. Qed.

(** The writes of the pipeline always apply, and change agents only in
    when they were last seen. *)
Lemma apply_ingestion_writes_at (d0 : Db num) (now : Z)
    (delta : list (Write num)) :
  Forall (ingestion_write_at d0 now) delta ->
  forall d,
    agents_seen now (agents d0) (agents d) ->
    exists d',
      apply_writes d delta = Some d' /\
      agents_seen now (agents d0) (agents d') /\
      users d' = users d /\ policies d' = policies d /\
      approvals d' = approvals d.
Proof.
  induction 1 as [|wr delta Hwr _ IH]; intros d Hseen.
  - exists d. repeat split. exact Hseen.
  - destruct wr as [| |id record|id t|]; cbn in Hwr; try contradiction.
    + destruct (IH (set_transactions (<[id := record]> (transactions d)) d)
                  Hseen) as (d' & Happ & Hag & Hu & Hp & Ha).
      exists d'. cbn [apply_writes apply_write]. rewrite Happ.
      repeat split; assumption.
    + destruct Hwr as [[a0 Ha0] ->].
      assert (Hcur : exists a, agents d !! id = Some a /\
                               touch_agent now a = touch_agent now a0).
      { destruct (Hseen id) as [Hsame|(a & Hbefore & Hafter)].
        - exists a0. split; [congruence | reflexivity].
        - exists (touch_agent now a). split; [exact Hafter|].
          rewrite touch_agent_twice. congruence. }
      destruct Hcur as (a & Ha & Htouch).
      cbn [apply_writes apply_write]. rewrite Ha.
      destruct (IH (set_agents (<[id := touch_agent now a]> (agents d)) d))
        as (d' & Happ & Hag & Hu & Hp & Hap).
      { intros id'. cbn [agents set_agents].
        destruct (decide (id = id')) as [<-|Hne].
        - right. exists a0. rewrite lookup_insert_eq, Htouch. auto.
        - rewrite lookup_insert_ne by exact Hne. apply Hseen. }
      exists d'. rewrite Happ. repeat split; assumption.
Qed.

Lemma tokens_dropped_refl (m : gmap string AppUser.t) : tokens_dropped m m.
Proof. intros id. now left. Qed.

Lemma tokens_dropped_trans (a b c : gmap string AppUser.t) :
  tokens_dropped a b -> tokens_dropped b c -> tokens_dropped a c.
Proof.
  intros Hab Hbc id.
  destruct (Hbc id) as [Hsame|(u & Hb & Hc)].
  - rewrite Hsame. apply Hab.
  - destruct (Hab id) as [Hsame|(u0 & Ha & Hb')].
    + right. exists u. split; congruence.
    + right. exists u0. split; [exact Ha|].
      rewrite Hc. f_equal. rewrite Hb' in Hb. now injection Hb as <-.
Qed.

Lemma sendPushToOwner_users (w : World num) ownerId title text data :
  tokens_dropped (users (db w))
    (users (db (snd (sendPushToOwner ownerId title text data w)))).
Proof.
  rewrite sendPushToOwner_run.
  destruct (call_fails w); [apply tokens_dropped_refl|].
  destruct (users (db w) !! ownerId) as [user|] eqn:Eu;
    [|apply tokens_dropped_refl].
  destruct (_ || _); [apply tokens_dropped_refl|].
  destruct (call_fails (after_call w)) as [code|];
    [|apply tokens_dropped_refl].
  destruct (stale_token code); [|apply tokens_dropped_refl].
  destruct (call_fails (after_call (after_call w)));
    [apply tokens_dropped_refl|].
  intros id. cbn [snd db with_db set_users users].
  destruct (decide (ownerId = id)) as [<-|Hne].
  - right. exists user. now rewrite lookup_insert_eq.
  - left. now apply lookup_insert_ne.
Qed.
End IngestionRun.

Section IngestionNotifications.
Context {num : Type} `{JsNumber num} `{JsString}.

Lemma tokens_dropped_one (users0 : gmap string AppUser.t) (id : string)
    (user : AppUser.t) :
  users0 !! id = Some user ->
  tokens_dropped users0 (<[id := delete_fcmToken user]> users0).
Proof.
  intros Hu id'. destruct (decide (id = id')) as [<-|Hne].
  - right. exists user. now rewrite lookup_insert_eq.
  - left. now apply lookup_insert_ne.
Qed.

(** A token that is read is the token stored when the calls started. *)
Lemma token_read (users0 users1 : gmap string AppUser.t) (id : string)
    (user : AppUser.t) :
  tokens_dropped users0 users1 ->
  users1 !! id = Some user ->
  truthy (AppUser.fcmToken user) = true ->
  users0 !! id = Some user.
Proof.
  intros Hdrop Hu Htoken.
  destruct (Hdrop id) as [Hsame|(u & _ & Hafter)]; [congruence|].
  rewrite Hafter in Hu. injection Hu as <-. discriminate.
Qed.

(** The calls as the second loop starts them. *)
Lemma start_pushes_invariant (w : World num)
    (tallies : list (string * NotificationInfo)) :
  pushes_invariant w tallies (start_pushes tallies) w.
Proof.
  split; [repeat split|]. split; [apply tokens_dropped_refl|]. split.
  - unfold start_pushes. induction tallies as [|entry rest IH];
      constructor; [repeat split | exact IH].
  - exists []. rewrite app_nil_r.
    repeat split; [constructor | intros m []].
Qed.

(** One step of one call keeps the invariant. *)
Lemma step_push_invariant (w0 w : World num)
    (tallies : list (string * NotificationInfo)) (tasks : list PushTask)
    (i : nat) (task : PushTask) :
  List.NoDup (map fst tallies) ->
  pushes_invariant w0 tallies tasks w ->
  tasks !! i = Some task ->
  exists task' w1,
    step_push task w = (Return task', w1) /\
    pushes_invariant w0 tallies (<[i := task']> tasks) w1.
Proof.
  intros Hnd (Hsame & Hdrop & Htasks & msgs & Hsent & Hmsgs_nd & Hmsgs) Hi.
  destruct (Forall2_lookup_r _ _ _ _ _ Htasks Hi) as (entry & Hentry & Htask).
  assert (Hstate : forall task',
            task_for (users (db w0)) entry task' ->
            Forall2 (task_for (users (db w0))) tallies (<[i := task']> tasks)).
  { intros task' Hfor. rewrite <- (list_insert_id tallies i entry Hentry).
    now apply Forall2_insert. }
  assert (Hold : forall task',
            task <> Settled ->
            forall m, In m msgs ->
              exists j entry',
                tallies !! j = Some entry' /\
                <[i := task']> tasks !! j = Some Settled /\
                message_for (users (db w0)) entry' m).
  { intros task' Hns m Hm.
    destruct (Hmsgs m Hm) as (j & entry' & Hj & Hsettled & Hfor).
    exists j, entry'. split; [exact Hj|]. split; [|exact Hfor].
    rewrite list_lookup_insert_ne; [exact Hsettled|].
    intros <-. rewrite Hi in Hsettled. now injection Hsettled. }
  rewrite step_push_run.
  destruct task as [ownerId title body data|ownerId msg|ownerId|].
  - (* the read of the user document completes *)
    destruct Htask as (-> & -> & -> & ->).
    eexists. eexists. split; [reflexivity|].
    split; [exact Hsame|]. split; [exact Hdrop|]. split.
    + apply Hstate.
      destruct (call_fails w); [exact I|].
      destruct (users (db w) !! info_ownerId (snd entry)) as [user|] eqn:Eu;
        [|exact I].
      destruct (negb (truthy (AppUser.fcmToken user))) eqn:Et; [exact I|].
      destruct (negb (AppUser.notificationsEnabled user)) eqn:En; [exact I|].
      apply negb_false_iff in Et, En. cbn [orb task_for].
      repeat split. exists user.
      split; [exact (token_read _ _ _ _ Hdrop Eu Et)|].
      split; [|exact En].
      destruct (AppUser.fcmToken user); [reflexivity | discriminate].
    + exists msgs. split; [exact Hsent|]. split; [exact Hmsgs_nd|].
      apply Hold. discriminate.
  - (* the call to FCM completes *)
    cbn [task_for] in Htask.
    destruct (call_fails w) as [code|].
    + eexists. eexists. split; [reflexivity|].
      split; [exact Hsame|]. split; [exact Hdrop|]. split.
      * apply Hstate. now destruct (stale_token code).
      * exists msgs. split; [exact Hsent|]. split; [exact Hmsgs_nd|].
        apply Hold. discriminate.
    + eexists. eexists. split; [reflexivity|].
      split; [exact Hsame|]. split; [exact Hdrop|]. split;
        [apply Hstate; exact I|].
      exists (msgs ++ [msg]).
      split; [cbn [sent delivered after_call]; now rewrite Hsent, app_assoc|].
      split.
      * rewrite map_app. cbn [map].
        apply (Permutation_NoDup (Permutation_cons_append _ _)).
        apply List.NoDup_cons; [|exact Hmsgs_nd].
        intros Hin. apply in_map_iff in Hin as (m & Hdata & Hm).
        destruct (Hmsgs m Hm) as (j & entry' & Hj & Hsettled & Hd & _).
        destruct Htask as (Hd' & _).
        rewrite Hd, Hd' in Hdata. injection Hdata as Hkey.
        assert (Hij : j = i).
        { apply (NoDup_lookup (map fst tallies) j i (fst entry)).
          - now apply NoDup_ListNoDup.
          - change (map fst tallies) with (fst <$> tallies).
            now rewrite list_lookup_fmap, Hj, <- Hkey.
          - change (map fst tallies) with (fst <$> tallies).
            now rewrite list_lookup_fmap, Hentry. }
        subst j. rewrite Hi in Hsettled. discriminate.
      * intros m Hm. apply in_app_or in Hm as [Hm|[<-|[]]].
        -- apply Hold; [discriminate | exact Hm].
        -- exists i, entry. split; [exact Hentry|]. split; [|exact Htask].
           apply list_lookup_insert_eq. now apply lookup_lt_Some in Hi.
  - (* the removal of the token completes *)
    eexists. eexists. split; [reflexivity|].
    assert (Hw1 :
      same_but_users w0
        match call_fails w with
        | Some _ => after_call w
        | None =>
            match users (db w) !! ownerId with
            | Some user =>
                with_db
                  (set_users
                     (<[ownerId := delete_fcmToken user]> (users (db w)))
                     (db w)) (after_call w)
            | None => after_call w
            end
        end /\
      tokens_dropped (users (db w0))
        (users (db
           match call_fails w with
           | Some _ => after_call w
           | None =>
               match users (db w) !! ownerId with
               | Some user =>
                   with_db
                     (set_users
                        (<[ownerId := delete_fcmToken user]> (users (db w)))
                        (db w)) (after_call w)
               | None => after_call w
               end
           end)) /\
      sent match call_fails w with
           | Some _ => after_call w
           | None =>
               match users (db w) !! ownerId with
               | Some user =>
                   with_db
                     (set_users
                        (<[ownerId := delete_fcmToken user]> (users (db w)))
                        (db w)) (after_call w)
               | None => after_call w
               end
           end = sent w).
    { destruct (call_fails w);
        [split; [exact Hsame|]; split; [exact Hdrop | reflexivity]|].
      destruct (users (db w) !! ownerId) as [user|] eqn:Eu;
        [|split; [exact Hsame|]; split; [exact Hdrop | reflexivity]].
      split; [exact Hsame|]. split; [|reflexivity].
      apply (tokens_dropped_trans _ _ _ Hdrop).
      now apply tokens_dropped_one. }
    destruct Hw1 as (Hsame1 & Hdrop1 & Hsent1).
    split; [exact Hsame1|]. split; [exact Hdrop1|].
    split; [apply Hstate; exact I|].
    exists msgs. rewrite Hsent1.
    split; [exact Hsent|]. split; [exact Hmsgs_nd|].
    apply Hold. discriminate.
  - (* a settled call *)
    exists Settled, w. split; [reflexivity|].
    rewrite (list_insert_id tasks i Settled Hi).
    split; [exact Hsame|]. split; [exact Hdrop|]. split; [exact Htasks|].
    exists msgs. auto.
Qed.

(** The calls keep the invariant in whatever order they complete. *)
Lemma run_pushes_invariant (w0 : World num)
    (tallies : list (string * NotificationInfo)) (order : list nat) :
  List.NoDup (map fst tallies) ->
  forall (tasks : list PushTask) (w : World num),
    pushes_invariant w0 tallies tasks w ->
    exists tasks' w',
      run_pushes order tasks w = (Return tasks', w') /\
      pushes_invariant w0 tallies tasks' w'.
Proof.
  intros Hnd. induction order as [|i rest IH]; intros tasks w Hinv.
  - exists tasks, w. split; [reflexivity | exact Hinv].
  - destruct (tasks !! i) as [task|] eqn:Ei;
      [|rewrite (run_pushes_skip _ _ _ _ Ei); now apply IH].
    destruct (step_push_invariant w0 w tallies tasks i task Hnd Hinv Ei)
      as (task' & w1 & Hstep & Hinv1).
    rewrite (run_pushes_step _ _ _ _ _ _ _ Ei Hstep). now apply IH.
Qed.

(** The notifications of a map of tallies: the messages sent are at most
    one per tallied agent, each to the token stored for the tallied owner
    when the calls started, and user documents at most lose their
    token. *)
Lemma allSettled_sent (order : list nat)
    (tallies : list (string * NotificationInfo)) (w : World num) :
  List.NoDup (map fst tallies) ->
  exists w',
    allSettled order (start_pushes tallies) w = (Return tt, w') /\
    same_but_users w w' /\
    tokens_dropped (users (db w)) (users (db w')) /\
    exists msgs,
      sent w' = sent w ++ msgs /\
      List.NoDup (map push_data msgs) /\
      forall m, In m msgs ->
        exists entry, In entry tallies /\ message_for (users (db w)) entry m.
Proof.
  intros Hnd.
  destruct (run_pushes_invariant w tallies
              (order ++ settle_order (length (start_pushes tallies))) Hnd
              (start_pushes tallies) w (start_pushes_invariant w tallies))
    as (tasks' & w' & Hrun & Hsame & Hdrop & _ & msgs & Hsent & Hmsgs_nd & Hmsgs).
  exists w'. split; [unfold allSettled, bind; now rewrite Hrun|].
  split; [exact Hsame|]. split; [exact Hdrop|].
  exists msgs. split; [exact Hsent|]. split; [exact Hmsgs_nd|].
  intros m Hm. destruct (Hmsgs m Hm) as (j & entry & Hj & _ & Hfor).
  exists entry. split; [|exact Hfor].
  apply list_elem_of_In. now apply list_elem_of_lookup_2 with j.
Qed.

(** The webhook on a payload, in one equation. *)
Lemma onHeliusWebhook_run (w : World num) (order : list nat)
    (payload : list (option (HeliusEnhancedTransaction.t num))) :
  let w1 := after_events (events_before_null payload) w in
  exists batch tallies,
    loop_invariant (db w) (clock w) (length payload) batch tallies /\
    if has_null payload then
      onHeliusWebhook order "POST" (Some payload) w = (Throw "TypeError", w1)
    else
      match call_fails w1 with
      | Some code =>
          onHeliusWebhook order "POST" (Some payload) w
          = (Throw code, after_call w1)
      | None =>
          exists d',
            agents_seen (clock w) (agents (db w)) (agents d') /\
            users d' = users (db w) /\
            policies d' = policies (db w) /\
            approvals d' = approvals (db w) /\
            onHeliusWebhook order "POST" (Some payload) w
            = (Return (mkResponse 200 (WebhookBody true (length payload))),
               snd (allSettled order (start_pushes tallies)
                      (with_db d' (after_call w1))))
      end.
Proof.
  intros w1.
  destruct (process_all_invariant payload w [] [] 0)
    as (batch & tallies & Hloop & Hinv).
  { repeat split; constructor. }
  fold w1 in Hloop.
  exists batch, tallies. split; [exact Hinv|].
  assert (Hrun : onHeliusWebhook order "POST" (Some payload) w =
                 if has_null payload then (Throw "TypeError", w1)
                 else
                   match call_fails w1 with
                   | Some code => (Throw code, after_call w1)
                   | None =>
                       match apply_writes (db w) batch with
                       | Some d' =>
                           (Return (mkResponse 200
                                      (WebhookBody true (length payload))),
                            snd (allSettled order (start_pushes tallies)
                                   (with_db d' (after_call w1))))
                       | None => (Throw "not-found", after_call w1)
                       end
                   end).
  { unfold onHeliusWebhook. cbn [String.eqb Ascii.eqb Bool.eqb negb].
    unfold bind at 1. rewrite Hloop.
    destruct (has_null payload); [reflexivity|]. cbn [fst snd].
    unfold bind at 1. rewrite commit_run.
    replace (db w1) with (db w) by (symmetry; apply after_events_db).
    destruct (call_fails w1); [reflexivity|].
    destruct (apply_writes (db w) batch) as [d'|]; [|reflexivity].
    unfold bind at 1.
    match goal with
    | |- context [allSettled order ?tasks ?w2] =>
        destruct (allSettled_keeps order tasks w2) as (Hr & _);
        destruct (allSettled order tasks w2) as [r2 w3]
    end.
    cbn [fst snd] in *. now subst r2. }
  rewrite Hrun.
  destruct (has_null payload); [reflexivity|].
  destruct (call_fails w1); [reflexivity|].
  destruct Hinv as (Hwrites & _).
  destruct (apply_ingestion_writes_at (db w) (clock w) batch Hwrites (db w))
    as (d' & Happ & Hseen & Hu & Hp & Ha).
  { intros id. now left. }
  exists d'. rewrite Happ. repeat split; assumption.
Qed.
End IngestionNotifications.

Section IngestionTheorems.
Context {num : Type} `{JsNumber num} `{JsString}.

(** X26.  The notifications of one webhook call.  Whatever the payload,
    and in whatever order the calls of the notifications complete, the
    messages sent are at most one per agent: no two carry the same agent
    id.  Each is about a stored agent, titled with its name, says how
    many events of the payload were attributed to it (at least one), and
    goes to the stored token of the agent's owner, who has notifications
    switched on. *)
Theorem onHeliusWebhook_notifies_each_agent_once (w : World num)
    (order : list nat)
    (payload : list (option (HeliusEnhancedTransaction.t num))) :
  let w' := snd (onHeliusWebhook order "POST" (Some payload) w) in
  exists msgs,
    sent w' = sent w ++ msgs /\
    List.NoDup (map push_data msgs) /\
    Forall (activity_message (db w) (length payload)) msgs.
Proof.
  cbv zeta.
  destruct (onHeliusWebhook_run w order payload)
    as (batch & tallies & (_ & Hnd & Htallied) & Hrun).
  destruct (after_events_same (events_before_null payload) w) as [_ Hsent].
  destruct (has_null payload).
  { rewrite Hrun. exists []. cbn [snd].
    rewrite Hsent, app_nil_r. repeat split; constructor. }
  destruct (call_fails (after_events (events_before_null payload) w)).
  { rewrite Hrun. exists []. cbn [snd after_call sent].
    rewrite Hsent, app_nil_r. repeat split; constructor. }
  destruct Hrun as (d' & _ & Husers & _ & _ & ->). cbn [snd].
  destruct (allSettled_sent order tallies
              (with_db d'
                 (after_call (after_events (events_before_null payload) w)))
              Hnd)
    as (w' & -> & _ & _ & msgs & Hmsgs & Hdistinct & Habout).
  exists msgs. cbn [snd]. cbn [sent with_db after_call] in Hmsgs.
  rewrite Hsent in Hmsgs.
  split; [exact Hmsgs|]. split; [exact Hdistinct|].
  apply List.Forall_forall. intros m Hm.
  destruct (Habout m Hm)
    as (t & Ht & Hdata & Htitle & Hbody & user & Huser & Htoken & Hon).
  rewrite List.Forall_forall in Htallied.
  destruct (Htallied t Ht) as (agent & Hagent & Hname & Howner & Hcount).
  cbn [db with_db] in Huser. rewrite Husers, Howner in Huser.
  exists (fst t), agent, user, (info_txCount (snd t)).
  rewrite <- Hname. auto 10.
Qed.

(** X27.  What a webhook call leaves alone.  Whatever the method and the
    payload, and in whatever order the calls of the notifications
    complete, policies and approvals are untouched; no agent is added or
    removed, and an agent changes at most in [lastSeenAt], which becomes
    the time of the call; no user is added or removed, and a user
    document changes at most by losing its token.  A request that is not
    a POST, or whose body is not an array, changes nothing at all. *)
Theorem onHeliusWebhook_leaves_the_rest (w : World num) (order : list nat)
    (method : string)
    (payload : option (list (option (HeliusEnhancedTransaction.t num)))) :
  let w' := snd (onHeliusWebhook order method payload w) in
  policies (db w') = policies (db w) /\
  approvals (db w') = approvals (db w) /\
  agents_seen (clock w) (agents (db w)) (agents (db w')) /\
  tokens_dropped (users (db w)) (users (db w')) /\
  (method <> "POST" \/ payload = None -> w' = w).
Proof.
  cbv zeta.
  assert (Hsame : policies (db w) = policies (db w) /\
                  approvals (db w) = approvals (db w) /\
                  agents_seen (clock w) (agents (db w)) (agents (db w)) /\
                  tokens_dropped (users (db w)) (users (db w)))
    by (repeat split; [intros id; now left | apply tokens_dropped_refl]).
  destruct (String.eqb method "POST") eqn:Em.
  2:{ unfold onHeliusWebhook. rewrite Em. cbn [negb snd ret].
      destruct Hsame as (? & ? & ? & ?). repeat split; auto. }
  apply String.eqb_eq in Em as ->.
  destruct payload as [payload|].
  2:{ cbn. destruct Hsame as (? & ? & ? & ?). repeat split; auto. }
  destruct (onHeliusWebhook_run w order payload)
    as (batch & tallies & (_ & Hnd & _) & Hrun).
  destruct (has_null payload).
  { rewrite Hrun. cbn [snd]. rewrite after_events_db.
    destruct Hsame as (? & ? & ? & ?). repeat split; auto.
    intros [Hm|Hp]; [now contradiction Hm | discriminate]. }
  destruct (call_fails (after_events (events_before_null payload) w)).
  { rewrite Hrun. cbn [snd after_call db]. rewrite after_events_db.
    destruct Hsame as (? & ? & ? & ?). repeat split; auto.
    intros [Hm|Hp]; [now contradiction Hm | discriminate]. }
  destruct Hrun as (d' & Hseen & Husers & Hpolicies & Happrovals & ->).
  cbn [snd].
  destruct (allSettled_sent order tallies
              (with_db d'
                 (after_call (after_events (events_before_null payload) w)))
              Hnd)
    as (w' & -> & (Hap & Hag & Hpo & _) & Hdrop & _).
  cbn [snd]. cbn [db with_db] in Hap, Hag, Hpo, Hdrop.
  rewrite Hpo, Hap, Hag. rewrite Husers in Hdrop.
  repeat split; auto.
  intros [Hm|Hp]; [now contradiction Hm | discriminate].
Qed.
End IngestionTheorems.

(** ** The properties on the examples *)

(** X17 on a demo card and on the stored request of the examples. *)
Lemma respond_handler_keeps_list_and_store_together_witness :
  let w := Examples.world_with_approval pending None in
  let local := [Examples.approval1 pending None] in
  snd (handleApprove local "demo_approval_1" w) = w /\
  stored_status (snd (handleApprove local "approval-1" w)) "approval-1"
  = Some approved.
Proof.
  intros w local.
  destruct (respond_handler_keeps_list_and_store_together w respond_approved
              alert_approved local "demo_approval_1") as [Hdemo _].
  destruct (respond_handler_keeps_list_and_store_together w respond_approved
              alert_approved local "approval-1") as [_ Hreal].
  split.
  - destruct (Hdemo eq_refl) as [respondedAt Hrun].
    unfold handleApprove. now rewrite Hrun.
  - destruct (Hreal eq_refl)
      as [(a & t & t' & _ & _ & Hstored)|[Herror _]];
      [|vm_compute in Herror; discriminate].
    unfold stored_status, handleApprove. rewrite Hstored, lookup_insert_eq.
    reflexivity.
Defined.

(** X18 on a list of two cards, of which the first is approved. *)
Lemma updateApproval_removes_the_card_witness :
  let local := [Examples.approval1 pending None; MoreExamples.approval2] in
  let updated := updateApproval "approval-1" approved 5 local in
  displayApprovals updated = [MoreExamples.approval2] /\
  In (Examples.approval1 approved (Some 5)) (resolvedApprovals updated).
Proof.
  intros local updated.
  destruct (updateApproval_removes_the_card "approval-1" respond_approved 5
              local) as (Hshown & Hresolved & _).
  split.
  - unfold updated. change approved with (status_of_response respond_approved).
    rewrite Hshown. vm_compute. reflexivity.
  - apply (Hresolved (Examples.approval1 pending None));
      [now left | reflexivity].
Defined.

(** X19 when the owner saves a policy for the agent of the examples. *)
Lemma setPolicy_getPolicy_round_trip_witness :
  let w' := snd (setPolicy MoreExamples.saved_policy
                   MoreExamples.world_registered) in
  exists updatedAt,
    fst (getPolicy "doc1" (at_time 0 [] w'))
    = Return (Some (policy_updated_at updatedAt MoreExamples.saved_policy)).
Proof.
  intros w'.
  destruct (setPolicy_getPolicy_round_trip MoreExamples.world_registered
              MoreExamples.saved_policy 0 [])
    as (Hread & _); [reflexivity | reflexivity |].
  exact Hread.
Defined.

(** X20 after the registration of the examples: the owner saves a
    switched-off policy in the app, and the evaluator still approves
    0.05 SOL under the default policy. *)
Lemma setPolicy_leaves_policies_stored_elsewhere_witness :
  let w' := snd (setPolicy MoreExamples.saved_policy
                   MoreExamples.world_registered) in
  policies (db w') !! "doc2" = Some MoreExamples.default_policy /\
  fst (evaluateTransaction "doc1" (5 # 100)%Q None w')
  = Return (mkEval true within_reason).
Proof.
  intros w'.
  destruct (setPolicy_leaves_policies_stored_elsewhere
              MoreExamples.world_registered MoreExamples.saved_policy
              MoreExamples.default_policy "doc2")
    as (Hkept & _);
    [vm_compute; reflexivity | discriminate | reflexivity | reflexivity |].
  split; [exact Hkept | vm_compute; reflexivity].
Defined.

(** X21 when the owner saves that policy in the settings. *)
Lemma handleSavePolicy_keeps_store_and_database_together_witness :
  let run := handleSavePolicy ∅ MoreExamples.saved_policy
               MoreExamples.world_registered in
  exists saved updatedAt,
    fst run = Return (alert_saved, saved) /\
    saved !! "doc1" = Some MoreExamples.saved_policy /\
    policies (db (snd run)) !! "doc1"
    = Some (policy_updated_at updatedAt MoreExamples.saved_policy).
Proof.
  intros run.
  destruct (handleSavePolicy_keeps_store_and_database_together
              MoreExamples.world_registered ∅ MoreExamples.saved_policy)
    as [_ Hreal].
  destruct (Hreal eq_refl)
    as [(saved & updatedAt & Hanswer & Hlocal & Hremote & _)|[Herror _]];
    [|vm_compute in Herror; discriminate].
  exists saved, updatedAt. auto.
Defined.

(** X22 when the owner of the examples switches notifications off. *)
Lemma handleToggleNotifications_takes_effect_witness :
  let w' := snd (handleToggleNotifications (Some Examples.owner) false
                   Examples.world_fresh) in
  sent (snd (sendPushToOwner "user-1" "title" "text" [] w')) = [].
Proof.
  intros w'.
  destruct (handleToggleNotifications_takes_effect Examples.world_fresh
              Examples.owner false)
    as [(stored & _ & _ & _ & Hquiet)|(code & Hthrown & _)];
    [discriminate | | vm_compute in Hthrown; discriminate].
  specialize (Hquiet eq_refl (clock w') (outcomes w') "title" "text" []).
  unfold at_time in Hquiet. rewrite world_eta in Hquiet. exact Hquiet.
Defined.

(** X25 on the swap of the examples, paid by the wallet of the agent. *)
Lemma process_transaction_attributes_by_wallet_witness :
  exists batch' tallies' w' id record,
    process_transaction MoreExamples.swap_event [] [] Examples.world_fresh
    = (Return (batch', tallies'), w') /\
    AgentTransaction.from record
    = "7xKXtg2CW87d97TXJSDpbD5jBkheTqA83TZRuJosgAsU" /\
    In (SetTransaction id record) batch'.
Proof.
  destruct (process_transaction MoreExamples.swap_event [] []
              Examples.world_fresh) as [[[batch' tallies']|code] w'] eqn:Erun;
    [|vm_compute in Erun; discriminate].
  destruct (process_transaction_attributes_by_wallet _ _ _ _ _ _ _ Erun)
    as (_ & _ & id & record & Hfrom & Hcase).
  exists batch', tallies', w', id, record.
  split; [reflexivity|]. split; [exact Hfrom|].
  destruct (AgentTransaction.agentId record).
  - destruct Hcase as [-> _]. right. now left.
  - destruct Hcase as [-> _]. now left.
Defined.

(** X27 on a GET request. *)
Lemma onHeliusWebhook_leaves_the_rest_witness :
  snd (onHeliusWebhook [] "GET" (Some (map Some Examples.payload))
         Examples.world_fresh)
  = Examples.world_fresh.
Proof.
  destruct (onHeliusWebhook_leaves_the_rest Examples.world_fresh [] "GET"
              (Some (map Some Examples.payload)))
    as (_ & _ & _ & _ & Hnothing).
  apply Hnothing. left. discriminate.
Defined.

(** X12 when the agent of the examples polls its request. *)
Lemma get_approvals_status_only_for_own_agent_witness :
  let w := Examples.world_with_approval pending None in
  exists agentId data,
    is_Some (agents (db w) !! agentId) /\
    approvals (db w) !! "approval-1" = Some data /\
    ApprovalRequest.agentId data = agentId.
Proof.
  intros w.
  destruct (get_approvals_status_only_for_own_agent MoreExamples.hash1 w
              (Some "Bearer key-1") "approval-1"
              (ApprovalStatusBody "approval-1" expired 0 60000 None))
    as (apiKey & agentId & agent & data & _ & _ & Hagent & _ & Hdata & Hown);
    [vm_compute; reflexivity|].
  exists agentId, data. eauto.
Defined.

(** X13 when the agent of the examples asks for a swap of 2 SOL and polls
    at once. *)
Lemma requested_approval_can_be_polled_witness :
  let w' := snd (post_approvals_request MoreExamples.hash1
                   (Some "Bearer key-1")
                   (Examples.swap_request (2 # 1)%Q None)
                   Examples.world_fresh) in
  exists status createdAt expiresAt respondedAt,
    fst (get_approvals_status MoreExamples.hash1 (Some "Bearer key-1") "doc0"
           (at_time Examples.noon [] w'))
    = Return (mkResponse 200
                (ApprovalStatusBody "doc0" status createdAt expiresAt
                   respondedAt)) /\
    status <> denied.
Proof.
  intros w'.
  destruct (requested_approval_can_be_polled MoreExamples.hash1
              Examples.world_fresh (Some "Bearer key-1")
              (Examples.swap_request (2 # 1)%Q None) "doc0" pending false
              "Transaction amount 2 SOL exceeds per-tx limit of 0.5 SOL."
              Examples.noon [])
    as (status & createdAt & expiresAt & respondedAt & Hanswer & Hstatus).
  - intros id a Hstored.
    change (({[ "agent-1" := Examples.agent1 ]} : gmap string Agent.t) !! id
            = Some a) in Hstored.
    apply lookup_singleton_Some in Hstored as [<- <-]. reflexivity.
  - vm_compute. reflexivity.
  - reflexivity.
  - exists status, createdAt, expiresAt, respondedAt.
    split; [exact Hanswer|].
    destruct Hstatus as [->|(_ & -> & _)]; discriminate.
Defined.
